(** * Springboard: an event-driven backtester

    A shallow embedding of the four parts of the repository that carry
    its logic, and the properties proved of them:

    - [Poloniex]   : [poloniex.py], the paged trade fetch and its folding
                     into hourly statistic rows ([get_trades]);
    - [Data]       : [data.py], the replay cursor [PoloniexDataHandler];
    - [Portfolio]  : [portfolio.py], the ledger [NaivePortfolio] and its
                     order sizing;
    - [MarketData] : [market_data.py], the paged fetch of the raw trades.

    Conventions of the embedding.

    - Python [float] values (prices, cash, statistics, signal strength)
      are exact rationals [Qc]: rounding is not modelled there.  What is
      proved of them is stated with the expressions of the code, in the
      order the code evaluates them, and not with a rearrangement that
      rounding would break; [Binary64] has the cash of the ledger on
      binary64 numbers, where a rearrangement is refuted.  Python [int]
      values (positions, order quantities, page bounds) are [Z].
    - A [pandas] timestamp is a number of seconds ([Z]); an hourly
      [Period] is a number of hours ([Z]).
    - Exceptions are values of [exn]; a function that can raise returns
      a [result].
    - The event queue is the list of the items put on it, oldest first.
    - A ledger dictionary has two kinds of keys, the market identifiers
      and the fixed names ['datetime'], ['cash'], ['commission'] and
      ['total'].  The model keeps them apart: a [gmap] for the markets
      and record fields for the fixed names, so a market is never one of
      the four fixed names.
    - Text written by [print] is kept only where a property is about it
      ([Data.get_latest_market_data]). *)

From Stdlib Require Import ZArith QArith Qcanon Qround Lia Lqa Sorted Floats.
From stdpp Require Import base option list strings gmap fin_maps.

Local Open Scope Z_scope.

(** ** Numbers *)

(** A Python [int] used where a [float] is expected. *)
Definition of_int (z : Z) : Qc := Q2Qc (inject_Z z).

(** [math.floor]. *)
Definition floor (q : Qc) : Z := Qfloor q.

(** Closed equations between rationals: compare the canonical forms. *)
Ltac qc_compute := apply Qc_is_canon; vm_compute; reflexivity.

(** ** Exceptions *)

(** The Python exceptions the modelled code can raise, and
    [EmptyRangeError], the name the specification gives to the failure of
    a fetch whose window has no trade: no source raises it, it is here
    for [get_trades] to be compared with it. *)
Inductive exn : Set :=
| KeyError | IndexError | AttributeError | StopIteration
| EmptyRangeError.

Inductive result (A : Type) : Type :=
| Ok (a : A)
| Raise (e : exn).
Arguments Ok {A} a.
Arguments Raise {A} e.

Definition bind {A B} (r : result A) (k : A → result B) : result B :=
  match r with
  | Ok a => k a
  | Raise e => Raise e
  end.

Notation "'let*' x := r 'in' k" := (bind r (fun x => k))
  (at level 10, x pattern, r at level 100, k at level 200).

(** [d[k]] on a dictionary: [KeyError] on a missing key. *)
Definition getitem {V} (d : gmap string V) (k : string) : result V :=
  match d !! k with
  | Some v => Ok v
  | None => Raise KeyError
  end.

(** [{k: v for k in keys}]. *)
Definition const_dict {V} (v : V) (keys : list string) : gmap string V :=
  list_to_map ((fun k => (k, v)) <$> keys).

(** ** The statistic rows shared by the three parts *)

(** The eight statistics [describe()] gives for one column. *)
Record Stats : Type := mkStats {
  s_count : Qc; s_mean : Qc; s_std : Qc; s_min : Qc;
  s_q25 : Qc; s_q50 : Qc; s_q75 : Qc; s_max : Qc
}.

Inductive Stat : Set := Count | Mean | Std | Min | Q25 | Q50 | Q75 | Max.

Definition stat (s : Stats) (k : Stat) : Qc :=
  match k with
  | Count => s_count s | Mean => s_mean s | Std => s_std s | Min => s_min s
  | Q25 => s_q25 s | Q50 => s_q50 s | Q75 => s_q75 s | Max => s_max s
  end.

(** One row of the hourly frame: the statistics of each numeric column
    of the trade table (the columns [poloniex.py] names). *)
Record Row : Type := mkRow {
  tradeID : Stats; amount : Stats; rate : Stats; total : Stats; type_ : Stats
}.

Inductive Column : Set := TradeID | Amount | Rate | Total | Type_.

Definition col (r : Row) (c : Column) : Stats :=
  match c with
  | TradeID => tradeID r | Amount => amount r | Rate => rate r
  | Total => total r | Type_ => type_ r
  end.

(** A row of the frame [get_trades] returns, as [iterrows] yields it:
    [name] is the hour label, [market] the tag of the last column. *)
Record Bar : Type := mkBar { name : Z; stats : Row; market : string }.

(** ** Events and their queue *)

(** Modelled from the spec: [event.py], which declares the event classes,
    is not among the sources.  The fields are those of the spec's data
    model ([Signal{market, signal_type, strength}], [Order{market,
    direction, quantity, price}], [Fill{market, direction, quantity,
    price, commission}]) together with [market_snapshot], which
    [generate_naive_order] reads off a signal; [type] is the tag the
    handlers test. *)
Record Signal : Type := mkSignal {
  signal_market : string; signal_type : string; strength : Qc;
  market_snapshot : Bar
}.

Record Order : Type := mkOrder {
  order_market : string; order_direction : string;
  order_quantity : Z; order_price : Qc
}.

Record Fill : Type := mkFill {
  fill_market : string; fill_direction : string; fill_quantity : Z;
  fill_price : Qc; fill_commission : Qc
}.

Inductive Event : Type :=
| MarketEvent
| SignalEvent (s : Signal)
| OrderEvent (o : Order)
| FillEvent (f : Fill).

Definition type (e : Event) : string :=
  match e with
  | MarketEvent => "MARKET"
  | SignalEvent _ => "SIGNAL"
  | OrderEvent _ => "ORDER"
  | FillEvent _ => "FILL"
  end.

(** The shared [Queue]: the items put on it, oldest first.  An item is
    any Python value the code puts: an event or [None]. *)
Definition Queue : Type := list (option Event).

Definition put (events : Queue) (item : option Event) : Queue :=
  events ++ [item].

(** ** [poloniex.py] *)

Module Poloniex.

(** *** Element-wise arithmetic on rows *)

Definition stats_map (f : Qc → Qc) (s : Stats) : Stats :=
  mkStats (f (s_count s)) (f (s_mean s)) (f (s_std s)) (f (s_min s))
          (f (s_q25 s)) (f (s_q50 s)) (f (s_q75 s)) (f (s_max s)).

Definition stats_map2 (f : Qc → Qc → Qc) (s t : Stats) : Stats :=
  mkStats (f (s_count s) (s_count t)) (f (s_mean s) (s_mean t))
          (f (s_std s) (s_std t)) (f (s_min s) (s_min t))
          (f (s_q25 s) (s_q25 t)) (f (s_q50 s) (s_q50 t))
          (f (s_q75 s) (s_q75 t)) (f (s_max s) (s_max t)).

Definition row_map (f : Stats → Stats) (r : Row) : Row :=
  mkRow (f (tradeID r)) (f (amount r)) (f (rate r)) (f (total r)) (f (type_ r)).

Definition row_map2 (f : Stats → Stats → Stats) (r s : Row) : Row :=
  mkRow (f (tradeID r) (tradeID s)) (f (amount r) (amount s))
        (f (rate r) (rate s)) (f (total r) (total s)) (f (type_ r) (type_ s)).

(** [row * k], [row1 + row2], [row / k]. *)
Definition row_mul (r : Row) (k : Qc) : Row :=
  row_map (stats_map (fun x => (x * k)%Qc)) r.
Definition row_add (r s : Row) : Row :=
  row_map2 (stats_map2 Qcplus) r s.
Definition row_div (r : Row) (k : Qc) : Row :=
  row_map (stats_map (fun x => (x / k)%Qc)) r.

(** [row[col]['count'] = trade_count]. *)
Definition set_count (trade_count : Qc) (s : Stats) : Stats :=
  mkStats trade_count (s_mean s) (s_std s) (s_min s)
          (s_q25 s) (s_q50 s) (s_q75 s) (s_max s).

(** Lines 42 to 48: the row that replaces two rows of one hour. *)
Definition merge_rows (row1 row2 : Row) : Row :=
  let trade_count := (s_count (tradeID row1) + s_count (tradeID row2))%Qc in
  let new_row :=
    row_div (row_add (row_mul row1 (s_count (tradeID row1)))
                     (row_mul row2 (s_count (tradeID row2))))
            trade_count in
  (* for col in new_row.index.levels[0]: new_row[col]['count'] = trade_count *)
  row_map (set_count trade_count) new_row.

(** *** Frames indexed by the hour *)

(** The hourly frame: its rows in order, each with its hour label.  The
    frame [pd.DataFrame()] (no row, no column) is [[]]; a frame the loop
    has put rows in has the statistic columns. *)
Definition DataFrame : Type := list (Z * Row).

Definition index_min (df : DataFrame) : option Z :=
  match df with
  | [] => None
  | (h, _) :: rest => Some (foldr Z.min h rest.*1)
  end.

Definition index_max (df : DataFrame) : option Z :=
  match df with
  | [] => None
  | (h, _) :: rest => Some (foldr Z.max h rest.*1)
  end.

(** [df.ix[k]] on a frame whose labels are distinct. *)
Fixpoint ix (df : DataFrame) (k : Z) : option Row :=
  match df with
  | [] => None
  | (h, r) :: rest => if h =? k then Some r else ix rest k
  end.

(** [df.ix[k] = row]. *)
Definition ix_set (df : DataFrame) (k : Z) (row : Row) : DataFrame :=
  map (fun hr => if hr.1 =? k then (hr.1, row) else hr) df.

(** [df[df.index != k]]. *)
Definition drop_label (df : DataFrame) (k : Z) : DataFrame :=
  List.filter (fun hr => negb (hr.1 =? k)) df.

(** Lines 39 to 52.  The two lookups cannot miss: [k] is a label of both
    frames ([ix_index_min], [ix_index_max]). *)
Definition account_for_overlap (trades_df hourly_stats : DataFrame)
  : DataFrame * DataFrame :=
  match index_min trades_df, index_max hourly_stats with
  | Some k, Some k' =>
      if k =? k' then
        match ix trades_df k, ix hourly_stats k with
        | Some row1, Some row2 =>
            (ix_set trades_df k (merge_rows row1 row2),
             drop_label hourly_stats k)
        | _, _ => (trades_df, hourly_stats)
        end
      else (trades_df, hourly_stats)
  | _, _ => (trades_df, hourly_stats)
  end.

(** [df.sort_index()]: an insertion sort on the labels. *)
Fixpoint insert_sorted (hr : Z * Row) (df : DataFrame) : DataFrame :=
  match df with
  | [] => [hr]
  | hr' :: rest =>
      if hr.1 <=? hr'.1 then hr :: df else hr' :: insert_sorted hr rest
  end.

Definition sort_index (df : DataFrame) : DataFrame :=
  foldr insert_sorted [] df.

(** [df.tradeID]: the frame [pd.DataFrame()] has no such column, also
    after [df['market'] = ...] has given it its only column. *)
Definition getattr_tradeID (df : DataFrame) : result (list Stats) :=
  match df with
  | [] => Raise AttributeError
  | _ => Ok (map (fun hr => tradeID hr.2) df)
  end.

(** [col['count'].sum()]. *)
Definition count_sum (column : list Stats) : Qc :=
  foldr Qcplus (of_int 0) (s_count <$> column).

(** [x % n == 0] for a float [x] and a positive int [n]. *)
Definition mod_is_zero (x : Qc) (n : Z) : bool :=
  (Qden x =? 1)%positive && (Qnum x mod n =? 0).

(** [need_to_fetch]: [len(t) == 0 or t.tradeID['count'].sum() % 50000 == 0]. *)
Definition need_to_fetch (t : DataFrame) : bool :=
  match t with
  | [] => true
  | _ => mod_is_zero (count_sum (map (fun hr => tradeID hr.2) t)) 50000
  end.

(** *** The trade table *)

(** A trade as the feed gives it. *)
Record RawTrade : Type := mkRawTrade {
  raw_date : Z; raw_tradeID : Qc; raw_type : string;
  raw_rate : Qc; raw_amount : Qc; raw_total : Qc
}.

(** A row of the table [format_dtypes] returns; [date] is its index. *)
Record Trade : Type := mkTrade {
  date : Z; t_tradeID : Qc; t_type : Qc;
  t_rate : Qc; t_amount : Qc; t_total : Qc
}.

(** [s.str.contains('buy') * 1]. *)
Definition contains_buy (s : string) : Qc :=
  match String.index 0 "buy" s with
  | Some _ => of_int 1
  | None => of_int 0
  end.

Definition format_dtypes (df : list RawTrade) : list Trade :=
  map (fun r => mkTrade (raw_date r) (raw_tradeID r) (contains_buy (raw_type r))
                        (raw_rate r) (raw_amount r) (raw_total r)) df.

(** [time.mktime(dt.timetuple())], the clock taken as UTC. *)
Definition unix_time (dt : Z) : Z := dt.

(** [trades.index.to_period('1H')] for one row. *)
Definition hour (t : Trade) : Z := date t / 3600.

(** [groupby('hour')]: the groups by increasing hour, each with its rows
    in the order of the table. *)
Fixpoint add_to_group (t : Trade) (groups : list (Z * list Trade))
  : list (Z * list Trade) :=
  match groups with
  | [] => [(hour t, [t])]
  | (h, ts) :: rest =>
      if hour t <? h then (hour t, [t]) :: groups
      else if hour t =? h then (h, ts ++ [t]) :: rest
      else (h, ts) :: add_to_group t rest
  end.

Definition groupby_hour (trades : list Trade) : list (Z * list Trade) :=
  foldl (fun groups t => add_to_group t groups) [] trades.

Section GetTrades.

(** The feed: [poloniex_api('returnTradeHistory', ...)] for a currency
    pair and the bounds [start] and [end] of the request. *)
Variable poloniex_api : string → Z → Z → list RawTrade.

(** [describe()] of [pandas] on the values of one column in one group. *)
Variable describe : list Qc → Stats.

Definition describe_group (ts : list Trade) : Row :=
  mkRow (describe (t_tradeID <$> ts)) (describe (t_amount <$> ts))
        (describe (t_rate <$> ts)) (describe (t_total <$> ts))
        (describe (t_type <$> ts)).

(** [trades.groupby('hour').describe().unstack()]. *)
Definition hourly (trades : list Trade) : DataFrame :=
  map (fun g => (g.1, describe_group g.2)) (groupby_hour trades).

(** [trades.index.min()] of a table that has a row. *)
Definition date_min (t : Trade) (ts : list Trade) : Z :=
  foldr Z.min (date t) (date <$> ts).

(** The [while] loop of [get_trades], lines 18 to 56.  [fuel] bounds the
    number of pages; [None] is a loop that has not ended within it.  The
    result is the frame at the exit and the bounds of the page requests
    made, oldest first. *)
Fixpoint fetch_loop (fuel : nat) (currency_pair : string) (start end_ : Z)
    (trades_df : DataFrame) : option (DataFrame * list (Z * Z)) :=
  if need_to_fetch trades_df then
    match fuel with
    | O => None
    | S fuel' =>
        let request := (unix_time start, unix_time end_) in
        let new_trades := poloniex_api currency_pair request.1 request.2 in
        (* format_dtypes keeps the rows: the table is empty exactly when
           new_trades is *)
        match format_dtypes new_trades with
        | [] => (* if new_trades.empty: break *)
            Some (trades_df, [request])
        | t :: ts =>
            let end' := date_min t ts in
            let hourly_stats := hourly (t :: ts) in
            let merged := account_for_overlap trades_df hourly_stats in
            match fetch_loop fuel' currency_pair start end'
                             (merged.1 ++ merged.2) with
            | Some (df, requests) => Some (df, request :: requests)
            | None => None
            end
        end
    end
  else Some (trades_df, []).

(** [get_trades], lines 13 to 62. *)
Definition get_trades (fuel : nat) (currency_pair : string) (start end_ : Z)
  : option (result (list Bar)) :=
  match fetch_loop fuel currency_pair start end_ [] with
  | None => None
  | Some (trades_df, _) =>
      let trades_df := sort_index trades_df in
      (* trades_df['market'] = currency_pair *)
      let bars := map (fun hr => mkBar hr.1 hr.2 currency_pair) trades_df in
      Some (
        (* print(... trades_df.tradeID['count'].sum()) *)
        let* column := getattr_tradeID trades_df in
        let _ := count_sum column in
        Ok bars)
  end.

End GetTrades.

End Poloniex.

(** ** [data.py] *)

Module Data.

Record PoloniexDataHandler : Type := mkHandler {
  markets : list string;
  market_data : gmap string (list Bar);
  (* the iterators of [iterrows()]: the rows not yet yielded *)
  market_snapshots : gmap string (list Bar);
  latest_market_data : gmap string (list Bar);
  continue_backtest : bool
}.

Definition set_market_snapshots (dh : PoloniexDataHandler)
    (v : gmap string (list Bar)) : PoloniexDataHandler :=
  mkHandler (markets dh) (market_data dh) v (latest_market_data dh)
            (continue_backtest dh).

Definition set_latest_market_data (dh : PoloniexDataHandler)
    (v : gmap string (list Bar)) : PoloniexDataHandler :=
  mkHandler (markets dh) (market_data dh) (market_snapshots dh) v
            (continue_backtest dh).

Definition set_continue_backtest (dh : PoloniexDataHandler) (v : bool)
  : PoloniexDataHandler :=
  mkHandler (markets dh) (market_data dh) (market_snapshots dh)
            (latest_market_data dh) v.

Definition set_market_data (dh : PoloniexDataHandler)
    (v : gmap string (list Bar)) : PoloniexDataHandler :=
  mkHandler (markets dh) v (market_snapshots dh) (latest_market_data dh)
            (continue_backtest dh).

(** A [for] loop whose body can raise. *)
Fixpoint for_each {S A} (body : S → A → result S) (s : S) (l : list A)
  : result S :=
  match l with
  | [] => Ok s
  | a :: rest => let* s' := body s a in for_each body s' rest
  end.

(** [get_all_market_data]; [get_trades m] stands for
    [poloniex.get_trades(m, start, end)]. *)
Definition get_all_market_data (get_trades : string → result (list Bar))
    (dh : PoloniexDataHandler) : result PoloniexDataHandler :=
  for_each (fun dh m =>
      let* df := get_trades m in
      let dh := set_market_data dh (<[m := df]> (market_data dh)) in
      Ok (set_market_snapshots dh (<[m := df]> (market_snapshots dh))))
    dh (markets dh).

(** [__init__]. *)
Definition init (get_trades : string → result (list Bar))
    (markets : list string) : result PoloniexDataHandler :=
  get_all_market_data get_trades
    (mkHandler markets ∅ ∅ (const_dict [] markets) true).

(** [l[s:]] for an int [s]. *)
Definition slice_from {A} (l : list A) (s : Z) : list A :=
  if s <? 0 then drop (Z.to_nat (Z.max 0 (Z.of_nat (length l) + s))) l
  else drop (Z.to_nat s) l.

(** [get_latest_market_data]: the lines printed and the value returned. *)
Definition get_latest_market_data (dh : PoloniexDataHandler)
    (market : string) (N : Z) : list string * option Bar :=
  match latest_market_data dh !! market with
  | None =>
      (["That symbol is not available in the historical data set."], None)
  | Some snapshot_list =>
      let snapshot := slice_from snapshot_list (- N) in
      match snapshot with
      | b :: _ => ([], Some b)
      | [] => ([], None)
      end
  end.

(** [_get_new_snapshot]: [next(self.market_snapshots[market])[1]]. *)
Definition _get_new_snapshot (dh : PoloniexDataHandler) (market : string)
  : result (Bar * PoloniexDataHandler) :=
  let* it := getitem (market_snapshots dh) market in
  match it with
  | [] => Raise StopIteration
  | b :: rest =>
      Ok (b, set_market_snapshots dh (<[market := rest]> (market_snapshots dh)))
  end.

(** The body of the loop of [update_market_data] for one market.  A row
    of [iterrows] is never [None]. *)
Definition update_market (dh : PoloniexDataHandler) (m : string)
  : result PoloniexDataHandler :=
  match _get_new_snapshot dh m with
  | Raise StopIteration => Ok (set_continue_backtest dh false)
  | Raise e => Raise e
  | Ok (snapshot, dh) =>
      let* l := getitem (latest_market_data dh) m in
      Ok (set_latest_market_data dh
            (<[m := l ++ [snapshot]]> (latest_market_data dh)))
  end.

(** [update_market_data]. *)
Definition update_market_data (dh : PoloniexDataHandler) (events : Queue)
  : result (PoloniexDataHandler * Queue) :=
  let* dh := for_each update_market dh (markets dh) in
  Ok (dh, put events (Some MarketEvent)).

(** [n] calls of [update_market_data] in a row. *)
Fixpoint update_market_data_n (n : nat) (dh : PoloniexDataHandler)
    (events : Queue) : result (PoloniexDataHandler * Queue) :=
  match n with
  | O => Ok (dh, events)
  | S n' =>
      let* st := update_market_data dh events in
      update_market_data_n n' st.1 st.2
  end.

(** The number of times the loop of [update_market_data] reaches a
    market: once for each of its occurrences in [markets]. *)
Definition pulls (dh : PoloniexDataHandler) (m : string) : nat :=
  length (List.filter (String.eqb m) (markets dh)).

(** The rows the iterator of a market has not yielded yet. *)
Definition remaining (dh : PoloniexDataHandler) (m : string) : list Bar :=
  default [] (market_snapshots dh !! m).

(** The bars of a market revealed so far. *)
Definition revealed (dh : PoloniexDataHandler) (m : string) : list Bar :=
  default [] (latest_market_data dh !! m).

(** What [__init__] sets up: every market has its iterator and its list
    of revealed bars. *)
Definition populated (dh : PoloniexDataHandler) : Prop :=
  ∀ m, m ∈ markets dh →
    is_Some (market_snapshots dh !! m) ∧ is_Some (latest_market_data dh !! m).

End Data.

(** ** [portfolio.py] *)

Module Portfolio.

(** A row of [all_positions]: the positions of the markets it has, and
    ['datetime'] when it has been set. *)
Record PositionsRow : Type := mkPositionsRow {
  row_positions : gmap string Z;
  positions_datetime : option Z
}.

(** A holdings dictionary: the values of the markets it has, ['datetime']
    when it has been set, and ['cash'], ['commission'] and ['total']. *)
Record Holdings : Type := mkHoldings {
  market_values : gmap string Qc;
  datetime : option Z;
  cash : Qc;
  commission : Qc;
  total : Qc
}.

Record NaivePortfolio : Type := mkPortfolio {
  markets : list string;
  start_date : Z;
  initial_capital : Qc;
  all_positions : list PositionsRow;
  current_positions : gmap string Z;
  all_holdings : list Holdings;
  current_holdings : Holdings
}.

Definition construct_all_positions (markets : list string) (start_date : Z)
  : list PositionsRow :=
  [mkPositionsRow (const_dict 0 markets) (Some start_date)].

Definition construct_all_holdings (markets : list string) (start_date : Z)
    (initial_capital : Qc) : list Holdings :=
  [mkHoldings (const_dict (of_int 0) markets) (Some start_date)
              initial_capital (of_int 0) initial_capital].

Definition construct_current_holdings (markets : list string)
    (initial_capital : Qc) : Holdings :=
  mkHoldings (const_dict (of_int 0) markets) None
             initial_capital (of_int 0) initial_capital.

(** [__init__]; [market_data] is the data handler the portfolio reads. *)
Definition init (market_data : Data.PoloniexDataHandler)
    (start_date : option Z) (initial_capital : Qc) : result NaivePortfolio :=
  let markets := Data.markets market_data in
  let* start_date :=
    match start_date with
    | Some d => Ok d
    | None =>
        match markets with
        | [] => Raise IndexError
        | first_market :: _ =>
            let* df := getitem (Data.market_data market_data) first_market in
            match df with
            | [] => Raise IndexError
            | b :: _ => Ok (name b)
            end
        end
    end in
  Ok (mkPortfolio markets start_date initial_capital
        (construct_all_positions markets start_date)
        (const_dict 0 markets)
        (construct_all_holdings markets start_date initial_capital)
        (construct_current_holdings markets initial_capital)).

(** The body of the loop of [update_timeindex] for one market, on the two
    dictionaries under construction. *)
Definition update_timeindex_market (market_data : Data.PoloniexDataHandler)
    (self : NaivePortfolio) (rows : PositionsRow * Holdings) (market : string)
  : result (PositionsRow * Holdings) :=
  let '(positions, holdings) := rows in
  match (Data.get_latest_market_data market_data market 1).2 with
  | Some snapshot =>
      let* q := getitem (current_positions self) market in
      let positions :=
        mkPositionsRow (<[market := q]> (row_positions positions))
                       (Some (name snapshot)) in
      let market_value := (of_int q * s_mean (rate (stats snapshot)))%Qc in
      let holdings :=
        mkHoldings (market_values holdings) (Some (name snapshot))
                   (cash holdings) (commission holdings)
                   (total holdings + market_value)%Qc in
      Ok (positions, holdings)
  | None => Ok (positions, holdings)
  end.

(** [update_timeindex]. *)
Definition update_timeindex (market_data : Data.PoloniexDataHandler)
    (self : NaivePortfolio) (event : Event) : result NaivePortfolio :=
  let positions := mkPositionsRow ∅ None in
  let holdings :=
    mkHoldings ∅ None (cash (current_holdings self))
               (commission (current_holdings self))
               (cash (current_holdings self)) in
  let* rows :=
    Data.for_each (update_timeindex_market market_data self)
                  (positions, holdings) (markets self) in
  Ok (mkPortfolio (markets self) (start_date self) (initial_capital self)
        (all_positions self ++ [rows.1]) (current_positions self)
        (all_holdings self ++ [rows.2]) (current_holdings self)).

(** The sign both fill handlers compute from [fill.direction]. *)
Definition fill_dir (fill : Fill) : Z :=
  let fill_dir := 0 in
  let fill_dir := if String.eqb (fill_direction fill) "BUY" then 1 else fill_dir in
  let fill_dir := if String.eqb (fill_direction fill) "SELL" then -1 else fill_dir in
  fill_dir.

Definition update_positions_from_fill (self : NaivePortfolio) (fill : Fill)
  : result NaivePortfolio :=
  let* q := getitem (current_positions self) (fill_market fill) in
  Ok (mkPortfolio (markets self) (start_date self) (initial_capital self)
        (all_positions self)
        (<[fill_market fill := q + fill_dir fill * fill_quantity fill]>
           (current_positions self))
        (all_holdings self) (current_holdings self)).

(** [cost = fill_dir * fill.price * fill.quantity]. *)
Definition fill_cost (fill : Fill) : Qc :=
  (of_int (fill_dir fill) * fill_price fill * of_int (fill_quantity fill))%Qc.

Definition update_holdings_from_fill (self : NaivePortfolio) (fill : Fill)
  : result NaivePortfolio :=
  let cost := fill_cost fill in
  let h := current_holdings self in
  let* v := getitem (market_values h) (fill_market fill) in
  let h :=
    mkHoldings (<[fill_market fill := (v + cost)%Qc]> (market_values h))
               (datetime h)
               (cash h - (cost + fill_commission fill))%Qc
               (commission h + fill_commission fill)%Qc
               (total h - (cost + fill_commission fill))%Qc in
  Ok (mkPortfolio (markets self) (start_date self) (initial_capital self)
        (all_positions self) (current_positions self)
        (all_holdings self) h).

(** [update_fill]. *)
Definition update_fill (self : NaivePortfolio) (event : Event)
  : result NaivePortfolio :=
  if String.eqb (type event) "FILL" then
    match event with
    | FillEvent fill =>
        let* self := update_positions_from_fill self fill in
        update_holdings_from_fill self fill
    | _ => Ok self
    end
  else Ok self.

(** [generate_naive_order]: [None] when no [return] is reached. *)
Definition generate_naive_order (self : NaivePortfolio) (signal : Signal)
  : result (option Event) :=
  let market := signal_market signal in
  let strength := strength signal in
  let price := s_mean (rate (stats (market_snapshot signal))) in
  let mkt_quantity := floor (of_int 100 * strength)%Qc in
  let* cur_quantity := getitem (current_positions self) market in
  let order_quantity := mkt_quantity in
  if String.eqb (signal_type signal) "LONG" && (cur_quantity =? 0) then
    Ok (Some (OrderEvent (mkOrder market "BUY" order_quantity price)))
  else if String.eqb (signal_type signal) "SHORT" && (cur_quantity =? 0) then
    Ok (Some (OrderEvent (mkOrder market "SELL" order_quantity price)))
  else if String.eqb (signal_type signal) "SHORT" && (0 <? cur_quantity) then
    Ok (Some (OrderEvent (mkOrder market "SELL" (2 * Z.abs cur_quantity) price)))
  else if String.eqb (signal_type signal) "LONG" && (cur_quantity <? 0) then
    Ok (Some (OrderEvent (mkOrder market "BUY" (2 * Z.abs cur_quantity) price)))
  else Ok None.

(** [update_signal]. *)
Definition update_signal (self : NaivePortfolio) (events : Queue)
    (event : Event) : result Queue :=
  if String.eqb (type event) "SIGNAL" then
    match event with
    | SignalEvent signal =>
        let* order_event := generate_naive_order self signal in
        Ok (put events order_event)
    | _ => Ok events
    end
  else Ok events.

(** The fills of a list applied in order. *)
Definition update_fills (self : NaivePortfolio) (fills : list Fill)
  : result NaivePortfolio :=
  Data.for_each (fun self fill => update_fill self (FillEvent fill)) self fills.

(** What a backtest does to the ledger, one action at a time: the
    per-step update on a [MarketEvent], the data handler being in the
    given state, or a fill. *)
Inductive action : Type :=
| Step (market_data : Data.PoloniexDataHandler)
| Filled (fill : Fill).

Definition act (self : NaivePortfolio) (a : action) : result NaivePortfolio :=
  match a with
  | Step market_data => update_timeindex market_data self MarketEvent
  | Filled fill => update_fill self (FillEvent fill)
  end.

Definition run (self : NaivePortfolio) (actions : list action)
  : result NaivePortfolio :=
  Data.for_each act self actions.

Definition is_step (a : action) : bool :=
  match a with Step _ => true | Filled _ => false end.

(** The number of per-step updates among the actions. *)
Definition steps (actions : list action) : nat :=
  length (List.filter is_step actions).

(** *** The equity curve *)

(** [s.pct_change()]: the change from the value before, as a fraction of
    it; the first place has no value ([NaN], here [None]).  A value
    before of zero is outside the model. *)
Fixpoint pct_change_from (prev : Qc) (l : list Qc) : list (option Qc) :=
  match l with
  | [] => []
  | x :: rest => Some (x / prev - 1)%Qc :: pct_change_from x rest
  end.

Definition pct_change (l : list Qc) : list (option Qc) :=
  match l with
  | [] => []
  | x :: rest => None :: pct_change_from x rest
  end.

(** [s.cumprod()]: the running product; a place without value stays
    without value and is skipped by the product. *)
Fixpoint cumprod_from (acc : Qc) (l : list (option Qc)) : list (option Qc) :=
  match l with
  | [] => []
  | None :: rest => None :: cumprod_from acc rest
  | Some x :: rest => Some (acc * x)%Qc :: cumprod_from (acc * x)%Qc rest
  end.

Definition cumprod (l : list (option Qc)) : list (option Qc) :=
  cumprod_from 1%Qc l.

(** [create_equity_curve_dataframe]: the two columns it adds to the
    frame of [all_holdings], ['returns'] and ['equity_curve']. *)
Definition create_equity_curve_dataframe (self : NaivePortfolio)
  : list (option Qc) * list (option Qc) :=
  let returns := pct_change (map total (all_holdings self)) in
  (* (1.0 + curve['returns']).cumprod() *)
  let equity_curve :=
    cumprod (map (option_map (fun x => (1 + x)%Qc)) returns) in
  (returns, equity_curve).

(** The value of a market at the bar the handler shows for it: the
    position times the mean rate, nothing when no bar is revealed. *)
Definition market_value (market_data : Data.PoloniexDataHandler)
    (self : NaivePortfolio) (m : string) : Qc :=
  match (Data.get_latest_market_data market_data m 1).2,
        current_positions self !! m with
  | Some snapshot, Some q => (of_int q * s_mean (rate (stats snapshot)))%Qc
  | _, _ => of_int 0
  end.

(** What [__init__] sets up: every market has its position and its
    holdings value. *)
Definition covers_markets (self : NaivePortfolio) : Prop :=
  ∀ m, m ∈ markets self →
    is_Some (current_positions self !! m) ∧
    is_Some (market_values (current_holdings self) !! m).

(** The current total is the current cash. *)
Definition balanced (self : NaivePortfolio) : Prop :=
  total (current_holdings self) = cash (current_holdings self).

(** The keys of the two current dictionaries are the markets [ms]. *)
Definition keyed_by (ms : list string) (self : NaivePortfolio) : Prop :=
  markets self = ms ∧
  ∀ m, (is_Some (current_positions self !! m) ↔ m ∈ ms) ∧
       (is_Some (market_values (current_holdings self) !! m) ↔ m ∈ ms).

End Portfolio.

(** ** The cash of the ledger on Python's floats

    The ledger above computes on exact rationals.  The amounts of the
    program are Python floats, that is IEEE binary64 numbers, on which
    every operation rounds.  This is the cash entry of the ledger once
    more, on binary64 numbers, to tell what holds of the program from
    what holds only without rounding. *)

Module Binary64.

(** The float of a Python int, as [int * float] and [sum] convert it
    (exact for the small ints used here). *)
Definition of_int (z : Z) : float :=
  match z with
  | Z0 => 0%float
  | Zpos _ => PrimFloat.of_uint63 (Uint63.of_Z z)
  | Zneg p => (- PrimFloat.of_uint63 (Uint63.of_Z (Zpos p)))%float
  end.

(** The fields of a fill that [update_holdings_from_fill] reads for the
    cash. *)
Record Fill : Type := mkFill {
  fill_direction : string; fill_quantity : Z;
  fill_price : float; fill_commission : float
}.

Definition fill_dir (fill : Fill) : Z :=
  let fill_dir := 0 in
  let fill_dir := if String.eqb (fill_direction fill) "BUY" then 1 else fill_dir in
  let fill_dir := if String.eqb (fill_direction fill) "SELL" then -1 else fill_dir in
  fill_dir.

(** [cost = fill_dir * fill.price * fill.quantity]. *)
Definition fill_cost (fill : Fill) : float :=
  (of_int (fill_dir fill) * fill_price fill * of_int (fill_quantity fill))%float.

(** [self.current_holdings['cash'] -= (cost + fill.commission)] of
    [update_holdings_from_fill]. *)
Definition update_cash (cash : float) (fill : Fill) : float :=
  (cash - (fill_cost fill + fill_commission fill))%float.

(** The cash after the fills of a list, applied in order. *)
Definition cash_after (capital : float) (fills : list Fill) : float :=
  foldl update_cash capital fills.

(** [sum(dir_i * price_i * quantity_i)], as Python's [sum] adds: from 0,
    left to right. *)
Definition sum_costs (fills : list Fill) : float :=
  foldl (fun acc fill => (acc + fill_cost fill)%float) (of_int 0) fills.

End Binary64.

(** ** [market_data.py] *)

Module MarketData.

(** [format_dtypes]: the conversions of the columns to [float] and of
    ['date'] to a timestamp; the rows of the model have these types
    already.  The index is left as it is. *)
Definition format_dtypes (df : list Poloniex.RawTrade) : list Poloniex.RawTrade :=
  df.

(** [need_to_fetch]: [len(t) == 0 or len(t) % 50000 == 0]. *)
Definition need_to_fetch (t : list Poloniex.RawTrade) : bool :=
  (Z.of_nat (length t) =? 0) || (Z.of_nat (length t) mod 50000 =? 0).

(** The upper bound of the next request: [end] before any trade is held,
    the date of the last row held afterwards. *)
Definition request_end (end_ : Z) (trades : list Poloniex.RawTrade) : Z :=
  match last trades with
  | None => end_
  | Some t => Poloniex.raw_date t
  end.

(** What a call leaves behind: the value returned (the name of the file
    or the table), the total it prints, the tables appended to the file,
    in order, and the bounds of the page requests made. *)
Record outcome : Type := mkOutcome {
  returned : string + list Poloniex.RawTrade;
  printed_total : Z;
  appended : list (list Poloniex.RawTrade);
  requested : list (Z * Z)
}.

Section GetTrades.

Variable poloniex_api : string → Z → Z → list Poloniex.RawTrade.

(** [start.strftime(date_fmt)]. *)
Variable strftime : Z → string.

(** The [while] loop, lines 33 to 59, on its three variables [trades],
    [total_trades] and the file; [None] is a loop that has not ended
    within [fuel] pages. *)
Fixpoint fetch_loop (fuel : nat) (currency_pair : string) (start end_ : Z)
    (save_file : bool) (trades : list Poloniex.RawTrade) (total_trades : Z)
    (file : list (list Poloniex.RawTrade))
  : option (list Poloniex.RawTrade * Z * list (list Poloniex.RawTrade)
            * list (Z * Z)) :=
  if need_to_fetch trades then
    match fuel with
    | O => None
    | S fuel' =>
        let request :=
          (Poloniex.unix_time start,
           Poloniex.unix_time (request_end end_ trades)) in
        let new_trades := poloniex_api currency_pair request.1 request.2 in
        match new_trades with
        | [] => Some (trades, total_trades, file, [request])
        | _ =>
            let new_trades := format_dtypes new_trades in
            let file := if save_file then file ++ [new_trades] else file in
            let trades :=
              if save_file then new_trades else trades ++ new_trades in
            let total_trades := total_trades + Z.of_nat (length new_trades) in
            match fetch_loop fuel' currency_pair start end_ save_file
                             trades total_trades file with
            | Some (t, n, f, requests) => Some (t, n, f, request :: requests)
            | None => None
            end
        end
    end
  else Some (trades, total_trades, file, []).

(** [get_trades]. *)
Definition get_trades (fuel : nat) (currency_pair : string) (start end_ : Z)
    (save_file : bool) (file_path : string) : option outcome :=
  let file_name :=
    file_path +:+ "Trades|" +:+ currency_pair +:+ "|" +:+ strftime start
      +:+ "|" +:+ strftime end_ +:+ ".csv" in
  match fetch_loop fuel currency_pair start end_ save_file [] 0 [] with
  | None => None
  | Some (trades, total_trades, file, requests) =>
      Some (mkOutcome (if save_file then inl file_name else inr trades)
                      total_trades file requests)
  end.

End GetTrades.

End MarketData.

(** ** Sample data

    Inputs on which the model is run in the examples below. *)

Module Samples.

(** An instance of [describe] to run the paging loop with: the count,
    the mean, the minimum and the maximum are those of the values; the
    standard deviation and the quartiles, which no example reads, are
    left at zero. *)
Definition qc_min (a b : Qc) : Qc := if Qle_bool a b then a else b.
Definition qc_max (a b : Qc) : Qc := if Qle_bool a b then b else a.

Definition describe (l : list Qc) : Stats :=
  match l with
  | [] => mkStats (of_int 0) (of_int 0) (of_int 0) (of_int 0)
                  (of_int 0) (of_int 0) (of_int 0) (of_int 0)
  | x :: rest =>
      mkStats (of_int (Z.of_nat (length l)))
              (foldr Qcplus (of_int 0) l / of_int (Z.of_nat (length l)))%Qc
              (of_int 0) (foldr qc_min x rest)
              (of_int 0) (of_int 0) (of_int 0) (foldr qc_max x rest)
  end.

(** A statistic tuple with a given count and mean, and a row with those
    statistics in every column. *)
Definition stats_of (n m : Z) : Stats :=
  mkStats (of_int n) (of_int m) (of_int 0) (of_int m)
          (of_int m) (of_int m) (of_int m) (of_int m).

Definition row_of (n m : Z) : Row :=
  mkRow (stats_of n m) (stats_of n m) (stats_of n m) (stats_of n m)
        (stats_of n m).

(** The rows of hour 10 of two consecutive pages: 60 trades of mean 100
    already accumulated, 40 trades of mean 200 in the new page. *)
Definition frame_a : Poloniex.DataFrame := [(10, row_of 60 100); (11, row_of 7 150)].
Definition frame_b : Poloniex.DataFrame := [(9, row_of 5 250); (10, row_of 40 200)].

(** One trade at second 36000 (hour 10). *)
Definition one_trade : Poloniex.RawTrade :=
  Poloniex.mkRawTrade 36000 (of_int 1) "buy" (of_int 100) (of_int 2) (of_int 200).

(** A feed that answers every request with that one trade, and a feed
    that has no trade at all. *)
Definition feed_one (currency_pair : string) (start end_ : Z)
  : list Poloniex.RawTrade := [one_trade].

Definition feed_none (currency_pair : string) (start end_ : Z)
  : list Poloniex.RawTrade := [].

(** The hourly frame of the page of [feed_one]. *)
Definition frame_one : Poloniex.DataFrame :=
  Poloniex.hourly describe (Poloniex.format_dtypes [one_trade]).

(** Two bars of one market, at hours 10 and 11, and a handler that has
    revealed both and has one more bar to give. *)
Definition bar1 : Bar := mkBar 10 (row_of 60 100) "BTC_ETH".
Definition bar2 : Bar := mkBar 11 (row_of 40 200) "BTC_ETH".
Definition bar3 : Bar := mkBar 12 (row_of 10 300) "BTC_ETH".

Definition handler : Data.PoloniexDataHandler :=
  Data.mkHandler ["BTC_ETH"] {["BTC_ETH" := [bar1; bar2; bar3]]}
    {["BTC_ETH" := [bar3]]} {["BTC_ETH" := [bar1; bar2]]} true.

(** A portfolio on the market of [handler], as [__init__] builds it with
    an initial capital of 100000, and the same portfolio long 100. *)
Definition portfolio : Portfolio.NaivePortfolio :=
  Portfolio.mkPortfolio ["BTC_ETH"] 0 (of_int 100000)
    (Portfolio.construct_all_positions ["BTC_ETH"] 0)
    (const_dict 0 ["BTC_ETH"])
    (Portfolio.construct_all_holdings ["BTC_ETH"] 0 (of_int 100000))
    (Portfolio.construct_current_holdings ["BTC_ETH"] (of_int 100000)).

Definition portfolio_long : Portfolio.NaivePortfolio :=
  Portfolio.mkPortfolio ["BTC_ETH"] 0 (of_int 100000)
    (Portfolio.construct_all_positions ["BTC_ETH"] 0)
    {["BTC_ETH" := 100]}
    (Portfolio.construct_all_holdings ["BTC_ETH"] 0 (of_int 100000))
    (Portfolio.construct_current_holdings ["BTC_ETH"] (of_int 100000)).

(** Fills on that market: a buy of 100 at 10 with a commission of 1, and
    a fill whose direction is neither ['BUY'] nor ['SELL']. *)
Definition fill_buy : Fill :=
  mkFill "BTC_ETH" "BUY" 100 (of_int 10) (of_int 1).

Definition fill_hold : Fill :=
  mkFill "BTC_ETH" "HOLD" 100 (of_int 10) (of_int 1).

(** A signal to go short with strength 0.5. *)
Definition signal_short : Signal :=
  mkSignal "BTC_ETH" "SHORT" (Q2Qc (1 # 2)) bar2.

End Samples.

(** More inputs, for the further properties. *)

Module Samples2.

(** The row [format_dtypes] makes of [Samples.one_trade]. *)
Definition one_formatted : Poloniex.Trade :=
  Poloniex.mkTrade 36000 (of_int 1) (Poloniex.contains_buy "buy")
                   (of_int 100) (of_int 2) (of_int 200).

(** The bars [get_trades] returns on [Samples.feed_one]. *)
Definition bars_one : list Bar :=
  map (fun hr => mkBar hr.1 hr.2 "BTC_ETH")
      (Poloniex.sort_index Samples.frame_one).

(** A fetch that has three bars for one market and fails for any other. *)
Definition fetch (m : string) : result (list Bar) :=
  if String.eqb m "BTC_ETH"
  then Ok [Samples.bar1; Samples.bar2; Samples.bar3]
  else Raise AttributeError.

(** The handler [__init__] builds over [fetch], and the same handler
    after one call of [update_market_data] on [Samples.handler]. *)
Definition handler0 : Data.PoloniexDataHandler :=
  match Data.init fetch ["BTC_ETH"] with
  | Ok dh => dh
  | Raise _ => Samples.handler
  end.

Definition handler1 : Data.PoloniexDataHandler :=
  match Data.update_market_data Samples.handler [] with
  | Ok (dh, _) => dh
  | Raise _ => Samples.handler
  end.

(** A handler whose market has no iterator. *)
Definition handler_missing : Data.PoloniexDataHandler :=
  Data.mkHandler ["BTC_ETH"] ∅ ∅ ∅ true.

(** The fill of the order [Samples.signal_short] gives when long 100. *)
Definition fill_sell : Fill :=
  mkFill "BTC_ETH" "SELL" 200 (of_int 10) (of_int 1).

(** A LONG signal of strength 0.005. *)
Definition signal_weak : Signal :=
  mkSignal "BTC_ETH" "LONG" (Q2Qc (1 # 200)) Samples.bar2.

(** A backtest of two steps with a buy in between, and the ledger it
    leaves. *)
Definition actions : list Portfolio.action :=
  [Portfolio.Step Samples.handler; Portfolio.Filled Samples.fill_buy;
   Portfolio.Step Samples.handler].

Definition portfolio_run : Portfolio.NaivePortfolio :=
  match Portfolio.run Samples.portfolio actions with
  | Ok p => p
  | Raise _ => Samples.portfolio
  end.

(** The totals of the second and the third row of its holdings history. *)
Definition second_total : Qc :=
  default (of_int 0)
    (map Portfolio.total (Portfolio.all_holdings portfolio_run) !! 1%nat).

Definition third_total : Qc :=
  default (of_int 0)
    (map Portfolio.total (Portfolio.all_holdings portfolio_run) !! 2%nat).

(** A date format that gives the number of the day. *)
Definition strftime (t : Z) : string :=
  if t / 86400 =? 0 then "day 0" else "a later day".


Definition early_trade : Poloniex.RawTrade :=
  Poloniex.mkRawTrade 5 (of_int 1) "sell" (of_int 100) (of_int 2) (of_int 200).



(** A full page of 50000 trades at second 5, and a feed that has this
    page for every window reaching second 10 and nothing below: the
    loop of [market_data.get_trades] asks it twice. *)
Definition full_page : list Poloniex.RawTrade :=
  repeat early_trade (Z.to_nat 50000).

Definition feed_full (currency_pair : string) (start end_ : Z)
  : list Poloniex.RawTrade :=
  if 10 <=? end_ then full_page else [].

(** What [market_data.get_trades] leaves on [feed_full], without and with
    [save_file]. *)
Definition outcome_plain : MarketData.outcome :=
  default (MarketData.mkOutcome (inr []) 0 [] [])
    (MarketData.get_trades feed_full strftime 11 "BTC_ETH" 0 10 false "data/").

Definition outcome_saved : MarketData.outcome :=
  default (MarketData.mkOutcome (inr []) 0 [] [])
    (MarketData.get_trades feed_full strftime 11 "BTC_ETH" 0 10 true "data/").

End Samples2.

(** * Properties *)

Lemma const_dict_lookup {V} (v : V) (keys : list string) (k : string) :
  const_dict v keys !! k = if decide (k ∈ keys) then Some v else None.
Proof.
  unfold const_dict. induction keys as [|k0 keys IH]; cbn.
  - by rewrite lookup_empty.
  - rewrite lookup_insert, IH. destruct (decide (k0 = k)) as [->|Hne].
    + rewrite decide_True; [done|left].
    + destruct (decide (k ∈ keys)) as [Hin|Hnin].
      * rewrite decide_True; [done|by right].
      * rewrite decide_False; [done|].
        intros [->|Hin]%elem_of_cons; done.
Qed.

(** ** The trade aggregator *)

Module PoloniexFacts.
Import Poloniex.

Lemma foldr_min_elem (h : Z) (l : list Z) : foldr Z.min h l ∈ h :: l.
Proof.
  induction l as [|x l IH]; cbn.
  - left.
  - destruct (Z.min_spec x (foldr Z.min h l)) as [[_ ->]|[_ ->]].
    + right; left.
    + apply elem_of_cons in IH as [IH|IH].
      * rewrite IH. left.
      * right; right. exact IH.
Qed.

Lemma foldr_max_elem (h : Z) (l : list Z) : foldr Z.max h l ∈ h :: l.
Proof.
  induction l as [|x l IH]; cbn.
  - left.
  - destruct (Z.max_spec x (foldr Z.max h l)) as [[_ ->]|[_ ->]].
    + apply elem_of_cons in IH as [IH|IH].
      * rewrite IH. left.
      * right; right. exact IH.
    + right; left.
Qed.

Lemma ix_elem (df : DataFrame) (k : Z) : k ∈ df.*1 → is_Some (ix df k).
Proof.
  induction df as [|[h r] df IH]; cbn; intros Hin.
  - by apply elem_of_nil in Hin.
  - destruct (Z.eqb_spec h k) as [->|Hne]; [eauto|].
    apply IH. apply elem_of_cons in Hin as [Hin|Hin]; [congruence|assumption].
Qed.

(** The smallest label of a frame is one of its labels. *)
Lemma ix_index_min (df : DataFrame) (k : Z) :
  index_min df = Some k → is_Some (ix df k).
Proof.
  destruct df as [|[h r] df]; cbn; [discriminate|].
  intros [= <-]. apply (ix_elem ((h, r) :: df)). cbn. apply foldr_min_elem.
Qed.

Lemma ix_index_max (df : DataFrame) (k : Z) :
  index_max df = Some k → is_Some (ix df k).
Proof.
  destruct df as [|[h r] df]; cbn; [discriminate|].
  intros [= <-]. apply (ix_elem ((h, r) :: df)). cbn. apply foldr_max_elem.
Qed.

Lemma ix_ix_set (df : DataFrame) (k : Z) (row : Row) :
  is_Some (ix df k) → ix (ix_set df k row) k = Some row.
Proof.
  induction df as [|[h r] df IH]; cbn; intros [r' Hr]; [discriminate|].
  destruct (Z.eqb_spec h k) as [->|Hne]; cbn.
  - by rewrite Z.eqb_refl.
  - destruct (Z.eqb_spec h k); [congruence|]. apply IH. eauto.
Qed.

Lemma ix_drop_label (df : DataFrame) (k : Z) : ix (drop_label df k) k = None.
Proof.
  induction df as [|[h r] df IH]; cbn; [done|].
  destruct (Z.eqb_spec h k) as [->|Hne]; cbn; [done|].
  destruct (Z.eqb_spec h k); [congruence|done].
Qed.

(** The statistics of a merged row, cell by cell. *)
Lemma merge_rows_stat (row1 row2 : Row) (c : Column) (s : Stat) :
  s ≠ Count →
  stat (col (merge_rows row1 row2) c) s =
    ((stat (col row1 c) s * s_count (tradeID row1)
      + stat (col row2 c) s * s_count (tradeID row2))
     / (s_count (tradeID row1) + s_count (tradeID row2)))%Qc.
Proof. intros Hs. destruct c, s; try congruence; reflexivity. Qed.

Lemma merge_rows_count (row1 row2 : Row) (c : Column) :
  stat (col (merge_rows row1 row2) c) Count =
    (s_count (tradeID row1) + s_count (tradeID row2))%Qc.
Proof. destruct c; reflexivity. Qed.

(** C1.  When the smallest hour of the accumulated frame is the largest
    hour of the new page's frame, the two rows of that hour are replaced
    by one row in the accumulated frame, and the page's row is dropped
    before the concatenation.  In the new row every statistic other than
    the count, of every column ([min], [max] and the quartiles as well),
    is the combination of the two rows weighted by their trade counts,
    [(a * count_a + b * count_b) / (count_a + count_b)], and every count
    is [count_a + count_b].  With counts 60 and 40 and means 100 and 200
    the merged mean is 140 and the merged count 100. *)
Theorem merge_is_count_weighted (trades_df hourly_stats : DataFrame) (k : Z) :
  index_min trades_df = Some k →
  index_max hourly_stats = Some k →
  ∃ row1 row2 merged,
    ix trades_df k = Some row1 ∧ ix hourly_stats k = Some row2 ∧
    let count_a := s_count (tradeID row1) in
    let count_b := s_count (tradeID row2) in
    account_for_overlap trades_df hourly_stats
      = (ix_set trades_df k merged, drop_label hourly_stats k) ∧
    ix (account_for_overlap trades_df hourly_stats).1 k = Some merged ∧
    ix (account_for_overlap trades_df hourly_stats).2 k = None ∧
    (∀ c s, s ≠ Count →
       stat (col merged c) s =
         ((stat (col row1 c) s * count_a + stat (col row2 c) s * count_b)
          / (count_a + count_b))%Qc) ∧
    (∀ c, stat (col merged c) Count = (count_a + count_b)%Qc) ∧
    (count_a = of_int 60 → count_b = of_int 40 →
     ∀ c, stat (col row1 c) Mean = of_int 100 →
          stat (col row2 c) Mean = of_int 200 →
          stat (col merged c) Mean = of_int 140 ∧
          stat (col merged c) Count = of_int 100).
Proof.
  intros Hmin Hmax.
  destruct (ix_index_min _ _ Hmin) as [row1 H1].
  destruct (ix_index_max _ _ Hmax) as [row2 H2].
  exists row1, row2, (merge_rows row1 row2).
  assert (Hacc : account_for_overlap trades_df hourly_stats
      = (ix_set trades_df k (merge_rows row1 row2), drop_label hourly_stats k)).
  { unfold account_for_overlap. by rewrite Hmin, Hmax, Z.eqb_refl, H1, H2. }
  cbn zeta. rewrite Hacc. cbn [fst snd].
  split; [done|]. split; [done|]. split; [done|].
  split; [apply ix_ix_set; eauto|].
  split; [apply ix_drop_label|].
  split; [intros c s Hs; by apply merge_rows_stat|].
  split; [apply merge_rows_count|].
  intros Ha Hb c Hm1 Hm2. split.
  - rewrite merge_rows_stat by done. cbn [stat]. cbn [stat] in Hm1, Hm2.
    rewrite Ha, Hb, Hm1, Hm2. qc_compute.
  - rewrite merge_rows_count, Ha, Hb. qc_compute.
Qed.

Section Paging.

Variable poloniex_api : string → Z → Z → list RawTrade.
Variable describe : list Qc → Stats.
Variable currency_pair : string.
Variable start : Z.

Local Abbreviation loop := (fetch_loop poloniex_api describe).
Local Abbreviation page r := (format_dtypes (poloniex_api currency_pair r.1 r.2)).

(** One turn of the loop, as an equation. *)
Lemma fetch_loop_turn (fuel : nat) (end_ : Z) (trades_df : DataFrame) :
  need_to_fetch trades_df = true →
  loop (S fuel) currency_pair start end_ trades_df =
    match format_dtypes (poloniex_api currency_pair start end_) with
    | [] => Some (trades_df, [(start, end_)])
    | t :: ts =>
        let merged := account_for_overlap trades_df (hourly describe (t :: ts)) in
        match loop fuel currency_pair start (date_min t ts) (merged.1 ++ merged.2) with
        | Some (df, requests) => Some (df, (start, end_) :: requests)
        | None => None
        end
    end.
Proof. intros Hneed. cbn. rewrite Hneed. reflexivity. Qed.

Lemma fetch_loop_exit (fuel : nat) (end_ : Z) (trades_df : DataFrame) :
  need_to_fetch trades_df = false →
  loop fuel currency_pair start end_ trades_df = Some (trades_df, []).
Proof. intros Hneed. destruct fuel; cbn; rewrite Hneed; reflexivity. Qed.




(** C9, as the code has it.  When the feed has no trade for the window
    [start, end], the loop ends at its first request through the break on
    an empty page, with no row accumulated; and [get_trades] does not
    fail with [EmptyRangeError], whatever the feed. *)
Theorem empty_window_breaks_loop (fuel : nat) (end_ : Z) :
  poloniex_api currency_pair (unix_time start) (unix_time end_) = [] →
  loop (S fuel) currency_pair start end_ [] = Some ([], [(start, end_)]) ∧
  ∀ fuel', get_trades poloniex_api describe fuel' currency_pair start end_
           ≠ Some (Raise EmptyRangeError).
Proof.
  intros Hempty. split.
  - rewrite fetch_loop_turn by done. unfold unix_time in Hempty.
    by rewrite Hempty.
  - intros fuel'. unfold get_trades.
    destruct (loop fuel' currency_pair start end_ []) as [[df reqs]|]; [|done].
    destruct (sort_index df); cbn; congruence.
Qed.

End Paging.


(** The claim C9 fails on a feed without trades: [get_trades] raises
    [AttributeError], from the read of [trades_df.tradeID] on the empty
    frame, and so neither returns bars nor raises [EmptyRangeError]. *)
Lemma empty_window_raises_AttributeError :
  get_trades Samples.feed_none Samples.describe 5 "BTC_ETH" 0 40000
    = Some (Raise AttributeError) ∧
  get_trades Samples.feed_none Samples.describe 5 "BTC_ETH" 0 40000
    ≠ Some (Raise EmptyRangeError).
Proof. split; [reflexivity|discriminate]. Qed.

Lemma merge_is_count_weighted_witness :
  index_min Samples.frame_a = Some 10 ∧
  index_max Samples.frame_b = Some 10 ∧
  ∃ merged,
    ix (account_for_overlap Samples.frame_a Samples.frame_b).1 10 = Some merged ∧
    ix (account_for_overlap Samples.frame_a Samples.frame_b).2 10 = None ∧
    stat (col merged Rate) Mean = of_int 140 ∧
    stat (col merged Rate) Count = of_int 100.
Proof.
  split; [reflexivity|]. split; [reflexivity|].
  destruct (merge_is_count_weighted Samples.frame_a Samples.frame_b 10
              eq_refl eq_refl)
    as (row1 & row2 & merged & H1 & H2 & _ & Hix & Hdrop & _ & _ & Hscenario).
  change (Some (Samples.row_of 60 100) = Some row1) in H1.
  change (Some (Samples.row_of 40 200) = Some row2) in H2.
  injection H1 as <-. injection H2 as <-.
  exists merged. split; [exact Hix|]. split; [exact Hdrop|].
  exact (Hscenario eq_refl eq_refl Rate eq_refl eq_refl).
Defined.


Lemma empty_window_breaks_loop_witness :
  Samples.feed_none "BTC_ETH" (unix_time 0) (unix_time 40000) = [] ∧
  fetch_loop Samples.feed_none Samples.describe 1 "BTC_ETH" 0 40000 []
    = Some ([], [(0, 40000)]).
Proof.
  split; [reflexivity|].
  destruct (empty_window_breaks_loop Samples.feed_none Samples.describe
              "BTC_ETH" 0 0 40000 eq_refl) as [Hloop _].
  exact Hloop.
Defined.

End PoloniexFacts.

(** ** The replay cursor *)

Module DataFacts.
Import Data.

Lemma slice_from_neg {A} (l : list A) (N : Z) :
  1 ≤ N →
  slice_from l (- N) = drop (Z.to_nat (Z.max 0 (Z.of_nat (length l) - N))) l.
Proof.
  intros HN. unfold slice_from.
  destruct (Z.ltb_spec (- N) 0) as [_|Hge]; [|lia].
  f_equal.
Qed.

Lemma head_drop {A} (l : list A) (n : nat) : head (drop n l) = l !! n.
Proof.
  revert n. induction l as [|x l IH]; intros [|n]; cbn; done.
Qed.

(** X25.  For a market of the handler and [N ≥ 1] the query returns,
    without printing, a single bar: the first of the last [N] revealed
    bars, that is the [N]-th most recent one, or the oldest revealed bar
    when fewer than [N] are revealed; it is the most recent bar for
    [N = 1], and [None] when no bar is revealed.  For a market the
    handler does not have it prints one line and returns [None]. *)
Theorem get_latest_is_first_of_last_N (dh : PoloniexDataHandler)
    (market : string) (N : Z) :
  1 ≤ N →
  (∀ snapshot_list, latest_market_data dh !! market = Some snapshot_list →
     get_latest_market_data dh market N
       = ([], snapshot_list
                !! Z.to_nat (Z.max 0 (Z.of_nat (length snapshot_list) - N))) ∧
     (N = 1 → get_latest_market_data dh market N = ([], last snapshot_list))) ∧
  (latest_market_data dh !! market = None →
     get_latest_market_data dh market N
       = (["That symbol is not available in the historical data set."], None)).
Proof.
  intros HN. split.
  - intros l Hl.
    assert (Hget : get_latest_market_data dh market N
      = ([], l !! Z.to_nat (Z.max 0 (Z.of_nat (length l) - N)))).
    { unfold get_latest_market_data. rewrite Hl, slice_from_neg by done.
      rewrite <- head_drop.
      by destruct (drop _ l). }
    split; [exact Hget|].
    intros ->. rewrite Hget. f_equal.
    rewrite last_lookup. f_equal. destruct l; cbn; lia.
  - intros Hnone. unfold get_latest_market_data. by rewrite Hnone.
Qed.

(** C6, at the input where the code departs from it.  On a market with
    the two revealed bars [bar1] and [bar2], in this order, the query
    with [N = 2] returns [bar1]: the first bar of the slice
    [snapshot_list[-2:]], which is neither the most recently revealed
    bar [bar2] of the claim nor the last two bars of the docstring. *)
Lemma get_latest_two_is_not_latest :
  latest_market_data Samples.handler !! "BTC_ETH"
    = Some [Samples.bar1; Samples.bar2] ∧
  (get_latest_market_data Samples.handler "BTC_ETH" 2).2 = Some Samples.bar1 ∧
  (get_latest_market_data Samples.handler "BTC_ETH" 2).2
    ≠ last [Samples.bar1; Samples.bar2].
Proof.
  split; [reflexivity|]. split; [reflexivity|].
  cbn. discriminate.
Qed.

(** *** [__init__] *)

Lemma get_all_market_data_loop (get_trades : string → result (list Bar))
    (ms : list string) (dh dh' : PoloniexDataHandler) :
  for_each (fun dh m =>
      let* df := get_trades m in
      let dh := set_market_data dh (<[m := df]> (market_data dh)) in
      Ok (set_market_snapshots dh (<[m := df]> (market_snapshots dh))))
    dh ms = Ok dh' →
  markets dh' = markets dh ∧
  latest_market_data dh' = latest_market_data dh ∧
  continue_backtest dh' = continue_backtest dh ∧
  ∀ m, m ∈ ms ∨ is_Some (market_snapshots dh !! m) →
       is_Some (market_snapshots dh' !! m).
Proof.
  revert dh. induction ms as [|m0 ms IH]; intros dh Hrun.
  - injection Hrun as <-. split; [done|]. split; [done|]. split; [done|].
    intros m [Hin|Hsome]; [by apply elem_of_nil in Hin|done].
  - cbn [for_each] in Hrun. destruct (get_trades m0) as [df|e]; [|discriminate].
    cbn [bind] in Hrun. apply IH in Hrun as (Hm & Hl & Hc & Hs).
    split; [done|]. split; [done|]. split; [done|].
    intros m Hcase. apply Hs. cbn. rewrite lookup_insert.
    case_decide as Heq; [by right|].
    destruct Hcase as [[->|Hin]%elem_of_cons|Hsome]; [done|by left|by right].
Qed.

(** The handler [__init__] returns is populated, and its flag is set. *)
Lemma init_populated (get_trades : string → result (list Bar))
    (ms : list string) (dh : PoloniexDataHandler) :
  init get_trades ms = Ok dh →
  populated dh ∧ markets dh = ms ∧ continue_backtest dh = true ∧
  ∀ m, m ∈ ms → revealed dh m = [].
Proof.
  unfold init, get_all_market_data. intros Hrun.
  apply get_all_market_data_loop in Hrun as (Hm & Hl & Hc & Hs). cbn in *.
  split; [|split; [done|split; [done|]]].
  - intros m Hin. rewrite Hm in Hin. split; [apply Hs; by left|].
    rewrite Hl, const_dict_lookup, decide_True by done. by eexists.
  - intros m Hin. unfold revealed.
    by rewrite Hl, const_dict_lookup, decide_True.
Qed.

(** *** [update_market_data] *)

Lemma update_market_pull (dh : PoloniexDataHandler) (m : string)
    (b : Bar) (rest l : list Bar) :
  market_snapshots dh !! m = Some (b :: rest) →
  latest_market_data dh !! m = Some l →
  update_market dh m =
    Ok (mkHandler (markets dh) (market_data dh)
          (<[m := rest]> (market_snapshots dh))
          (<[m := l ++ [b]]> (latest_market_data dh))
          (continue_backtest dh)).
Proof.
  intros Hs Hl. unfold update_market, _get_new_snapshot, getitem.
  rewrite Hs. cbn. by rewrite Hl.
Qed.

Lemma update_market_exhausted (dh : PoloniexDataHandler) (m : string) :
  market_snapshots dh !! m = Some [] →
  update_market dh m = Ok (set_continue_backtest dh false).
Proof.
  intros Hs. unfold update_market, _get_new_snapshot, getitem. by rewrite Hs.
Qed.

Local Abbreviation occurrences ms m := (length (List.filter (String.eqb m) ms)).

Lemma occurrences_cons (m0 m : string) (ms : list string) :
  occurrences (m0 :: ms) m
    = ((if decide (m0 = m) then 1 else 0) + occurrences ms m)%nat.
Proof.
  cbn. destruct (String.eqb_spec m m0) as [->|Hne].
  - by rewrite decide_True.
  - by rewrite decide_False.
Qed.

(** The loop of [update_market_data] over any list of markets that have
    their iterator and their revealed list. *)
Lemma for_each_update_market (ms : list string) (dh : PoloniexDataHandler) :
  (∀ m, m ∈ ms →
     is_Some (market_snapshots dh !! m) ∧ is_Some (latest_market_data dh !! m)) →
  ∃ dh',
    for_each update_market dh ms = Ok dh' ∧
    markets dh' = markets dh ∧
    market_data dh' = market_data dh ∧
    (∀ m, market_snapshots dh' !! m
            = drop (occurrences ms m) <$> market_snapshots dh !! m) ∧
    (∀ m, latest_market_data dh' !! m
            = (fun l => l ++ take (occurrences ms m) (remaining dh m))
                <$> latest_market_data dh !! m) ∧
    (continue_backtest dh' = true ↔
       continue_backtest dh = true ∧
       ∀ m, (occurrences ms m ≤ length (remaining dh m))%nat).
Proof.
  revert dh. induction ms as [|m0 ms IH]; intros dh Hwf.
  - exists dh. cbn. split; [done|]. split; [done|]. split; [done|].
    split; [|split].
    + intros m. by destruct (market_snapshots dh !! m).
    + intros m. destruct (latest_market_data dh !! m); cbn; [|done].
      by rewrite app_nil_r.
    + split; [intros Hcb; split; [done|intros; lia]|by intros [? _]].
  - destruct (Hwf m0) as [[its Hits] [l Hl]]; [left|].
    destruct its as [|b rest].
    + (* the iterator of [m0] is exhausted *)
      cbn [for_each]. rewrite (update_market_exhausted _ _ Hits). cbn [bind].
      destruct (IH (set_continue_backtest dh false))
        as (dh' & Hrun & Hm & Hd & Hsnap & Hlat & Hflag).
      { intros m Hm. apply Hwf. by right. }
      exists dh'. split; [exact Hrun|]. split; [exact Hm|]. split; [exact Hd|].
      split; [|split].
      * intros m. rewrite Hsnap, occurrences_cons. cbn.
        case_decide as Heq; [subst m|done].
        rewrite Hits. cbn. by rewrite !drop_nil.
      * intros m. rewrite Hlat, occurrences_cons. cbn.
        case_decide as Heq; [subst m|done].
        unfold remaining. cbn. rewrite Hits. cbn. by rewrite !take_nil.
      * split.
        -- intros Htrue. apply Hflag in Htrue as [Hfalse _]. discriminate.
        -- intros [_ Hall]. specialize (Hall m0).
           rewrite occurrences_cons, decide_True in Hall by done.
           unfold remaining in Hall. rewrite Hits in Hall. cbn in Hall. lia.
    + (* a bar is pulled for [m0] *)
      cbn [for_each]. rewrite (update_market_pull _ _ _ _ _ Hits Hl). cbn [bind].
      set (dh1 := mkHandler _ _ _ _ _).
      destruct (IH dh1) as (dh' & Hrun & Hm & Hd & Hsnap & Hlat & Hflag).
      { intros m Hm. unfold dh1; cbn. rewrite !lookup_insert.
        case_decide; [eauto|]. apply Hwf. by right. }
      assert (Hrem : ∀ m, remaining dh1 m
                = if decide (m0 = m) then rest else remaining dh m).
      { intros m. unfold remaining, dh1; cbn. rewrite lookup_insert.
        by case_decide. }
      exists dh'. split; [exact Hrun|]. split; [exact Hm|]. split; [exact Hd|].
      split; [|split].
      * intros m. rewrite Hsnap, occurrences_cons. unfold dh1; cbn.
        rewrite lookup_insert. case_decide as Heq; [subst m|done].
        by rewrite Hits.
      * intros m. rewrite Hlat, occurrences_cons, Hrem. unfold dh1; cbn.
        rewrite lookup_insert. case_decide as Heq; [subst m|done].
        rewrite Hl. unfold remaining. rewrite Hits. cbn.
        by rewrite <- app_assoc.
      * rewrite Hflag. unfold dh1 at 1; cbn [continue_backtest].
        split; intros [Hcb Hall]; (split; [exact Hcb|]); intros m;
          specialize (Hall m).
        -- rewrite occurrences_cons. rewrite Hrem in Hall.
           case_decide as Heq; [subst m|lia].
           unfold remaining. rewrite Hits. cbn. lia.
        -- rewrite occurrences_cons in Hall. rewrite Hrem.
           case_decide as Heq; [subst m|lia].
           unfold remaining in Hall. rewrite Hits in Hall. cbn in Hall. lia.
Qed.

Lemma populated_after (dh dh' : PoloniexDataHandler) :
  populated dh →
  markets dh' = markets dh →
  (∀ m, is_Some (market_snapshots dh !! m) → is_Some (market_snapshots dh' !! m)) →
  (∀ m, is_Some (latest_market_data dh !! m) →
        is_Some (latest_market_data dh' !! m)) →
  populated dh'.
Proof.
  intros Hwf Hm Hs Hl m Hin. rewrite Hm in Hin.
  destruct (Hwf m Hin). split; auto.
Qed.

(** One call, on a populated handler. *)
Lemma update_market_data_ok (dh : PoloniexDataHandler) (events : Queue) :
  populated dh →
  ∃ dh',
    update_market_data dh events = Ok (dh', events ++ [Some MarketEvent]) ∧
    populated dh' ∧
    markets dh' = markets dh ∧
    (∀ m, market_snapshots dh' !! m
            = drop (pulls dh m) <$> market_snapshots dh !! m) ∧
    (∀ m, latest_market_data dh' !! m
            = (fun l => l ++ take (pulls dh m) (remaining dh m))
                <$> latest_market_data dh !! m) ∧
    (continue_backtest dh' = true ↔
       continue_backtest dh = true ∧
       ∀ m, (pulls dh m ≤ length (remaining dh m))%nat).
Proof.
  intros Hwf.
  destruct (for_each_update_market (markets dh) dh Hwf)
    as (dh' & Hrun & Hm & Hd & Hsnap & Hlat & Hflag).
  exists dh'. unfold update_market_data. rewrite Hrun. cbn.
  split; [done|]. split; [|done].
  apply (populated_after dh); [done|done| |].
  - intros m [x Hx]. rewrite Hsnap, Hx. by eexists.
  - intros m [x Hx]. rewrite Hlat, Hx. by eexists.
Qed.

(** Any number of calls, on a populated handler. *)
Lemma update_market_data_n_ok (n : nat) (dh : PoloniexDataHandler)
    (events : Queue) :
  populated dh →
  ∃ dh',
    update_market_data_n n dh events
      = Ok (dh', events ++ replicate n (Some MarketEvent)) ∧
    populated dh' ∧
    (continue_backtest dh = false → continue_backtest dh' = false).
Proof.
  revert dh events. induction n as [|n IH]; intros dh events Hwf.
  - exists dh. cbn. by rewrite app_nil_r.
  - destruct (update_market_data_ok dh events Hwf)
      as (dh1 & Hrun & Hwf1 & _ & _ & _ & Hflag).
    destruct (IH dh1 (events ++ [Some MarketEvent]) Hwf1) as (dh' & Hn & Hwf' & Hkeep).
    exists dh'. cbn [update_market_data_n]. rewrite Hrun. cbn.
    rewrite Hn. split; [by rewrite <- app_assoc|]. split; [done|].
    intros Hfalse. apply Hkeep. apply not_true_is_false. intros Htrue.
    apply Hflag in Htrue as [Htrue _]. congruence.
Qed.

Lemma occurrences_pos (ms : list string) (m : string) :
  m ∈ ms → (1 ≤ occurrences ms m)%nat.
Proof.
  induction ms as [|m0 ms IH]; intros Hin.
  - by apply elem_of_nil in Hin.
  - rewrite occurrences_cons. case_decide as Heq; [lia|].
    apply elem_of_cons in Hin as [->|Hin]; [done|]. apply IH in Hin. lia.
Qed.

Lemma occurrences_absent (ms : list string) (m : string) :
  m ∉ ms → occurrences ms m = 0%nat.
Proof.
  induction ms as [|m0 ms IH]; intros Hnin; [done|].
  rewrite occurrences_cons. apply not_elem_of_cons in Hnin as [Hne Hnin].
  rewrite decide_False by done. by rewrite IH.
Qed.

Lemma occurrences_NoDup (ms : list string) (m : string) :
  NoDup ms → m ∈ ms → occurrences ms m = 1%nat.
Proof.
  induction 1 as [|m0 ms Hnin Hnd IH]; intros Hin.
  - by apply elem_of_nil in Hin.
  - rewrite occurrences_cons. case_decide as Heq.
    + subst m0. by rewrite occurrences_absent.
    + apply elem_of_cons in Hin as [->|Hin]; [done|]. by apply IH.
Qed.

(** C7.  A call of [update_market_data] on a handler set up by
    [__init__] returns, having put exactly one [MarketEvent] on the
    queue, whether bars were pulled or not.  Every market is attempted,
    once for each of its occurrences in [markets] (once when the markets
    are distinct): the bars pulled leave its iterator and are appended to
    its revealed list, whatever happens to the other markets, a market
    with a bar left always getting it.  [continue_backtest] is true after
    the call exactly when it was true before and no attempt met an
    exhausted iterator; so an exhausted market makes it false, and once
    false it is false after any number of further calls, each of which
    puts its one [MarketEvent]. *)
Theorem update_market_data_emits_one_event (dh : PoloniexDataHandler)
    (events : Queue) :
  populated dh →
  ∃ dh',
    update_market_data dh events = Ok (dh', put events (Some MarketEvent)) ∧
    (∀ m, m ∈ markets dh →
       (1 ≤ pulls dh m)%nat ∧
       remaining dh' m = drop (pulls dh m) (remaining dh m) ∧
       revealed dh' m = revealed dh m ++ take (pulls dh m) (remaining dh m) ∧
       (∀ b rest, remaining dh m = b :: rest →
          ∃ more, revealed dh' m = revealed dh m ++ b :: more)) ∧
    (NoDup (markets dh) → ∀ m, m ∈ markets dh →
       pulls dh m = 1%nat ∧
       ∀ b rest, remaining dh m = b :: rest →
         remaining dh' m = rest ∧ revealed dh' m = revealed dh m ++ [b]) ∧
    (continue_backtest dh' = true ↔
       continue_backtest dh = true ∧
       ∀ m, (pulls dh m ≤ length (remaining dh m))%nat) ∧
    ((∃ m, m ∈ markets dh ∧ remaining dh m = []) →
       continue_backtest dh' = false) ∧
    (∀ n, ∃ dh'',
       update_market_data_n n dh' (put events (Some MarketEvent))
         = Ok (dh'', put events (Some MarketEvent)
                       ++ replicate n (Some MarketEvent)) ∧
       (continue_backtest dh' = false → continue_backtest dh'' = false)).
Proof.
  intros Hwf.
  destruct (update_market_data_ok dh events Hwf)
    as (dh' & Hrun & Hwf' & Hm & Hsnap & Hlat & Hflag).
  assert (Hrem : ∀ m, m ∈ markets dh →
            remaining dh' m = drop (pulls dh m) (remaining dh m)).
  { intros m Hin. destruct (Hwf m Hin) as [[its Hits] _].
    unfold remaining. by rewrite Hsnap, Hits. }
  assert (Hrev : ∀ m, m ∈ markets dh →
            revealed dh' m = revealed dh m ++ take (pulls dh m) (remaining dh m)).
  { intros m Hin. destruct (Hwf m Hin) as [_ [l Hl]].
    unfold revealed. by rewrite Hlat, Hl. }
  exists dh'. split; [exact Hrun|]. split; [|split; [|split; [|split]]].
  - intros m Hin. pose proof (occurrences_pos _ _ Hin) as Hpos.
    split; [exact Hpos|]. split; [by apply Hrem|]. split; [by apply Hrev|].
    intros b rest Hb. rewrite (Hrev m Hin), Hb. unfold pulls in *.
    destruct (occurrences (markets dh) m) as [|k]; [lia|]. cbn. eauto.
  - intros Hnd m Hin. pose proof (occurrences_NoDup _ _ Hnd Hin) as Hone.
    split; [exact Hone|]. intros b rest Hb.
    rewrite (Hrem m Hin), (Hrev m Hin), Hb. unfold pulls in *.
    by rewrite Hone.
  - exact Hflag.
  - intros (m & Hin & Hnil). apply not_true_is_false. intros Htrue.
    apply Hflag in Htrue as [_ Hall]. specialize (Hall m).
    pose proof (occurrences_pos _ _ Hin) as Hpos.
    rewrite Hnil in Hall. unfold pulls in Hall. cbn in Hall. lia.
  - intros n.
    destruct (update_market_data_n_ok n dh' (put events (Some MarketEvent)) Hwf')
      as (dh'' & Hn & _ & Hkeep).
    exists dh''. split; [exact Hn|exact Hkeep].
Qed.

Lemma sample_handler_populated : populated Samples.handler.
Proof.
  intros m Hin. apply list_elem_of_singleton in Hin. subst m.
  split; eexists; reflexivity.
Defined.

Lemma update_market_data_emits_one_event_witness :
  populated Samples.handler ∧
  ∃ dh', update_market_data Samples.handler []
           = Ok (dh', put [] (Some MarketEvent)).
Proof.
  split; [exact sample_handler_populated|].
  destruct (update_market_data_emits_one_event Samples.handler []
              sample_handler_populated) as (dh' & Hrun & _).
  exists dh'. exact Hrun.
Defined.

Lemma get_latest_is_first_of_last_N_witness :
  1 ≤ 2 ∧
  get_latest_market_data Samples.handler "BTC_ETH" 2
    = ([], [Samples.bar1; Samples.bar2]
             !! Z.to_nat (Z.max 0 (Z.of_nat (length [Samples.bar1; Samples.bar2]) - 2))).
Proof.
  split; [lia|].
  destruct (get_latest_is_first_of_last_N Samples.handler "BTC_ETH" 2)
    as [Hknown _]; [lia|].
  destruct (Hknown [Samples.bar1; Samples.bar2] eq_refl) as [Hget _].
  exact Hget.
Defined.

End DataFacts.

(** ** The portfolio ledger *)

Module PortfolioFacts.
Import Portfolio.

(** *** Order sizing *)

Section Sizing.

Variable self : NaivePortfolio.
Variable signal : Signal.
Variable cur_quantity : Z.
Hypothesis Hcur :
  current_positions self !! signal_market signal = Some cur_quantity.

Local Abbreviation price := (s_mean (rate (stats (market_snapshot signal)))).
Local Abbreviation order direction quantity :=
  (Ok (Some (OrderEvent (mkOrder (signal_market signal) direction quantity price)))).

Lemma generate_naive_order_eq :
  generate_naive_order self signal =
    if String.eqb (signal_type signal) "LONG" && (cur_quantity =? 0) then
      order "BUY" (floor (of_int 100 * strength signal))
    else if String.eqb (signal_type signal) "SHORT" && (cur_quantity =? 0) then
      order "SELL" (floor (of_int 100 * strength signal))
    else if String.eqb (signal_type signal) "SHORT" && (0 <? cur_quantity) then
      order "SELL" (2 * Z.abs cur_quantity)
    else if String.eqb (signal_type signal) "LONG" && (cur_quantity <? 0) then
      order "BUY" (2 * Z.abs cur_quantity)
    else Ok None.
Proof. unfold generate_naive_order, getitem. rewrite Hcur. reflexivity. Qed.

Lemma order_flat (direction : string) :
  cur_quantity = 0 →
  signal_type signal = "LONG" ∧ direction = "BUY" ∨
  signal_type signal = "SHORT" ∧ direction = "SELL" →
  generate_naive_order self signal
    = order direction (floor (of_int 100 * strength signal)).
Proof.
  intros Hq [[Ht ->]|[Ht ->]]; rewrite generate_naive_order_eq, Ht, Hq;
    reflexivity.
Qed.

Lemma order_flip (direction : string) :
  0 < cur_quantity ∧ signal_type signal = "SHORT" ∧ direction = "SELL" ∨
  cur_quantity < 0 ∧ signal_type signal = "LONG" ∧ direction = "BUY" →
  generate_naive_order self signal = order direction (2 * Z.abs cur_quantity).
Proof.
  intros [(Hq & Ht & ->)|(Hq & Ht & ->)];
    rewrite generate_naive_order_eq, Ht; cbn.
  - destruct (Z.eqb_spec cur_quantity 0); [lia|].
    destruct (Z.ltb_spec 0 cur_quantity); [done|lia].
  - destruct (Z.eqb_spec cur_quantity 0); [lia|].
    destruct (Z.ltb_spec cur_quantity 0); [done|lia].
Qed.

Lemma no_order :
  0 < cur_quantity ∧ signal_type signal = "LONG" ∨
  cur_quantity < 0 ∧ signal_type signal = "SHORT" ∨
  (signal_type signal ≠ "LONG" ∧ signal_type signal ≠ "SHORT") →
  generate_naive_order self signal = Ok None.
Proof.
  intros [(Hq & Ht)|[(Hq & Ht)|(Hl & Hs)]]; rewrite generate_naive_order_eq.
  - rewrite Ht. cbn.
    destruct (Z.eqb_spec cur_quantity 0); [lia|].
    destruct (Z.ltb_spec cur_quantity 0); [lia|done].
  - rewrite Ht. cbn.
    destruct (Z.eqb_spec cur_quantity 0); [lia|].
    destruct (Z.ltb_spec 0 cur_quantity); [lia|done].
  - destruct (String.eqb_spec (signal_type signal) "LONG"); [done|].
    destruct (String.eqb_spec (signal_type signal) "SHORT"); [done|].
    reflexivity.
Qed.

End Sizing.

(** C2.  For a signal on a market whose position [cur] the ledger holds,
    [generate_naive_order] follows the table of the sign of [cur]: when
    flat, LONG gives a BUY and SHORT a SELL of [floor (100 * strength)];
    when long, SHORT gives a SELL of [2 * |cur|]; when short, LONG gives
    a BUY of [2 * |cur|]; LONG when long, SHORT when short, EXIT and any
    other signal type give no order.  The price of an order is the mean
    rate of the signal's bar.  With a position of 100 a SHORT signal of
    strength 0.5 gives a SELL of 200. *)
Theorem order_sizing_table (self : NaivePortfolio) (signal : Signal) (cur : Z) :
  current_positions self !! signal_market signal = Some cur →
  let unit := floor (of_int 100 * strength signal) in
  let order direction quantity :=
    Ok (Some (OrderEvent (mkOrder (signal_market signal) direction quantity
                            (s_mean (rate (stats (market_snapshot signal))))))) in
  (cur = 0 → signal_type signal = "LONG" →
     generate_naive_order self signal = order "BUY" unit) ∧
  (cur = 0 → signal_type signal = "SHORT" →
     generate_naive_order self signal = order "SELL" unit) ∧
  (0 < cur → signal_type signal = "SHORT" →
     generate_naive_order self signal = order "SELL" (2 * Z.abs cur)) ∧
  (cur < 0 → signal_type signal = "LONG" →
     generate_naive_order self signal = order "BUY" (2 * Z.abs cur)) ∧
  (0 < cur → signal_type signal = "LONG" →
     generate_naive_order self signal = Ok None) ∧
  (cur < 0 → signal_type signal = "SHORT" →
     generate_naive_order self signal = Ok None) ∧
  (signal_type signal = "EXIT" →
     generate_naive_order self signal = Ok None) ∧
  (signal_type signal ≠ "LONG" → signal_type signal ≠ "SHORT" →
     generate_naive_order self signal = Ok None) ∧
  (cur = 100 → signal_type signal = "SHORT" →
   strength signal = Q2Qc (1 # 2) →
     generate_naive_order self signal = order "SELL" 200).
Proof.
  intros Hcur unit order.
  split; [intros; apply (order_flat _ _ _ Hcur); naive_solver|].
  split; [intros; apply (order_flat _ _ _ Hcur); naive_solver|].
  split; [intros; apply (order_flip _ _ _ Hcur); naive_solver|].
  split; [intros; apply (order_flip _ _ _ Hcur); naive_solver|].
  split; [intros; apply (no_order _ _ _ Hcur); naive_solver|].
  split; [intros; apply (no_order _ _ _ Hcur); naive_solver|].
  split.
  { intros Ht. apply (no_order _ _ _ Hcur). right; right. by rewrite Ht. }
  split; [intros; apply (no_order _ _ _ Hcur); naive_solver|].
  intros -> Ht _. rewrite (order_flip _ _ _ Hcur "SELL"); [done|].
  left. split; [lia|done].
Qed.

Lemma order_sizing_table_witness :
  current_positions Samples.portfolio_long !! signal_market Samples.signal_short
    = Some 100 ∧
  generate_naive_order Samples.portfolio_long Samples.signal_short
    = Ok (Some (OrderEvent (mkOrder "BTC_ETH" "SELL" 200
                  (s_mean (rate (stats Samples.bar2)))))).
Proof.
  split; [reflexivity|].
  apply (order_sizing_table Samples.portfolio_long Samples.signal_short 100);
    reflexivity.
Defined.

(** C10.  For a signal on a market whose position the ledger holds,
    [update_signal] puts exactly one item on the queue, the value
    [generate_naive_order] returns; for a LONG signal when long, a SHORT
    signal when short, an EXIT signal or any other signal type that item
    is [None], not an order. *)
Theorem update_signal_puts_one_item (self : NaivePortfolio) (events : Queue)
    (signal : Signal) (cur : Z) :
  current_positions self !! signal_market signal = Some cur →
  type (SignalEvent signal) = "SIGNAL" ∧
  ∃ item,
    generate_naive_order self signal = Ok item ∧
    update_signal self events (SignalEvent signal) = Ok (events ++ [item]) ∧
    (0 < cur ∧ signal_type signal = "LONG" ∨
     cur < 0 ∧ signal_type signal = "SHORT" ∨
     signal_type signal = "EXIT" ∨
     (signal_type signal ≠ "LONG" ∧ signal_type signal ≠ "SHORT") →
     item = None ∧
     update_signal self events (SignalEvent signal) = Ok (events ++ [None])).
Proof.
  intros Hcur. split; [reflexivity|].
  assert (Hitem : ∃ item, generate_naive_order self signal = Ok item).
  { rewrite (generate_naive_order_eq _ _ _ Hcur).
    repeat (destruct (_ && _); [by eexists|]). by eexists. }
  destruct Hitem as [item Hitem]. exists item.
  assert (Hput : update_signal self events (SignalEvent signal)
                 = Ok (events ++ [item])).
  { unfold update_signal. cbn. by rewrite Hitem. }
  split; [exact Hitem|]. split; [exact Hput|].
  intros Hcase.
  assert (Hnone : generate_naive_order self signal = Ok None).
  { apply (no_order _ _ _ Hcur).
    destruct Hcase as [H1|[H2|[Ht|H3]]];
      [by left|by right; left| |by right; right].
    right; right. by rewrite Ht. }
  rewrite Hnone in Hitem. injection Hitem as <-. by rewrite Hput.
Qed.

Lemma update_signal_puts_one_item_witness :
  current_positions Samples.portfolio_long !! signal_market Samples.signal_short
    = Some 100 ∧
  ∃ item,
    update_signal Samples.portfolio_long [Some MarketEvent]
                  (SignalEvent Samples.signal_short)
      = Ok ([Some MarketEvent] ++ [item]).
Proof.
  split; [reflexivity|].
  destruct (update_signal_puts_one_item Samples.portfolio_long
              [Some MarketEvent] Samples.signal_short 100 eq_refl)
    as (_ & item & _ & Hput & _).
  exists item. exact Hput.
Defined.

(** *** The ledger *)

Lemma of_int_0 : of_int 0 = 0%Qc.
Proof. by apply Qc_is_canon. Qed.

Lemma of_int_1 : of_int 1 = 1%Qc.
Proof. by apply Qc_is_canon. Qed.

Lemma of_int_m1 : of_int (-1) = (- (1))%Qc.
Proof. by apply Qc_is_canon. Qed.

(** What [__init__] builds. *)
Lemma init_eq (market_data : Data.PoloniexDataHandler) (start : option Z)
    (capital : Qc) (p0 : NaivePortfolio) :
  init market_data start capital = Ok p0 →
  ∃ d, p0 = mkPortfolio (Data.markets market_data) d capital
              (construct_all_positions (Data.markets market_data) d)
              (const_dict 0 (Data.markets market_data))
              (construct_all_holdings (Data.markets market_data) d capital)
              (construct_current_holdings (Data.markets market_data) capital).
Proof.
  unfold init. intros Hinit.
  destruct (match start with Some d => Ok d | None => _ end) as [d|e];
    [|discriminate].
  cbn in Hinit. injection Hinit as <-. by exists d.
Qed.

Lemma init_covers_markets (market_data : Data.PoloniexDataHandler)
    (start : option Z) (capital : Qc) (p0 : NaivePortfolio) :
  init market_data start capital = Ok p0 → covers_markets p0.
Proof.
  intros [d ->]%init_eq m Hin. cbn in *.
  rewrite !const_dict_lookup, !decide_True by done. split; by eexists.
Qed.

(** A fill on a market the ledger has. *)
Lemma update_fill_eq (self : NaivePortfolio) (fill : Fill) (q : Z) (v : Qc) :
  current_positions self !! fill_market fill = Some q →
  market_values (current_holdings self) !! fill_market fill = Some v →
  update_fill self (FillEvent fill) =
    Ok (mkPortfolio (markets self) (start_date self) (initial_capital self)
          (all_positions self)
          (<[fill_market fill := q + fill_dir fill * fill_quantity fill]>
             (current_positions self))
          (all_holdings self)
          (mkHoldings
             (<[fill_market fill := (v + fill_cost fill)%Qc]>
                (market_values (current_holdings self)))
             (datetime (current_holdings self))
             (cash (current_holdings self)
              - (fill_cost fill + fill_commission fill))%Qc
             (commission (current_holdings self) + fill_commission fill)%Qc
             (total (current_holdings self)
              - (fill_cost fill + fill_commission fill))%Qc)).
Proof.
  intros Hq Hv. unfold update_fill. cbn.
  unfold update_positions_from_fill, getitem. rewrite Hq. cbn.
  unfold update_holdings_from_fill, getitem. cbn. by rewrite Hv.
Qed.

Lemma update_fill_covers (self self' : NaivePortfolio) (event : Event) :
  update_fill self event = Ok self' →
  covers_markets self →
  covers_markets self' ∧ markets self' = markets self ∧
  all_positions self' = all_positions self ∧
  all_holdings self' = all_holdings self.
Proof.
  unfold update_fill. intros Hrun Hwf.
  destruct event as [| | |fill]; cbn in Hrun;
    try (injection Hrun as <-; done).
  unfold update_positions_from_fill, getitem in Hrun.
  destruct (current_positions self !! fill_market fill) as [q|] eqn:Hq;
    [|discriminate].
  cbn in Hrun. unfold update_holdings_from_fill, getitem in Hrun.
  cbn in Hrun.
  destruct (market_values (current_holdings self) !! fill_market fill)
    as [v|] eqn:Hv; [|discriminate].
  cbn in Hrun. injection Hrun as <-. split; [|done].
  intros m Hin. destruct (Hwf m Hin) as [Hp Hh]. cbn in *.
  rewrite !lookup_insert. case_decide; split; eauto.
Qed.

Lemma fill_dir_cases (fill : Fill) :
  (fill_direction fill = "BUY" → fill_dir fill = 1) ∧
  (fill_direction fill = "SELL" → fill_dir fill = -1) ∧
  (fill_direction fill ≠ "BUY" → fill_direction fill ≠ "SELL" →
   fill_dir fill = 0).
Proof.
  unfold fill_dir. split; [|split].
  - by intros ->.
  - by intros ->.
  - intros Hb Hs.
    destruct (String.eqb_spec (fill_direction fill) "BUY"); [done|].
    by destruct (String.eqb_spec (fill_direction fill) "SELL").
Qed.

(** Fills applied in order to a ledger that has their markets: the cash
    falls by the cost and the commission of each fill in turn. *)
Lemma update_fills_cash (fills : list Fill) (self : NaivePortfolio) :
  covers_markets self →
  Forall (fun fill => fill_market fill ∈ markets self) fills →
  ∃ self',
    update_fills self fills = Ok self' ∧
    cash (current_holdings self')
      = foldl (fun cash fill => (cash - (fill_cost fill + fill_commission fill))%Qc)
              (cash (current_holdings self)) fills.
Proof.
  revert self. induction fills as [|fill fills IH]; intros self Hwf Hm.
  - exists self. by split.
  - apply Forall_cons in Hm as [Hin Hm].
    destruct (Hwf _ Hin) as [[q Hq] [v Hv]].
    pose proof (update_fill_eq self fill q v Hq Hv) as Hstep.
    destruct (update_fill_covers _ _ _ Hstep Hwf) as (Hwf' & Hmarkets & _).
    set (self1 := mkPortfolio _ _ _ _ _ _ _) in *.
    destruct (IH self1 Hwf') as (self' & Hrun & Hcash); [by rewrite Hmarkets|].
    exists self'. split.
    + unfold update_fills in *. cbn [Data.for_each]. rewrite Hstep. exact Hrun.
    + rewrite Hcash. reflexivity.
Qed.

(** Without commission, taking [cost + commission] off is taking the cost
    off. *)
Lemma foldl_cash_no_commission (fills : list Fill) (cash : Qc) :
  Forall (fun fill => fill_commission fill = of_int 0) fills →
  foldl (fun cash fill => (cash - (fill_cost fill + fill_commission fill))%Qc)
        cash fills
    = foldl (fun cash fill => (cash - fill_cost fill)%Qc) cash fills.
Proof.
  revert cash. induction fills as [|fill fills IH]; intros cash Hc; [done|].
  apply Forall_cons in Hc as [Hc0 Hc]. cbn [foldl]. rewrite IH by done.
  f_equal. rewrite Hc0, of_int_0. ring.
Qed.

(** C3, as the code has it.  A fill on a market the ledger has, with
    direction BUY ([dir = 1]) or SELL ([dir = -1]), adds [dir * quantity]
    to the position of its market, leaves the other positions, and takes
    [dir * price * quantity + commission] off the cash.  Hence, from a
    ledger just built, fills on its markets leave the initial capital
    with [dir_i * price_i * quantity_i + commission_i] taken off for
    each fill in turn, in the order of the fills, which without
    commission is [dir_i * price_i * quantity_i] taken off in turn; and
    with an initial capital of 100000 a BUY of 100 at 10 with a
    commission of 1 leaves a position of 100 and a cash of 98999. *)
Theorem fill_updates_positions_and_cash
    (market_data : Data.PoloniexDataHandler) (start : option Z)
    (capital : Qc) (p0 : NaivePortfolio) :
  init market_data start capital = Ok p0 →
  (∀ self fill q v dir,
     current_positions self !! fill_market fill = Some q →
     market_values (current_holdings self) !! fill_market fill = Some v →
     fill_direction fill = "BUY" ∧ dir = 1 ∨
     fill_direction fill = "SELL" ∧ dir = -1 →
     ∃ self',
       update_fill self (FillEvent fill) = Ok self' ∧
       current_positions self' !! fill_market fill
         = Some (q + dir * fill_quantity fill) ∧
       (∀ m, m ≠ fill_market fill →
          current_positions self' !! m = current_positions self !! m) ∧
       cash (current_holdings self')
         = (cash (current_holdings self)
            - (of_int dir * fill_price fill * of_int (fill_quantity fill)
               + fill_commission fill))%Qc) ∧
  (∀ fills,
     Forall (fun fill => fill_market fill ∈ markets p0) fills →
     ∃ p,
       update_fills p0 fills = Ok p ∧
       cash (current_holdings p)
         = foldl (fun cash fill =>
                    (cash - (of_int (fill_dir fill) * fill_price fill
                             * of_int (fill_quantity fill)
                             + fill_commission fill))%Qc)
                 capital fills ∧
       (Forall (fun fill => fill_commission fill = of_int 0) fills →
        cash (current_holdings p)
          = foldl (fun cash fill =>
                     (cash - of_int (fill_dir fill) * fill_price fill
                             * of_int (fill_quantity fill))%Qc)
                  capital fills)) ∧
  (capital = of_int 100000 →
   ∀ X, X ∈ markets p0 →
     ∃ p,
       update_fill p0 (FillEvent (mkFill X "BUY" 100 (of_int 10) (of_int 1)))
         = Ok p ∧
       current_positions p !! X = Some 100 ∧
       cash (current_holdings p) = of_int 98999).
Proof.
  intros Hinit. pose proof (init_covers_markets _ _ _ _ Hinit) as Hwf.
  destruct (init_eq _ _ _ _ Hinit) as [d Hp0].
  split; [|split].
  - intros self fill q v dir Hq Hv Hdir.
    assert (Hd : fill_dir fill = dir).
    { destruct (fill_dir_cases fill) as (Hb & Hs & _).
      destruct Hdir as [[Ht ->]|[Ht ->]]; auto. }
    eexists. split; [exact (update_fill_eq self fill q v Hq Hv)|]. cbn.
    split; [by rewrite lookup_insert_eq, Hd|].
    split; [intros m Hne; by rewrite lookup_insert_ne|].
    unfold fill_cost. by rewrite Hd.
  - intros fills Hm.
    destruct (update_fills_cash fills p0 Hwf Hm) as (p & Hrun & Hcash).
    exists p. split; [exact Hrun|].
    assert (Hcap : cash (current_holdings p0) = capital) by (by subst p0).
    rewrite Hcap in Hcash. split; [exact Hcash|].
    intros Hc. rewrite Hcash. by apply foldl_cash_no_commission.
  - intros Hcap X HX. destruct (Hwf X HX) as [[q Hq] [v Hv]].
    assert (Hq0 : q = 0).
    { subst p0. cbn in Hq, HX. rewrite const_dict_lookup, decide_True in Hq by done.
      congruence. }
    subst q. eexists.
    split; [exact (update_fill_eq p0 (mkFill _ _ _ _ _) 0 v Hq Hv)|]. cbn.
    split; [by rewrite lookup_insert_eq|].
    subst p0. cbn. rewrite Hcap. qc_compute.
Qed.

Lemma fill_updates_positions_and_cash_witness :
  init Samples.handler (Some 0) (of_int 100000) = Ok Samples.portfolio ∧
  ∃ p,
    update_fill Samples.portfolio (FillEvent Samples.fill_buy) = Ok p ∧
    current_positions p !! "BTC_ETH" = Some 100 ∧
    cash (current_holdings p) = of_int 98999.
Proof.
  split; [reflexivity|].
  destruct (fill_updates_positions_and_cash Samples.handler (Some 0)
              (of_int 100000) Samples.portfolio eq_refl) as (_ & _ & Hscenario).
  apply (Hscenario eq_refl "BTC_ETH"). left.
Defined.

(** The claim C3 fails on the floats of the program.  With a capital of
    100000 and two BUY fills of quantity 1 without commission, at the
    doubles nearest to 0.00001 and 0.00002, the cash is
    99999.99996999999 while the capital less the sum of the costs is
    99999.99997: taking the costs off one by one rounds twice, taking
    their sum off rounds once. *)
Lemma cash_conservation_fails_in_binary64 :
  let fills :=
    [Binary64.mkFill "BUY" 1 0x1.4f8b588e368f1p-17 0;
     Binary64.mkFill "BUY" 1 0x1.4f8b588e368f1p-16 0] in
  Binary64.cash_after 100000 fills = 0x1.869ffffe08aefp+16%float ∧
  (100000 - Binary64.sum_costs fills)%float = 0x1.869ffffe08af0p+16%float ∧
  Binary64.cash_after 100000 fills
    ≠ (100000 - Binary64.sum_costs fills)%float.
Proof.
  cbv zeta. split; [vm_compute; reflexivity|]. split; [vm_compute; reflexivity|].
  intros Heq.
  apply (f_equal (fun x => PrimFloat.eqb x 0x1.869ffffe08aefp+16)) in Heq.
  vm_compute in Heq. discriminate.
Qed.

(** C5, as the code has it.  A fill whose direction is neither BUY nor
    SELL, on a market the ledger has, leaves the positions, the holdings
    value of its market and the two histories as they are, but its
    commission is still charged: the commission paid grows by it, and
    the cash and the total fall by it.  The fill changes nothing exactly
    when it carries no commission. *)
Theorem unrecognized_direction_charges_commission (self : NaivePortfolio)
    (fill : Fill) (q : Z) (v : Qc) :
  current_positions self !! fill_market fill = Some q →
  market_values (current_holdings self) !! fill_market fill = Some v →
  fill_direction fill ≠ "BUY" →
  fill_direction fill ≠ "SELL" →
  ∃ self',
    update_fill self (FillEvent fill) = Ok self' ∧
    current_positions self' = current_positions self ∧
    market_values (current_holdings self')
      = market_values (current_holdings self) ∧
    all_positions self' = all_positions self ∧
    all_holdings self' = all_holdings self ∧
    cash (current_holdings self')
      = (cash (current_holdings self) - fill_commission fill)%Qc ∧
    commission (current_holdings self')
      = (commission (current_holdings self) + fill_commission fill)%Qc ∧
    total (current_holdings self')
      = (total (current_holdings self) - fill_commission fill)%Qc ∧
    (self' = self ↔ fill_commission fill = 0%Qc).
Proof.
  intros Hq Hv Hb Hs.
  destruct (fill_dir_cases fill) as (_ & _ & Hd). specialize (Hd Hb Hs).
  assert (Hcost : fill_cost fill = 0%Qc).
  { unfold fill_cost. rewrite Hd, of_int_0. ring. }
  eexists. split; [exact (update_fill_eq self fill q v Hq Hv)|].
  rewrite Hd, Hcost. cbn.
  replace (q + 0 * fill_quantity fill) with q by lia.
  replace (v + 0)%Qc with v by ring.
  rewrite !insert_id by done.
  split; [done|]. split; [done|]. split; [done|]. split; [done|].
  split; [ring|]. split; [done|]. split; [ring|].
  split.
  - intros Heq. apply (f_equal (fun p => commission (current_holdings p))) in Heq.
    cbn in Heq.
    assert (Hz : (fill_commission fill
                  = commission (current_holdings self) + fill_commission fill
                    - commission (current_holdings self))%Qc) by ring.
    rewrite Hz, Heq. ring.
  - intros ->. destruct self as [ms sd cap ap cp ah [mv dt c cm t]]. cbn.
    f_equal. f_equal; ring.
Qed.

Lemma unrecognized_direction_charges_commission_witness :
  (current_positions Samples.portfolio !! fill_market Samples.fill_hold = Some 0 ∧
   market_values (current_holdings Samples.portfolio)
     !! fill_market Samples.fill_hold = Some (of_int 0) ∧
   fill_direction Samples.fill_hold ≠ "BUY" ∧
   fill_direction Samples.fill_hold ≠ "SELL") ∧
  ∃ self',
    update_fill Samples.portfolio (FillEvent Samples.fill_hold) = Ok self' ∧
    cash (current_holdings self')
      = (cash (current_holdings Samples.portfolio)
         - fill_commission Samples.fill_hold)%Qc.
Proof.
  split; [repeat split; (reflexivity || discriminate)|].
  destruct (unrecognized_direction_charges_commission Samples.portfolio
              Samples.fill_hold 0 (of_int 0) eq_refl eq_refl)
    as (self' & Hrun & _ & _ & _ & _ & Hcash & _); [discriminate..|].
  exists self'. split; [exact Hrun|exact Hcash].
Defined.

(** The claim C5 fails on a fill of direction ['HOLD'] with a commission
    of 1: the cash and the total fall from 100000 to 99999 and the
    commission paid rises from 0 to 1. *)
Lemma unrecognized_direction_is_not_a_noop :
  fill_direction Samples.fill_hold ≠ "BUY" ∧
  fill_direction Samples.fill_hold ≠ "SELL" ∧
  ∃ self',
    update_fill Samples.portfolio (FillEvent Samples.fill_hold) = Ok self' ∧
    cash (current_holdings Samples.portfolio) = of_int 100000 ∧
    cash (current_holdings self') = of_int 99999 ∧
    commission (current_holdings Samples.portfolio) = of_int 0 ∧
    commission (current_holdings self') = of_int 1 ∧
    total (current_holdings self') = of_int 99999 ∧
    cash (current_holdings self') ≠ cash (current_holdings Samples.portfolio).
Proof.
  split; [discriminate|]. split; [discriminate|].
  eexists. split; [reflexivity|].
  split; [reflexivity|]. split; [qc_compute|]. split; [reflexivity|].
  split; [qc_compute|]. split; [qc_compute|].
  intros Heq. apply (f_equal this) in Heq. vm_compute in Heq. discriminate.
Qed.

(** *** The two histories *)

Lemma update_timeindex_rows (market_data : Data.PoloniexDataHandler)
    (self : NaivePortfolio) (ms : list string)
    (rows : PositionsRow * Holdings) :
  (∀ m, m ∈ ms → is_Some (current_positions self !! m)) →
  ∃ rows',
    Data.for_each (update_timeindex_market market_data self) rows ms = Ok rows'.
Proof.
  revert rows. induction ms as [|m ms IH]; intros rows Hwf; [by eexists|].
  cbn [Data.for_each]. destruct (Hwf m) as [q Hq]; [left|].
  assert (Hstep : ∃ rows1, update_timeindex_market market_data self rows m
                           = Ok rows1).
  { unfold update_timeindex_market, getitem. destruct rows as [positions holdings].
    destruct (Data.get_latest_market_data market_data m 1).2; [|by eexists].
    rewrite Hq. by eexists. }
  destruct Hstep as [rows1 ->]. cbn. apply IH. intros m' Hin. apply Hwf. by right.
Qed.

(** The per-step update returns on a ledger that has its markets, and
    all it changes is one row more in each history. *)
Lemma update_timeindex_ok (market_data : Data.PoloniexDataHandler)
    (self : NaivePortfolio) (event : Event) :
  covers_markets self →
  ∃ positions holdings,
    update_timeindex market_data self event =
      Ok (mkPortfolio (markets self) (start_date self) (initial_capital self)
            (all_positions self ++ [positions]) (current_positions self)
            (all_holdings self ++ [holdings]) (current_holdings self)).
Proof.
  intros Hwf. unfold update_timeindex.
  edestruct (update_timeindex_rows market_data self (markets self))
    as [rows' ->].
  { intros m Hin. by destruct (Hwf m Hin). }
  cbn. by eexists _, _.
Qed.

Lemma update_timeindex_histories (market_data : Data.PoloniexDataHandler)
    (self self' : NaivePortfolio) (event : Event) :
  update_timeindex market_data self event = Ok self' →
  length (all_positions self') = S (length (all_positions self)) ∧
  length (all_holdings self') = S (length (all_holdings self)) ∧
  markets self' = markets self ∧
  current_positions self' = current_positions self ∧
  current_holdings self' = current_holdings self.
Proof.
  unfold update_timeindex. intros Hrun.
  destruct (Data.for_each _ _ _) as [rows|e]; [|discriminate].
  cbn in Hrun. injection Hrun as <-. cbn.
  rewrite !length_app. cbn. repeat split; lia.
Qed.

Lemma update_fill_histories (self self' : NaivePortfolio) (event : Event) :
  update_fill self event = Ok self' →
  all_positions self' = all_positions self ∧
  all_holdings self' = all_holdings self.
Proof.
  unfold update_fill. intros Hrun.
  destruct event as [| | |fill]; cbn in Hrun;
    try (injection Hrun as <-; done).
  unfold update_positions_from_fill, getitem in Hrun.
  destruct (current_positions self !! fill_market fill); [|discriminate].
  cbn in Hrun. unfold update_holdings_from_fill, getitem in Hrun.
  cbn in Hrun.
  destruct (market_values (current_holdings self) !! fill_market fill);
    [|discriminate].
  cbn in Hrun. by injection Hrun as <-.
Qed.

Lemma act_histories (self self' : NaivePortfolio) (a : action) :
  act self a = Ok self' →
  length (all_positions self')
    = (length (all_positions self) + steps [a])%nat ∧
  length (all_holdings self')
    = (length (all_holdings self) + steps [a])%nat.
Proof.
  destruct a as [market_data|fill]; cbn [act]; intros Hrun.
  - apply update_timeindex_histories in Hrun as (-> & -> & _).
    unfold steps. cbn. lia.
  - apply update_fill_histories in Hrun as [-> ->].
    unfold steps. cbn. lia.
Qed.

Lemma steps_cons (a : action) (actions : list action) :
  steps (a :: actions) = (steps [a] + steps actions)%nat.
Proof. unfold steps. cbn. by destruct (is_step a). Qed.

Lemma steps_fmap_Step (handlers : list Data.PoloniexDataHandler) :
  steps (Step <$> handlers) = length handlers.
Proof.
  unfold steps. induction handlers as [|h hs IH]; cbn; [done|]. by rewrite IH.
Qed.

Lemma run_histories (actions : list action) (self self' : NaivePortfolio) :
  run self actions = Ok self' →
  length (all_positions self')
    = (length (all_positions self) + steps actions)%nat ∧
  length (all_holdings self')
    = (length (all_holdings self) + steps actions)%nat.
Proof.
  revert self. induction actions as [|a actions IH]; intros self Hrun.
  - injection Hrun as <-. unfold steps. cbn. lia.
  - unfold run in *. cbn [Data.for_each] in Hrun.
    destruct (act self a) as [self1|e] eqn:Hact; [|discriminate].
    cbn in Hrun. apply IH in Hrun as [-> ->].
    apply act_histories in Hact as [-> ->].
    rewrite (steps_cons a actions). lia.
Qed.

Lemma run_covers (actions : list action) (self self' : NaivePortfolio) :
  run self actions = Ok self' → covers_markets self → covers_markets self'.
Proof.
  revert self. induction actions as [|a actions IH]; intros self Hrun Hwf.
  - by injection Hrun as <-.
  - unfold run in *. cbn [Data.for_each] in Hrun.
    destruct (act self a) as [self1|e] eqn:Hact; [|discriminate].
    cbn in Hrun. apply (IH self1 Hrun).
    destruct a as [md|fill]; cbn [act] in Hact.
    + apply update_timeindex_histories in Hact as (_ & _ & Hm & Hcp & Hch).
      intros m Hin. rewrite Hm in Hin. rewrite Hcp, Hch. by apply Hwf.
    + by destruct (update_fill_covers _ _ _ Hact Hwf).
Qed.

(** The actions of a backtest whose fills are on markets of the ledger
    all return. *)
Lemma run_ok (actions : list action) (self : NaivePortfolio) :
  covers_markets self →
  (∀ fill, Filled fill ∈ actions → fill_market fill ∈ markets self) →
  ∃ self', run self actions = Ok self'.
Proof.
  revert self. induction actions as [|a actions IH]; intros self Hwf Hfills.
  - by exists self.
  - assert (Hact : ∃ self1, act self a = Ok self1 ∧ covers_markets self1 ∧
                            markets self1 = markets self).
    { destruct a as [market_data|fill]; cbn [act].
      - destruct (update_timeindex_ok market_data self MarketEvent Hwf)
          as (positions & holdings & ->).
        eexists. split; [done|]. split; [|done]. exact Hwf.
      - destruct (Hwf (fill_market fill)) as [[q Hq] [v Hv]].
        { apply Hfills. left. }
        pose proof (update_fill_eq self fill q v Hq Hv) as Hstep.
        destruct (update_fill_covers _ _ _ Hstep Hwf) as (Hwf' & Hm & _).
        eexists. split; [exact Hstep|]. split; [exact Hwf'|exact Hm]. }
    destruct Hact as (self1 & Hact & Hwf1 & Hm1).
    destruct (IH self1 Hwf1) as [self' Hrun].
    { intros fill Hin. rewrite Hm1. apply Hfills. by right. }
    exists self'. unfold run in *. cbn [Data.for_each]. by rewrite Hact.
Qed.

(** C4.  A ledger just built has one row in each history.  A per-step
    update always returns on it and on every ledger reached from it, and
    adds exactly one row to each history, whatever bars the data handler
    has revealed; fills add none.  So the two histories have the same
    length at all times, one more than the number of per-step updates
    made: [N + 1] after [N] updates. *)
Theorem histories_grow_one_row_per_step
    (market_data : Data.PoloniexDataHandler) (start : option Z)
    (capital : Qc) (p0 : NaivePortfolio) :
  init market_data start capital = Ok p0 →
  length (all_positions p0) = 1%nat ∧
  length (all_holdings p0) = 1%nat ∧
  (∀ actions p, run p0 actions = Ok p →
     (∀ handler event, ∃ p',
        update_timeindex handler p event = Ok p' ∧
        length (all_positions p') = S (length (all_positions p)) ∧
        length (all_holdings p') = S (length (all_holdings p))) ∧
     length (all_positions p) = length (all_holdings p) ∧
     length (all_positions p) = (steps actions + 1)%nat ∧
     length (all_holdings p) = (steps actions + 1)%nat) ∧
  (∀ handlers, ∃ p,
     run p0 (Step <$> handlers) = Ok p ∧
     length (all_positions p) = (length handlers + 1)%nat ∧
     length (all_holdings p) = (length handlers + 1)%nat).
Proof.
  intros Hinit. pose proof (init_covers_markets _ _ _ _ Hinit) as Hwf.
  assert (Hone : length (all_positions p0) = 1%nat ∧
                 length (all_holdings p0) = 1%nat).
  { by destruct (init_eq _ _ _ _ Hinit) as [d ->]. }
  destruct Hone as [Hp Hh].
  split; [exact Hp|]. split; [exact Hh|]. split.
  - intros actions p Hrun.
    destruct (run_histories _ _ _ Hrun) as [Hlp Hlh].
    split; [|lia].
    intros handler event.
    pose proof (run_covers _ _ _ Hrun Hwf) as Hwfp.
    destruct (update_timeindex_ok handler p event Hwfp)
      as (positions & holdings & Hstep).
    eexists. split; [exact Hstep|]. cbn. rewrite !length_app. cbn. lia.
  - intros handlers.
    destruct (run_ok (Step <$> handlers) p0 Hwf) as [p Hrun].
    { intros fill Hin. apply list_elem_of_fmap in Hin as (h & Heq & _).
      discriminate. }
    exists p. split; [exact Hrun|].
    destruct (run_histories _ _ _ Hrun) as [-> ->].
    rewrite steps_fmap_Step. lia.
Qed.

Lemma histories_grow_one_row_per_step_witness :
  init Samples.handler (Some 0) (of_int 100000) = Ok Samples.portfolio ∧
  ∃ p,
    run Samples.portfolio (Step <$> [Samples.handler; Samples.handler]) = Ok p ∧
    length (all_positions p) = (length [Samples.handler; Samples.handler] + 1)%nat ∧
    length (all_holdings p) = (length [Samples.handler; Samples.handler] + 1)%nat.
Proof.
  split; [reflexivity|].
  destruct (histories_grow_one_row_per_step Samples.handler (Some 0)
              (of_int 100000) Samples.portfolio eq_refl) as (_ & _ & _ & Hn).
  exact (Hn [Samples.handler; Samples.handler]).
Defined.

End PortfolioFacts.

(** * Further properties *)

(** ** Numbers *)

Module NumberFacts.

Lemma this_of_int (z : Z) : this (of_int z) = inject_Z z.
Proof.
  unfold of_int. cbn. apply Qred_identity. cbn. apply Z.gcd_1_r.
Qed.

Lemma of_int_add (a b : Z) : of_int (a + b) = (of_int a + of_int b)%Qc.
Proof.
  apply Qc_is_canon. cbn -[Qred Qplus inject_Z].
  rewrite !Qred_correct, inject_Z_plus. reflexivity.
Qed.

Lemma of_int_0_l : of_int 0 = 0%Qc.
Proof. by apply Qc_is_canon. Qed.

End NumberFacts.

(** ** The trade aggregator, continued *)

Module AggregatorFacts.
Import Poloniex NumberFacts.

Local Abbreviation sizes gs := (sum_list (map (fun g => length (snd g)) gs)).
Local Abbreviation trade_count df :=
  (count_sum (map (fun hr => tradeID (snd hr)) df)).

(** *** Grouping by the hour *)

Lemma sizes_add_to_group (t : Trade) (gs : list (Z * list Trade)) :
  sizes (add_to_group t gs) = S (sizes gs).
Proof.
  induction gs as [|[h ts] gs IH]; cbn; [done|].
  destruct (Z.ltb_spec (hour t) h); cbn; [done|].
  destruct (Z.eqb_spec (hour t) h); cbn.
  - rewrite length_app. cbn. lia.
  - rewrite IH. lia.
Qed.

Lemma groupby_hour_snoc (l : list Trade) (t : Trade) :
  groupby_hour (l ++ [t]) = add_to_group t (groupby_hour l).
Proof. unfold groupby_hour. by rewrite foldl_app. Qed.

Lemma sizes_groupby_hour (trades : list Trade) :
  sizes (groupby_hour trades) = length trades.
Proof.
  induction trades as [|t l IH] using rev_ind; [done|].
  rewrite groupby_hour_snoc, sizes_add_to_group, IH, length_app. cbn. lia.
Qed.

Lemma keys_add_to_group (t : Trade) (gs : list (Z * list Trade)) (k : Z) :
  k ∈ (add_to_group t gs).*1 → k = hour t ∨ k ∈ gs.*1.
Proof.
  induction gs as [|[h ts] gs IH]; cbn.
  - intros ->%list_elem_of_singleton. by left.
  - destruct (Z.ltb_spec (hour t) h); cbn.
    { intros [->|Hin]%elem_of_cons; [by left|by right]. }
    destruct (Z.eqb_spec (hour t) h); cbn.
    { intros Hin. by right. }
    intros [->|Hin]%elem_of_cons; [right; left|].
    destruct (IH Hin) as [->|Hin']; [by left|right; by right].
Qed.

Lemma sorted_add_to_group (t : Trade) (gs : list (Z * list Trade)) :
  StronglySorted Z.lt gs.*1 → StronglySorted Z.lt (add_to_group t gs).*1.
Proof.
  induction gs as [|[h ts] gs IH]; cbn; intros Hs.
  - repeat constructor.
  - apply StronglySorted_inv in Hs as [Hs Hall].
    destruct (Z.ltb_spec (hour t) h); cbn.
    { constructor; [by constructor|]. constructor; [done|].
      eapply Forall_impl; [exact Hall|]. cbn. intros; lia. }
    destruct (Z.eqb_spec (hour t) h); cbn.
    { by constructor. }
    constructor; [by apply IH|].
    apply Forall_forall. intros k Hk.
    destruct (keys_add_to_group _ _ _ Hk) as [->|Hin]; [lia|].
    rewrite Forall_forall in Hall. by apply Hall.
Qed.

(** Where a group of [add_to_group t gs] comes from. *)
Lemma elem_of_add_to_group (t : Trade) (gs : list (Z * list Trade))
    (h : Z) (ts : list Trade) :
  StronglySorted Z.lt gs.*1 →
  (h, ts) ∈ add_to_group t gs →
  (h ≠ hour t ∧ (h, ts) ∈ gs) ∨
  (h = hour t ∧ ∃ ts0, (h, ts0) ∈ gs ∧ ts = ts0 ++ [t]) ∨
  (h = hour t ∧ (h ∉ gs.*1) ∧ ts = [t]).
Proof.
  induction gs as [|[h0 ts0] gs IH]; cbn [add_to_group]; intros Hs Hin.
  - apply list_elem_of_singleton in Hin. injection Hin as Hh Hts. subst h ts.
    right; right. split; [done|]. split; [|done]. by intros ?%elem_of_nil.
  - rewrite fmap_cons in Hs. cbn [fst] in Hs.
    apply StronglySorted_inv in Hs as [Hs Hall]. rewrite Forall_forall in Hall.
    assert (Hkey : ∀ k x, (k, x) ∈ gs → h0 < k).
    { intros k x Hk. apply Hall. apply list_elem_of_fmap. by exists (k, x). }
    destruct (Z.ltb_spec (hour t) h0) as [Hlt|Hge].
    { apply elem_of_cons in Hin as [Heq|Hin].
      - injection Heq as Hh Hts. subst h ts.
        right; right. split; [done|]. split; [|done].
        rewrite fmap_cons. cbn [fst].
        intros [Hk|Hk]%elem_of_cons; [lia|]. apply Hall in Hk. lia.
      - left. split; [|done].
        apply elem_of_cons in Hin as [Heq|Hin].
        + injection Heq as Hh Hts. subst h ts. lia.
        + apply Hkey in Hin. lia. }
    destruct (Z.eqb_spec (hour t) h0) as [Heq|Hne].
    { apply elem_of_cons in Hin as [Hhd|Hin].
      - injection Hhd as Hh Hts. subst h ts. right; left. split; [done|].
        exists ts0. split; [left|done].
      - left. split; [|by right]. apply Hkey in Hin. lia. }
    apply elem_of_cons in Hin as [Hhd|Hin].
    + injection Hhd as Hh Hts. subst h ts. left. split; [done|left].
    + destruct (IH Hs Hin) as [[Hh Hg]|[(Hh & ts1 & Hg & Hts)|(Hh & Hnin & Hts)]].
      * left. split; [done|by right].
      * right; left. split; [done|]. exists ts1. split; [by right|done].
      * right; right. split; [done|]. split; [|done].
        rewrite fmap_cons. cbn [fst].
        intros [Hk|Hk]%elem_of_cons; [congruence|]. by apply Hnin.
Qed.

Lemma filter_hour_snoc (l : list Trade) (t : Trade) (h : Z) :
  filter (fun x => hour x = h) (l ++ [t])
    = filter (fun x => hour x = h) l ++ (if decide (hour t = h) then [t] else []).
Proof.
  rewrite filter_app. reflexivity.
Qed.

Lemma filter_hour_absent (l : list Trade) (h : Z) :
  (∀ x, x ∈ l → hour x ≠ h) → filter (fun x => hour x = h) l = [].
Proof.
  induction l as [|x l IH]; intros Hall; [done|].
  rewrite filter_cons, decide_False by (apply Hall; left).
  apply IH. intros y Hy. apply Hall. by right.
Qed.

Lemma groupby_hour_invariant (trades : list Trade) :
  StronglySorted Z.lt (groupby_hour trades).*1 ∧
  (∀ h ts, (h, ts) ∈ groupby_hour trades →
     ts = filter (fun t => hour t = h) trades ∧ ts ≠ []) ∧
  (∀ t, t ∈ trades → hour t ∈ (groupby_hour trades).*1).
Proof.
  induction trades as [|t l (Hs & Hgroups & Hkeys)] using rev_ind.
  { split; [constructor|]. split.
    - intros h ts Hin. by apply elem_of_nil in Hin.
    - intros t Hin. by apply elem_of_nil in Hin. }
  rewrite groupby_hour_snoc.
  split; [by apply sorted_add_to_group|]. split.
  - intros h ts Hin. rewrite filter_hour_snoc.
    destruct (elem_of_add_to_group _ _ _ _ Hs Hin)
      as [[Hh Hg]|[(Hh & ts1 & Hg & ->)|(Hh & Hnin & ->)]].
    + destruct (Hgroups _ _ Hg) as [Hts Hne].
      rewrite decide_False by done. by rewrite app_nil_r.
    + destruct (Hgroups _ _ Hg) as [Hts Hne].
      rewrite decide_True by done. split; [by rewrite <- Hts|].
      by destruct ts1.
    + rewrite decide_True by done. split; [|done].
      rewrite filter_hour_absent; [done|].
      intros x Hx Heq. apply Hnin. rewrite <- Heq. by apply Hkeys.
  - intros x [Hx| ->%list_elem_of_singleton]%elem_of_app.
    + apply Hkeys in Hx. clear -Hx.
      induction (groupby_hour l) as [|[h0 ts0] gs IH]; cbn in *.
      { by apply elem_of_nil in Hx. }
      destruct (Z.ltb_spec (hour t) h0); cbn; [by right|].
      destruct (Z.eqb_spec (hour t) h0); cbn; [done|].
      apply elem_of_cons in Hx as [->|Hx]; [left|right; by apply IH].
    + clear. induction (groupby_hour l) as [|[h0 ts0] gs IH]; cbn.
      { left. }
      destruct (Z.ltb_spec (hour t) h0); cbn; [left|].
      destruct (Z.eqb_spec (hour t) h0) as [->|]; cbn; [left|by right].
Qed.

(** X1.  [groupby('hour')]: the hours of the groups are strictly
    increasing, so no hour has two groups; the group of an hour holds
    exactly the rows of that hour, in the order of the table, and is
    never empty; every row of the table is in the group of its hour, and
    the sizes of the groups add up to the number of rows. *)
Theorem groupby_hour_partitions (trades : list Trade) :
  StronglySorted Z.lt (groupby_hour trades).*1 ∧
  (∀ h ts, (h, ts) ∈ groupby_hour trades →
     ts = filter (fun t => hour t = h) trades ∧ ts ≠ []) ∧
  (∀ t, t ∈ trades → hour t ∈ (groupby_hour trades).*1) ∧
  sizes (groupby_hour trades) = length trades.
Proof.
  destruct (groupby_hour_invariant trades) as (Hs & Hg & Hk).
  split; [exact Hs|]. split; [exact Hg|]. split; [exact Hk|].
  apply sizes_groupby_hour.
Qed.

(** *** The rows of one page *)

Lemma count_sum_cons (x : Stats) (column : list Stats) :
  count_sum (x :: column) = (s_count x + count_sum column)%Qc.
Proof. reflexivity. Qed.

Lemma count_sum_app (c1 c2 : list Stats) :
  count_sum (c1 ++ c2) = (count_sum c1 + count_sum c2)%Qc.
Proof.
  induction c1 as [|x c1 IH].
  - cbn [app]. unfold count_sum at 2. cbn. rewrite of_int_0_l. ring.
  - cbn [app]. rewrite !count_sum_cons, IH. ring.
Qed.

Lemma mod_is_zero_of_int (n : Z) :
  mod_is_zero (of_int n) 50000 = (n mod 50000 =? 0).
Proof. unfold mod_is_zero. by rewrite this_of_int. Qed.

Section Counting.

Variable describe : list Qc → Stats.

(** What [describe] gives as ['count']: the number of values. *)
Hypothesis describe_counts :
  ∀ l, s_count (describe l) = of_int (Z.of_nat (length l)).

Lemma trade_count_groups (gs : list (Z * list Trade)) :
  trade_count (map (fun g => (g.1, describe_group describe g.2)) gs)
    = of_int (Z.of_nat (sizes gs)).
Proof.
  induction gs as [|[h ts] gs IH]; [done|].
  cbn [map]. rewrite count_sum_cons, IH. cbn.
  rewrite describe_counts, length_fmap, <- of_int_add. f_equal. lia.
Qed.

Lemma hourly_trade_count (trades : list Trade) :
  trade_count (hourly describe trades) = of_int (Z.of_nat (length trades)).
Proof. unfold hourly. by rewrite trade_count_groups, sizes_groupby_hour. Qed.

Lemma hourly_nonempty (trades : list Trade) :
  trades ≠ [] → hourly describe trades ≠ [].
Proof.
  unfold hourly. intros Hne Hnil. apply map_eq_nil in Hnil.
  pose proof (sizes_groupby_hour trades) as Hsize. rewrite Hnil in Hsize.
  by destruct trades.
Qed.

Lemma hourly_labels (trades : list Trade) :
  (hourly describe trades).*1 = (groupby_hour trades).*1.
Proof.
  unfold hourly. induction (groupby_hour trades) as [|g gs IH]; [done|].
  cbn. by rewrite <- IH.
Qed.

(** X2.  The hourly frame of a page counts every trade of the page
    once: the counts of its rows add up to the number of trades.  Its
    hours are strictly increasing, and it has a row as soon as the page
    has a trade. *)
Theorem hourly_counts_every_trade (trades : list Trade) :
  trade_count (hourly describe trades) = of_int (Z.of_nat (length trades)) ∧
  StronglySorted Z.lt (hourly describe trades).*1 ∧
  (trades ≠ [] → hourly describe trades ≠ []).
Proof.
  split; [apply hourly_trade_count|]. split; [|apply hourly_nonempty].
  rewrite hourly_labels. by destruct (groupby_hour_invariant trades).
Qed.

(** *** Sorting by the hour *)

Lemma insert_sorted_perm (hr : Z * Row) (df : DataFrame) :
  insert_sorted hr df ≡ₚ hr :: df.
Proof.
  induction df as [|hr' df IH]; cbn; [done|].
  destruct (hr.1 <=? hr'.1); [done|].
  rewrite IH. apply Permutation_swap.
Qed.

Lemma sort_index_perm (df : DataFrame) : sort_index df ≡ₚ df.
Proof.
  induction df as [|hr df IH]; cbn; [done|].
  by rewrite insert_sorted_perm, IH.
Qed.

Lemma insert_sorted_sorted (hr : Z * Row) (df : DataFrame) :
  Sorted Z.le df.*1 → Sorted Z.le (insert_sorted hr df).*1.
Proof.
  induction df as [|hr' df IH]; cbn; intros Hs.
  - repeat constructor.
  - destruct (Z.leb_spec hr.1 hr'.1) as [Hle|Hgt]; cbn.
    + constructor; [done|]. by constructor.
    + apply Sorted_inv in Hs as [Hs Hhd]. constructor; [by apply IH|].
      destruct df as [|hr'' df]; cbn.
      * constructor. lia.
      * destruct (Z.leb_spec hr.1 hr''.1); cbn; constructor; [lia|].
        by apply HdRel_inv in Hhd.
Qed.

Lemma sort_index_sorted (df : DataFrame) :
  StronglySorted Z.le (sort_index df).*1.
Proof.
  apply Sorted_StronglySorted; [intros x y z; lia|].
  induction df as [|hr df IH]; cbn; [constructor|].
  by apply insert_sorted_sorted.
Qed.

(** *** What [get_trades] returns *)

Lemma account_for_overlap_nonempty (trades_df hourly_stats : DataFrame) :
  hourly_stats ≠ [] →
  (account_for_overlap trades_df hourly_stats).1
    ++ (account_for_overlap trades_df hourly_stats).2 ≠ [].
Proof.
  intros Hne. unfold account_for_overlap.
  destruct trades_df as [|hr df].
  { cbn. done. }
  remember (hr :: df) as tdf.
  destruct (index_min tdf), (index_max hourly_stats); cbn;
    try (subst tdf; done).
  destruct (_ =? _); [|subst tdf; done].
  destruct (ix tdf z), (ix hourly_stats z); cbn; subst tdf; done.
Qed.

Section Outcome.

Variable poloniex_api : string → Z → Z → list RawTrade.
Variable currency_pair : string.
Variable start : Z.

Local Abbreviation loop := (fetch_loop poloniex_api describe).

Lemma fetch_loop_keeps_rows (fuel : nat) (end_ : Z) (trades_df df : DataFrame)
    (requests : list (Z * Z)) :
  loop fuel currency_pair start end_ trades_df = Some (df, requests) →
  trades_df ≠ [] → df ≠ [].
Proof.
  revert end_ trades_df df requests.
  induction fuel as [|fuel IH]; intros end_ trades_df df requests Hrun Hne.
  - cbn in Hrun. destruct (need_to_fetch trades_df); [discriminate|].
    by injection Hrun as <- <-.
  - destruct (need_to_fetch trades_df) eqn:Hneed.
    2:{ rewrite PoloniexFacts.fetch_loop_exit in Hrun by done.
        by injection Hrun as <- <-. }
    rewrite PoloniexFacts.fetch_loop_turn in Hrun by done.
    destruct (format_dtypes _) as [|t ts] eqn:Hpage.
    { by injection Hrun as <- <-. }
    cbn zeta in Hrun.
    destruct (loop fuel _ _ _ _) as [[df' reqs']|] eqn:Hrest; [|discriminate].
    injection Hrun as <- <-. apply (IH _ _ _ _ Hrest).
    apply account_for_overlap_nonempty. by apply hourly_nonempty.
Qed.

(** The frame at the exit of the loop is empty exactly when the first
    page is. *)
Lemma fetch_loop_empty_iff (fuel : nat) (end_ : Z) (df : DataFrame)
    (requests : list (Z * Z)) :
  loop fuel currency_pair start end_ [] = Some (df, requests) →
  (df = [] ↔
   poloniex_api currency_pair (unix_time start) (unix_time end_) = []).
Proof.
  destruct fuel as [|fuel]; [discriminate|].
  rewrite PoloniexFacts.fetch_loop_turn by done. intros Hrun.
  unfold unix_time.
  destruct (format_dtypes _) as [|t ts] eqn:Hpage.
  { apply map_eq_nil in Hpage. by injection Hrun as <- <-. }
  cbn zeta in Hrun.
  destruct (loop fuel _ _ _ _) as [[df' reqs']|] eqn:Hrest; [|discriminate].
  injection Hrun as <- <-. split.
  - intros Hnil. apply fetch_loop_keeps_rows in Hrest; [done|].
    apply account_for_overlap_nonempty. by apply hourly_nonempty.
  - intros Hnil. by rewrite Hnil in Hpage.
Qed.

(** X3.  When [get_trades] returns bars, there is at least one, they are
    in increasing order of their hour, each is tagged with the currency
    pair, and they are the rows the loop has accumulated, rearranged. *)
Theorem get_trades_returns_sorted_bars (fuel : nat) (end_ : Z)
    (bars : list Bar) :
  get_trades poloniex_api describe fuel currency_pair start end_
    = Some (Ok bars) →
  bars ≠ [] ∧
  StronglySorted Z.le (name <$> bars) ∧
  (∀ b, b ∈ bars → market b = currency_pair) ∧
  ∃ df requests,
    loop fuel currency_pair start end_ [] = Some (df, requests) ∧
    (fun b => (name b, stats b)) <$> bars ≡ₚ df.
Proof.
  unfold get_trades. intros Hrun.
  destruct (loop fuel currency_pair start end_ []) as [[df requests]|];
    [|discriminate].
  injection Hrun as Hrun.
  assert (Hbars : bars = (fun hr => mkBar hr.1 hr.2 currency_pair) <$> sort_index df
                   ∧ sort_index df ≠ []).
  { destruct (sort_index df) as [|hr sorted]; [discriminate|].
    cbn in Hrun. by injection Hrun as <-. }
  destruct Hbars as [-> Hne].
  split; [by destruct (sort_index df)|]. split; [|split].
  - rewrite <- list_fmap_compose.
    replace (name ∘ _ <$> sort_index df) with (sort_index df).*1
      by (apply list_fmap_ext; by intros ? []).
    apply sort_index_sorted.
  - intros b (hr' & -> & _)%list_elem_of_fmap. done.
  - exists df, requests. split; [done|].
    rewrite <- list_fmap_compose.
    rewrite (list_fmap_ext _ id (sort_index df)) by (by intros ? []).
    rewrite list_fmap_id. apply sort_index_perm.
Qed.

(** X4.  In a call whose requests are all answered with a table of
    trades: when the first page has no trade, [get_trades] raises
    [AttributeError] after that one request, since the frame is still
    the one without columns when the closing report reads its [tradeID]
    column; when the first page has a trade, a call that ends returns
    bars, and at least one.  So an empty window is never answered with
    an empty list of bars. *)
Theorem get_trades_fails_on_empty_window (fuel : nat) (end_ : Z) :
  (poloniex_api currency_pair (unix_time start) (unix_time end_) = [] →
   get_trades poloniex_api describe (S fuel) currency_pair start end_
     = Some (Raise AttributeError)) ∧
  (poloniex_api currency_pair (unix_time start) (unix_time end_) ≠ [] →
   ∀ r, get_trades poloniex_api describe fuel currency_pair start end_ = Some r →
        ∃ b bars, r = Ok (b :: bars)) ∧
  get_trades poloniex_api describe fuel currency_pair start end_ ≠ Some (Ok []).
Proof.
  assert (Hlen : ∀ df, sort_index df = [] ↔ df = []).
  { intros df. split; intros Hnil.
    - apply Permutation_nil. by rewrite <- Hnil, sort_index_perm.
    - by subst df. }
  split; [|split].
  - intros Hempty. unfold get_trades.
    rewrite PoloniexFacts.fetch_loop_turn by done.
    unfold unix_time in Hempty. by rewrite Hempty.
  - intros Hpage r. unfold get_trades.
    destruct (loop fuel currency_pair start end_ []) as [[df requests]|] eqn:Hloop;
      [|discriminate].
    apply fetch_loop_empty_iff in Hloop. intros [= <-].
    destruct (sort_index df) as [|hr sorted] eqn:Hsort; cbn.
    + destruct Hpage. apply Hloop. by apply Hlen.
    + by eexists _, _.
  - unfold get_trades.
    destruct (loop fuel currency_pair start end_ []) as [[df requests]|];
      [|discriminate].
    by destruct (sort_index df).
Qed.

(** X5.  A first page that has trades, but not a multiple of 50000 of
    them, is the only page asked for: the loop ends after that one
    request and [get_trades] returns the rows of the page, sorted. *)
Theorem get_trades_single_short_page (fuel : nat) (end_ : Z)
    (t : Trade) (ts : list Trade) :
  format_dtypes (poloniex_api currency_pair (unix_time start) (unix_time end_))
    = t :: ts →
  Z.of_nat (length (t :: ts)) mod 50000 ≠ 0 →
  loop (S fuel) currency_pair start end_ []
    = Some (hourly describe (t :: ts), [(start, end_)]) ∧
  get_trades poloniex_api describe (S fuel) currency_pair start end_
    = Some (Ok ((fun hr => mkBar hr.1 hr.2 currency_pair)
                  <$> sort_index (hourly describe (t :: ts)))).
Proof.
  intros Hpage Hshort.
  assert (Hstop : need_to_fetch (hourly describe (t :: ts)) = false).
  { unfold need_to_fetch.
    pose proof (hourly_nonempty (t :: ts)) as Hne.
    destruct (hourly describe (t :: ts)) as [|hr hs] eqn:Hh; [by destruct Hne|].
    rewrite <- Hh, hourly_trade_count, mod_is_zero_of_int.
    by apply Z.eqb_neq. }
  assert (Hloop : loop (S fuel) currency_pair start end_ []
                  = Some (hourly describe (t :: ts), [(start, end_)])).
  { rewrite PoloniexFacts.fetch_loop_turn by done.
    unfold unix_time in Hpage. rewrite Hpage. cbn zeta.
    change (account_for_overlap [] (hourly describe (t :: ts)))
      with (@nil (Z * Row), hourly describe (t :: ts)).
    cbn [fst snd app].
    by rewrite PoloniexFacts.fetch_loop_exit. }
  split; [exact Hloop|].
  unfold get_trades. rewrite Hloop.
  pose proof (hourly_nonempty (t :: ts)) as Hne.
  assert (Hsort : sort_index (hourly describe (t :: ts)) ≠ []).
  { intros Hnil. apply Hne; [done|].
    apply Permutation_nil. by rewrite <- Hnil, sort_index_perm. }
  by destruct (sort_index (hourly describe (t :: ts))).
Qed.

End Outcome.

End Counting.

(** *** Merging rows *)

Lemma row_ext (r r' : Row) :
  (∀ c s, stat (col r c) s = stat (col r' c) s) → r = r'.
Proof.
  intros H. destruct r as [a1 a2 a3 a4 a5], r' as [b1 b2 b3 b4 b5].
  assert (Hs : ∀ x y : Stats, (∀ s, stat x s = stat y s) → x = y).
  { intros [x1 x2 x3 x4 x5 x6 x7 x8] [y1 y2 y3 y4 y5 y6 y7 y8] Hxy.
    pose proof (Hxy Count). pose proof (Hxy Mean). pose proof (Hxy Std).
    pose proof (Hxy Min). pose proof (Hxy Q25). pose proof (Hxy Q50).
    pose proof (Hxy Q75). pose proof (Hxy Max). cbn in *. congruence. }
  f_equal; apply Hs; intros s.
  - apply (H TradeID). - apply (H Amount). - apply (H Rate).
  - apply (H Total). - apply (H Type_).
Qed.

Lemma stat_cases (s : Stat) : s = Count ∨ s ≠ Count.
Proof. destruct s; (by left) || (by right). Qed.

Lemma merge_rows_tradeID_count (row1 row2 : Row) :
  s_count (tradeID (merge_rows row1 row2))
    = (s_count (tradeID row1) + s_count (tradeID row2))%Qc.
Proof. reflexivity. Qed.

(** X6.  The merge of two rows does not depend on their order: the row
    of the accumulated frame and the row of the new page are treated
    alike, in every cell. *)
Theorem merge_rows_commutes (a b : Row) :
  merge_rows a b = merge_rows b a.
Proof.
  apply row_ext. intros k s. destruct (stat_cases s) as [->|Hs].
  - rewrite !PoloniexFacts.merge_rows_count. ring.
  - rewrite !PoloniexFacts.merge_rows_stat by done.
    unfold Qcdiv. f_equal; [ring|f_equal; ring].
Qed.

(** *** The overlap of two pages *)

Lemma trade_count_not_in (df : DataFrame) (k : Z) (row : Row) :
  k ∉ df.*1 → ix_set df k row = df ∧ drop_label df k = df.
Proof.
  induction df as [|[h r] df IH]; [done|].
  rewrite fmap_cons. cbn [fst]. intros [Hne Hnin]%not_elem_of_cons.
  destruct (IH Hnin) as [Hset Hdrop].
  unfold ix_set, drop_label in *. cbn.
  destruct (Z.eqb_spec h k) as [Heq|_]; [by destruct Hne|].
  cbn. by rewrite Hset, Hdrop.
Qed.

Lemma trade_count_ix_set (df : DataFrame) (k : Z) (r row : Row) :
  NoDup df.*1 → ix df k = Some r →
  trade_count (ix_set df k row)
    = (trade_count df - s_count (tradeID r) + s_count (tradeID row))%Qc ∧
  trade_count (drop_label df k)
    = (trade_count df - s_count (tradeID r))%Qc.
Proof.
  induction df as [|[h r0] df IH]; [done|].
  rewrite fmap_cons. cbn [fst]. intros [Hnin Hnd]%NoDup_cons. cbn [ix].
  unfold ix_set, drop_label in *. cbn [map List.filter fst].
  destruct (Z.eqb_spec h k) as [->|Hne]; cbn [negb].
  - intros [= ->].
    destruct (trade_count_not_in df k row Hnin) as [Hset Hdrop].
    unfold ix_set, drop_label in *. rewrite Hset, Hdrop.
    cbn [map snd]. rewrite !count_sum_cons. split; ring.
  - intros Hr. destruct (IH Hnd Hr) as [Hset Hdrop].
    cbn [map snd]. rewrite !count_sum_cons, Hset, Hdrop. split; ring.
Qed.

(** X7.  Accounting for the overlap of two pages loses and invents no
    trade: for frames whose hours are distinct (as the frame of a page
    always is), the counts of the two frames it returns add up to the
    counts of the two frames it was given. *)
Theorem account_for_overlap_keeps_count (trades_df hourly_stats : DataFrame) :
  NoDup trades_df.*1 →
  NoDup hourly_stats.*1 →
  trade_count ((account_for_overlap trades_df hourly_stats).1
               ++ (account_for_overlap trades_df hourly_stats).2)
    = (trade_count trades_df + trade_count hourly_stats)%Qc.
Proof.
  intros Hnd1 Hnd2. unfold account_for_overlap.
  assert (Hsame : trade_count (trades_df ++ hourly_stats)
                  = (trade_count trades_df + trade_count hourly_stats)%Qc).
  { by rewrite map_app, count_sum_app. }
  destruct (index_min trades_df) as [k|]; [|exact Hsame].
  destruct (index_max hourly_stats) as [k'|]; [|exact Hsame].
  destruct (k =? k'); [|exact Hsame].
  destruct (ix trades_df k) as [row1|] eqn:H1; [|exact Hsame].
  destruct (ix hourly_stats k) as [row2|] eqn:H2; [|exact Hsame].
  cbn [fst snd]. rewrite map_app, count_sum_app.
  destruct (trade_count_ix_set _ _ _ (merge_rows row1 row2) Hnd1 H1) as [-> _].
  destruct (trade_count_ix_set _ _ _ (merge_rows row1 row2) Hnd2 H2) as [_ ->].
  rewrite merge_rows_tradeID_count. ring.
Qed.

End AggregatorFacts.

(** ** The replay cursor, continued *)

Module ReplayFacts.
Import Data.

(** *** [__init__] *)

Local Abbreviation fetch get_trades :=
  (fun (dh : PoloniexDataHandler) (m : string) =>
     let* df := get_trades m in
     let dh := set_market_data dh (<[m := df]> (market_data dh)) in
     Ok (set_market_snapshots dh (<[m := df]> (market_snapshots dh)))).

Lemma fetch_loop_frames (get_trades : string → result (list Bar))
    (ms : list string) (dh dh' : PoloniexDataHandler) :
  for_each (fetch get_trades) dh ms = Ok dh' →
  ∀ m,
    (m ∈ ms → ∃ df, get_trades m = Ok df ∧
                market_snapshots dh' !! m = Some df ∧
                market_data dh' !! m = Some df) ∧
    (m ∉ ms → market_snapshots dh' !! m = market_snapshots dh !! m ∧
              market_data dh' !! m = market_data dh !! m).
Proof.
  revert dh. induction ms as [|m0 ms IH]; intros dh Hrun m.
  - injection Hrun as <-. split; [by intros ?%elem_of_nil|done].
  - cbn [for_each] in Hrun.
    destruct (get_trades m0) as [df0|e] eqn:Hget; [|discriminate].
    cbn [bind] in Hrun. destruct (IH _ Hrun m) as [Hin Hout].
    destruct (decide (m ∈ ms)) as [Hm|Hm].
    + split; [intros _; by apply Hin|].
      intros Hnin. destruct Hnin. by right.
    + destruct (Hout Hm) as [Hs Hd]. cbn in Hs, Hd.
      rewrite lookup_insert in Hs, Hd. split.
      * intros [->|Hin']%elem_of_cons; [|done].
        rewrite decide_True in Hs, Hd by done. by exists df0.
      * intros [Hne _]%not_elem_of_cons.
        by rewrite decide_False in Hs, Hd by done.
Qed.

Lemma fetch_loop_raises (get_trades : string → result (list Bar))
    (ms : list string) (dh : PoloniexDataHandler) :
  (∃ m e, m ∈ ms ∧ get_trades m = Raise e) →
  ∃ e, for_each (fetch get_trades) dh ms = Raise e.
Proof.
  revert dh. induction ms as [|m0 ms IH]; intros dh (m & e & Hin & Hget).
  - by apply elem_of_nil in Hin.
  - cbn [for_each]. destruct (get_trades m0) as [df0|e0] eqn:Hget0.
    + cbn [bind]. apply IH. exists m, e. split; [|done].
      apply elem_of_cons in Hin as [->|Hin]; [congruence|done].
    + by exists e0.
Qed.

Lemma fetch_loop_returns (get_trades : string → result (list Bar))
    (ms : list string) (dh : PoloniexDataHandler) :
  (∀ m, m ∈ ms → ∃ df, get_trades m = Ok df) →
  ∃ dh', for_each (fetch get_trades) dh ms = Ok dh'.
Proof.
  revert dh. induction ms as [|m0 ms IH]; intros dh Hall; [by eexists|].
  cbn [for_each]. destruct (Hall m0) as [df0 ->]; [left|]. cbn [bind].
  apply IH. intros m Hin. apply Hall. by right.
Qed.

(** X8.  [__init__] returns exactly when the fetch of every market
    returns; an exception of a fetch goes through it.  The handler it
    returns has its flag set, no bar revealed, and for every market an
    iterator over the whole frame fetched for it. *)
Theorem init_sets_up_the_cursor (get_trades : string → result (list Bar))
    (ms : list string) :
  (∀ dh, init get_trades ms = Ok dh →
     populated dh ∧ markets dh = ms ∧ continue_backtest dh = true ∧
     ∀ m, m ∈ ms →
       revealed dh m = [] ∧
       ∃ df, get_trades m = Ok df ∧ remaining dh m = df ∧
             market_data dh !! m = Some df) ∧
  ((∃ m e, m ∈ ms ∧ get_trades m = Raise e) →
     ∃ e, init get_trades ms = Raise e) ∧
  ((∀ m, m ∈ ms → ∃ df, get_trades m = Ok df) →
     ∃ dh, init get_trades ms = Ok dh).
Proof.
  split; [|split].
  - intros dh Hinit.
    destruct (DataFacts.init_populated _ _ _ Hinit) as (Hpop & Hm & Hcb & Hrev).
    split; [done|]. split; [done|]. split; [done|].
    intros m Hin. split; [by apply Hrev|].
    unfold init, get_all_market_data in Hinit. cbn [markets] in Hinit.
    destruct (fetch_loop_frames _ _ _ _ Hinit m) as [Hfr _].
    destruct (Hfr Hin) as (df & Hget & Hs & Hd).
    exists df. unfold remaining. by rewrite Hs.
  - intros Hraise. unfold init, get_all_market_data. cbn [markets].
    by apply fetch_loop_raises.
  - intros Hall. unfold init, get_all_market_data. cbn [markets].
    by apply fetch_loop_returns.
Qed.

(** *** Replaying *)

Lemma take_add {A} (p q : nat) (l : list A) :
  take (p + q) l = take p l ++ take q (drop p l).
Proof.
  revert l. induction p as [|p IH]; intros l; [by rewrite drop_0|].
  destruct l as [|x l]; cbn; [by rewrite take_nil|]. by rewrite IH.
Qed.

Lemma length_drop_le {A} (p q : nat) (l : list A) :
  (p ≤ length l ∧ q ≤ length (drop p l) ↔ p + q ≤ length l)%nat.
Proof. rewrite length_drop. lia. Qed.

(** [n] calls in a row, market by market. *)
Lemma update_market_data_n_replay (n : nat) (dh : PoloniexDataHandler)
    (events : Queue) :
  populated dh →
  ∃ dh',
    update_market_data_n n dh events
      = Ok (dh', events ++ replicate n (Some MarketEvent)) ∧
    populated dh' ∧ markets dh' = markets dh ∧
    (∀ m, market_snapshots dh' !! m
            = drop (n * pulls dh m) <$> market_snapshots dh !! m) ∧
    (∀ m, latest_market_data dh' !! m
            = (fun l => l ++ take (n * pulls dh m) (remaining dh m))
                <$> latest_market_data dh !! m) ∧
    (continue_backtest dh' = true ↔
       continue_backtest dh = true ∧
       ∀ m, (n * pulls dh m ≤ length (remaining dh m))%nat).
Proof.
  revert dh events. induction n as [|n IH]; intros dh events Hwf.
  - exists dh. cbn. rewrite app_nil_r.
    split; [done|]. split; [done|]. split; [done|]. split; [|split].
    + intros m. destruct (market_snapshots dh !! m); cbn; by rewrite ?drop_0.
    + intros m. destruct (latest_market_data dh !! m); cbn; [|done].
      by rewrite app_nil_r.
    + split; [intros Hcb; split; [done|intros; lia]|by intros [? _]].
  - destruct (DataFacts.update_market_data_ok dh events Hwf)
      as (dh1 & Hrun & Hwf1 & Hm1 & Hs1 & Hl1 & Hf1).
    destruct (IH dh1 (events ++ [Some MarketEvent]) Hwf1)
      as (dh' & Hn & Hwf' & Hm' & Hs' & Hl' & Hf').
    assert (Hp : ∀ m, pulls dh1 m = pulls dh m).
    { intros m. unfold pulls. by rewrite Hm1. }
    assert (Hrem : ∀ m, remaining dh1 m = drop (pulls dh m) (remaining dh m)).
    { intros m. unfold remaining. rewrite Hs1.
      destruct (market_snapshots dh !! m); cbn; [done|by rewrite drop_nil]. }
    exists dh'. cbn [update_market_data_n]. rewrite Hrun. cbn.
    rewrite Hn. split; [by rewrite <- app_assoc|]. split; [done|].
    split; [congruence|]. split; [|split].
    + intros m. rewrite Hs', Hs1, Hp.
      destruct (market_snapshots dh !! m); cbn; [|done].
      by rewrite drop_drop.
    + intros m. rewrite Hl', Hl1, Hp, Hrem.
      destruct (latest_market_data dh !! m); cbn; [|done].
      by rewrite <- app_assoc, <- take_add.
    + rewrite Hf', Hf1. split.
      * intros [[Hcb H1] Hn']. split; [done|]. intros m.
        specialize (H1 m). specialize (Hn' m). rewrite Hp, Hrem in Hn'.
        rewrite length_drop in Hn'. lia.
      * intros [Hcb Hall]. split; [split; [done|]|]; intros m;
          specialize (Hall m).
        -- lia.
        -- rewrite Hp, Hrem, length_drop. lia.
Qed.

(** X9.  [n] calls of [update_market_data] on a handler set up by
    [__init__] all return and put [n] [MarketEvent]s on the queue.  A
    market that occurs [k] times in [markets] has then moved the next
    [n * k] bars of its iterator, in order, to the end of its revealed
    list (all that were left, if fewer); and the flag is still true
    exactly when it was true and every market had that many bars. *)
Theorem replay_reveals_bars_in_order (n : nat) (dh : PoloniexDataHandler)
    (events : Queue) :
  populated dh →
  ∃ dh',
    update_market_data_n n dh events
      = Ok (dh', events ++ replicate n (Some MarketEvent)) ∧
    (∀ m, m ∈ markets dh →
       remaining dh' m = drop (n * pulls dh m) (remaining dh m) ∧
       revealed dh' m
         = revealed dh m ++ take (n * pulls dh m) (remaining dh m) ∧
       revealed dh' m ++ remaining dh' m = revealed dh m ++ remaining dh m) ∧
    (continue_backtest dh' = true ↔
       continue_backtest dh = true ∧
       ∀ m, (n * pulls dh m ≤ length (remaining dh m))%nat).
Proof.
  intros Hwf.
  destruct (update_market_data_n_replay n dh events Hwf)
    as (dh' & Hrun & _ & _ & Hs & Hl & Hf).
  exists dh'. split; [exact Hrun|]. split; [|exact Hf].
  intros m Hin. destruct (Hwf m Hin) as [[its Hits] [l Hl0]].
  assert (Hrem : remaining dh' m = drop (n * pulls dh m) (remaining dh m)).
  { unfold remaining. by rewrite Hs, Hits. }
  assert (Hrev : revealed dh' m
                 = revealed dh m ++ take (n * pulls dh m) (remaining dh m)).
  { unfold revealed. by rewrite Hl, Hl0. }
  split; [exact Hrem|]. split; [exact Hrev|].
  by rewrite Hrem, Hrev, <- app_assoc, take_drop.
Qed.

(** X10.  From [__init__] on distinct markets, [n] calls reveal for
    every market the first [n] bars of the frame fetched for it, in the
    order of the frame, and leave the others in its iterator; the flag
    is still true exactly when every frame has at least [n] bars. *)
Theorem replay_from_init (get_trades : string → result (list Bar))
    (ms : list string) (dh : PoloniexDataHandler) (n : nat) :
  init get_trades ms = Ok dh →
  NoDup ms →
  ∃ dh',
    update_market_data_n n dh [] = Ok (dh', replicate n (Some MarketEvent)) ∧
    (∀ m, m ∈ ms →
       ∃ df, get_trades m = Ok df ∧
             revealed dh' m = take n df ∧ remaining dh' m = drop n df) ∧
    (continue_backtest dh' = true ↔
       ∀ m df, m ∈ ms → get_trades m = Ok df → (n ≤ length df)%nat).
Proof.
  intros Hinit Hnd.
  destruct (DataFacts.init_populated _ _ _ Hinit) as (Hpop & Hm & Hcb & Hrev).
  assert (Hframes : ∀ m, m ∈ ms →
            ∃ df, get_trades m = Ok df ∧ remaining dh m = df).
  { intros m Hin. unfold init, get_all_market_data in Hinit.
    cbn [markets] in Hinit.
    destruct (fetch_loop_frames _ _ _ _ Hinit m) as [Hfr _].
    destruct (Hfr Hin) as (df & Hget & Hs & _).
    exists df. unfold remaining. by rewrite Hs. }
  assert (Hone : ∀ m, m ∈ ms → pulls dh m = 1%nat).
  { intros m Hin. unfold pulls. rewrite Hm.
    by apply DataFacts.occurrences_NoDup. }
  assert (Hzero : ∀ m, m ∉ ms → pulls dh m = 0%nat).
  { intros m Hnin. unfold pulls. rewrite Hm.
    by apply DataFacts.occurrences_absent. }
  destruct (update_market_data_n_replay n dh [] Hpop)
    as (dh' & Hrun & _ & _ & Hs & Hl & Hf).
  exists dh'. split; [exact Hrun|]. split.
  - intros m Hin. destruct (Hframes m Hin) as (df & Hget & Hrem).
    exists df. split; [done|].
    pose proof (Hrev m Hin) as Hnone. pose proof (Hone m Hin) as Hp.
    assert (Hin' : m ∈ markets dh) by (by rewrite Hm).
    destruct (Hpop m Hin') as [[its Hits] [l Hl0]].
    assert (l = []) as -> by (unfold revealed in Hnone; by rewrite Hl0 in Hnone).
    split.
    + unfold revealed. rewrite Hl, Hl0, Hp, Hrem. cbn.
      by rewrite Nat.mul_1_r.
    + unfold remaining in *. rewrite Hs, Hits, Hp. rewrite Hits in Hrem.
      cbn in *. subst its. by rewrite Nat.mul_1_r.
  - rewrite Hf. split.
    + intros [_ Hall] m df Hin Hget.
      destruct (Hframes m Hin) as (df' & Hget' & Hrem).
      specialize (Hall m). rewrite Hone, Hrem in Hall by done.
      assert (df' = df) by congruence. subst. lia.
    + intros Hall. split; [done|]. intros m.
      destruct (decide (m ∈ ms)) as [Hin|Hnin].
      * destruct (Hframes m Hin) as (df & Hget & Hrem).
        rewrite Hone, Hrem by done. specialize (Hall m df Hin Hget). lia.
      * rewrite Hzero by done. lia.
Qed.

(** *** Querying *)

Lemma get_latest_one (dh : PoloniexDataHandler) (m : string) (l : list Bar) :
  latest_market_data dh !! m = Some l →
  get_latest_market_data dh m 1 = ([], last l).
Proof.
  intros Hl. unfold get_latest_market_data. rewrite Hl.
  rewrite DataFacts.slice_from_neg by lia.
  rewrite last_lookup, <- DataFacts.head_drop.
  replace (Z.to_nat (Z.max 0 (Z.of_nat (length l) - 1))) with (pred (length l))
    by lia.
  by destruct (drop _ l).
Qed.

(** X11.  After a call of [update_market_data] on distinct markets, the
    latest bar of a market that had a bar left is the bar just pulled
    from its iterator; for a market whose iterator was exhausted it is
    the same bar as before the call, so the last bar of an exhausted
    market keeps being served. *)
Theorem latest_after_update (dh dh' : PoloniexDataHandler)
    (events events' : Queue) (m : string) :
  populated dh →
  NoDup (markets dh) →
  m ∈ markets dh →
  update_market_data dh events = Ok (dh', events') →
  (∀ b rest, remaining dh m = b :: rest →
     get_latest_market_data dh' m 1 = ([], Some b)) ∧
  (remaining dh m = [] →
     get_latest_market_data dh' m 1 = get_latest_market_data dh m 1 ∧
     continue_backtest dh' = false).
Proof.
  intros Hwf Hnd Hin Hrun.
  destruct (DataFacts.update_market_data_ok dh events Hwf)
    as (dh1 & Hrun1 & _ & _ & Hs & Hl & Hf).
  rewrite Hrun in Hrun1. injection Hrun1 as <- _.
  destruct (Hwf m Hin) as [[its Hits] [l Hl0]].
  pose proof (DataFacts.occurrences_NoDup _ _ Hnd Hin) as Hone.
  assert (Hlat : latest_market_data dh' !! m
                 = Some (l ++ take 1 (remaining dh m))).
  { rewrite Hl, Hl0. unfold pulls. by rewrite Hone. }
  split.
  - intros b rest Hb. rewrite (get_latest_one _ _ _ Hlat), Hb.
    change (take 1 (b :: rest)) with [b]. by rewrite last_snoc.
  - intros Hnil. split.
    + rewrite (get_latest_one _ _ _ Hlat), (get_latest_one _ _ _ Hl0), Hnil.
      change (take 1 (@nil Bar)) with (@nil Bar). by rewrite app_nil_r.
    + apply not_true_is_false. intros Htrue.
      apply Hf in Htrue as [_ Hall]. specialize (Hall m).
      unfold pulls in Hall. rewrite Hone, Hnil in Hall. cbn in Hall. lia.
Qed.

(** X12.  With [N = 0] the query returns the first bar ever revealed,
    and with a negative [N] the bar at position [-N] from the start of
    the revealed list, or [None] when the list is not that long: the
    slice [[-N:]] then counts from the start. *)
Theorem get_latest_nonpositive_N (dh : PoloniexDataHandler) (market : string)
    (N : Z) (snapshot_list : list Bar) :
  N ≤ 0 →
  latest_market_data dh !! market = Some snapshot_list →
  get_latest_market_data dh market N
    = ([], snapshot_list !! Z.to_nat (- N)) ∧
  (N = 0 → get_latest_market_data dh market N = ([], head snapshot_list)).
Proof.
  intros HN Hl.
  assert (Hget : get_latest_market_data dh market N
                 = ([], snapshot_list !! Z.to_nat (- N))).
  { unfold get_latest_market_data, slice_from. rewrite Hl.
    destruct (Z.ltb_spec (- N) 0) as [Hlt|_]; [lia|].
    rewrite <- DataFacts.head_drop. by destruct (drop _ snapshot_list). }
  split; [exact Hget|]. intros ->. rewrite Hget. by destruct snapshot_list.
Qed.

(** *** Missing keys *)

Lemma update_market_raises (dh : PoloniexDataHandler) (m : string) (e : exn) :
  update_market dh m = Raise e → e = KeyError.
Proof.
  unfold update_market, _get_new_snapshot, getitem.
  destruct (market_snapshots dh !! m) as [[|b rest]|]; cbn; try congruence.
  destruct (latest_market_data _ !! m); cbn; congruence.
Qed.

Lemma update_market_keeps_absent (dh dh' : PoloniexDataHandler) (m m' : string) :
  update_market dh m = Ok dh' →
  market_snapshots dh !! m' = None → market_snapshots dh' !! m' = None.
Proof.
  unfold update_market, _get_new_snapshot, getitem.
  destruct (market_snapshots dh !! m) as [[|b rest]|] eqn:Hs; cbn;
    [by intros [= <-]| |discriminate].
  destruct (latest_market_data dh !! m); cbn; [|discriminate].
  intros [= <-] Hnone. cbn. rewrite lookup_insert_ne; [done|congruence].
Qed.

Lemma for_each_update_market_raises (ms : list string)
    (dh : PoloniexDataHandler) :
  (∀ e, for_each update_market dh ms = Raise e → e = KeyError) ∧
  (∀ m, m ∈ ms → market_snapshots dh !! m = None →
        for_each update_market dh ms = Raise KeyError).
Proof.
  revert dh. induction ms as [|m0 ms IH]; intros dh.
  { split; [discriminate|]. by intros m ?%elem_of_nil. }
  cbn [for_each]. destruct (update_market dh m0) as [dh1|e0] eqn:Hstep.
  - cbn [bind]. destruct (IH dh1) as [Hexn Hmiss]. split; [exact Hexn|].
    intros m [->|Hin]%elem_of_cons Hnone.
    + unfold update_market, _get_new_snapshot, getitem in Hstep.
      by rewrite Hnone in Hstep.
    + apply (Hmiss m Hin). by apply (update_market_keeps_absent dh dh1 m0).
  - apply update_market_raises in Hstep as ->. cbn [bind].
    split; [by intros e [= <-]|done].
Qed.

(** X13.  The only exception [update_market_data] lets through is
    [KeyError]: the end of an iterator never leaves it.  It raises
    [KeyError], and puts nothing on the queue, whenever a market of the
    handler has no iterator. *)
Theorem update_market_data_missing_market (dh : PoloniexDataHandler)
    (events : Queue) :
  (∀ e, update_market_data dh events = Raise e → e = KeyError) ∧
  (∀ m, m ∈ markets dh → market_snapshots dh !! m = None →
        update_market_data dh events = Raise KeyError).
Proof.
  destruct (for_each_update_market_raises (markets dh) dh) as [Hexn Hmiss].
  unfold update_market_data. split.
  - intros e. destruct (for_each update_market dh (markets dh)) eqn:Hloop;
      [discriminate|].
    cbn. intros [= <-]. by apply Hexn.
  - intros m Hin Hnone. by rewrite (Hmiss m Hin Hnone).
Qed.

End ReplayFacts.

(** ** The portfolio ledger, continued *)

Module LedgerFacts.
Import Portfolio NumberFacts.

(** *** The row of a per-step update *)

Local Abbreviation tick md m := (snd (Data.get_latest_market_data md m 1)).
Local Abbreviation stamps md ms :=
  (omap (fun m => name <$> tick md m) ms).
Local Abbreviation marked md self ms :=
  (omap (fun m => match tick md m with
                  | Some _ => Some (market_value md self m)
                  | None => None
                  end) ms).
Local Abbreviation stamped md ms old :=
  (match last (stamps md ms) with Some d => Some d | None => old end).

Lemma omap_cons_eq {A B} (f : A → option B) (x : A) (l : list A) :
  omap f (x :: l)
    = match f x with Some y => y :: omap f l | None => omap f l end.
Proof. reflexivity. Qed.

Lemma update_timeindex_loop (md : Data.PoloniexDataHandler)
    (self : NaivePortfolio) (ms : list string)
    (positions : PositionsRow) (holdings : Holdings) :
  (∀ m, m ∈ ms → is_Some (current_positions self !! m)) →
  ∃ positions' holdings',
    Data.for_each (update_timeindex_market md self) (positions, holdings) ms
      = Ok (positions', holdings') ∧
    total holdings' = foldl Qcplus (total holdings) (marked md self ms) ∧
    cash holdings' = cash holdings ∧
    commission holdings' = commission holdings ∧
    market_values holdings' = market_values holdings ∧
    datetime holdings' = stamped md ms (datetime holdings) ∧
    positions_datetime positions'
      = stamped md ms (positions_datetime positions) ∧
    ∀ m, row_positions positions' !! m
         = if decide (m ∈ ms ∧ is_Some (tick md m))
           then current_positions self !! m
           else row_positions positions !! m.
Proof.
  revert positions holdings.
  induction ms as [|m0 ms IH]; intros positions holdings Hwf.
  { exists positions, holdings. cbn. split; [done|].
    repeat (split; [done|]).
    intros m. rewrite decide_False; [done|]. by intros [?%elem_of_nil _]. }
  destruct (Hwf m0) as [q Hq]; [left|].
  assert (Hrest : ∀ m, m ∈ ms → is_Some (current_positions self !! m)).
  { intros m Hin. apply Hwf. by right. }
  cbn [Data.for_each]. unfold update_timeindex_market at 1.
  rewrite !omap_cons_eq. unfold market_value at 1.
  unfold getitem. rewrite Hq.
  destruct (tick md m0) as [snapshot|] eqn:Htick;
    cbn [bind fmap option_fmap option_map foldl].
  - set (positions1 := mkPositionsRow _ _). set (holdings1 := mkHoldings _ _ _ _ _).
    destruct (IH positions1 holdings1 Hrest)
      as (positions' & holdings' & Hrun & Ht & Hc & Hcm & Hmv & Hd & Hpd & Hrow).
    exists positions', holdings'. split; [exact Hrun|].
    split; [rewrite Ht; unfold holdings1; reflexivity|].
    split; [done|]. split; [done|]. split; [done|].
    split; [rewrite Hd, last_cons; by destruct (last _)|].
    split; [rewrite Hpd, last_cons; by destruct (last _)|].
    intros m. rewrite Hrow. unfold positions1. cbn.
    destruct (decide (m ∈ ms ∧ is_Some (tick md m))) as [[Hin Hs]|Hno].
    + rewrite decide_True; [done|]. split; [by right|done].
    + rewrite lookup_insert. destruct (decide (m0 = m)) as [->|Hne].
      * rewrite decide_True; [by rewrite Hq|]. split; [left|].
        rewrite Htick. by eexists.
      * rewrite decide_False; [done|].
        intros [[->|Hin]%elem_of_cons Hs]; [done|]. by apply Hno.
  - destruct (IH positions holdings Hrest)
      as (positions' & holdings' & Hrun & Ht & Hc & Hcm & Hmv & Hd & Hpd & Hrow).
    exists positions', holdings'. split; [exact Hrun|].
    split; [exact Ht|].
    split; [done|]. split; [done|]. split; [done|].
    split; [done|]. split; [done|].
    intros m. rewrite Hrow.
    destruct (decide (m ∈ ms ∧ is_Some (tick md m))) as [[Hin Hs]|Hno].
    + rewrite decide_True; [done|]. split; [by right|done].
    + rewrite decide_False; [done|].
      intros [[->|Hin]%elem_of_cons Hs]; [|by apply Hno].
      rewrite Htick in Hs. by destruct Hs.
Qed.

(** X14.  The per-step update marks the ledger to the market.  The
    holdings row it appends carries the current cash and commission, and
    as total the current cash to which, for every market of the list
    that has a revealed bar, its position times the mean rate of its
    latest bar has been added, one market after the other in the order
    of the list; the positions row carries the positions of exactly
    those markets.  Both rows are dated by the latest bar of the last
    market of the list that has one, and are undated when none has. *)
Theorem update_timeindex_marks_to_market (md : Data.PoloniexDataHandler)
    (self : NaivePortfolio) (event : Event) :
  covers_markets self →
  ∃ positions holdings self',
    update_timeindex md self event = Ok self' ∧
    all_positions self' = all_positions self ++ [positions] ∧
    all_holdings self' = all_holdings self ++ [holdings] ∧
    cash holdings = cash (current_holdings self) ∧
    commission holdings = commission (current_holdings self) ∧
    total holdings
      = foldl Qcplus (cash (current_holdings self))
              (marked md self (markets self)) ∧
    market_values holdings = ∅ ∧
    datetime holdings = last (stamps md (markets self)) ∧
    positions_datetime positions = last (stamps md (markets self)) ∧
    ∀ m, row_positions positions !! m
         = if decide (m ∈ markets self ∧ is_Some (tick md m))
           then current_positions self !! m
           else None.
Proof.
  intros Hwf. unfold update_timeindex.
  edestruct (update_timeindex_loop md self (markets self))
    as (positions & holdings & -> & Ht & Hc & Hcm & Hmv & Hd & Hpd & Hrow).
  { intros m Hin. by destruct (Hwf m Hin). }
  exists positions, holdings. eexists. cbn [bind fst snd].
  split; [done|]. cbn. split; [done|]. split; [done|].
  split; [done|]. split; [done|]. split; [done|]. split; [done|].
  split; [rewrite Hd; by destruct (last _)|].
  split; [rewrite Hpd; by destruct (last _)|].
  intros m. rewrite Hrow. by case_decide.
Qed.

(** *** Fills and orders together *)

(** X15.  A buy followed by a sell of the same quantity, on a market the
    ledger has, puts every position back where it was, whatever the two
    prices and commissions, and leaves the histories alone.  The
    commission paid, the cash, the total and the holdings value of the
    market are changed by the two fills one after the other; at equal
    prices the cost booked for the sell is the opposite of the cost
    booked for the buy. *)
Theorem buy_then_sell_restores_position (self : NaivePortfolio)
    (m : string) (n : Z) (p1 p2 c1 c2 : Qc) (q : Z) (v : Qc) :
  let buy := mkFill m "BUY" n p1 c1 in
  let sell := mkFill m "SELL" n p2 c2 in
  current_positions self !! m = Some q →
  market_values (current_holdings self) !! m = Some v →
  ∃ self',
    update_fills self [buy; sell] = Ok self' ∧
    current_positions self' = current_positions self ∧
    all_positions self' = all_positions self ∧
    all_holdings self' = all_holdings self ∧
    commission (current_holdings self')
      = (commission (current_holdings self) + c1 + c2)%Qc ∧
    cash (current_holdings self')
      = (cash (current_holdings self) - (fill_cost buy + c1)
         - (fill_cost sell + c2))%Qc ∧
    total (current_holdings self')
      = (total (current_holdings self) - (fill_cost buy + c1)
         - (fill_cost sell + c2))%Qc ∧
    market_values (current_holdings self') !! m
      = Some (v + fill_cost buy + fill_cost sell)%Qc ∧
    (p1 = p2 → fill_cost sell = (- fill_cost buy)%Qc).
Proof.
  intros buy sell Hq Hv. unfold update_fills. cbn [Data.for_each].
  rewrite (PortfolioFacts.update_fill_eq self buy q v Hq Hv).
  cbn [bind].
  set (self1 := mkPortfolio _ _ _ _ _ _ _).
  rewrite (PortfolioFacts.update_fill_eq self1 sell
             (q + 1 * n) (v + fill_cost buy)%Qc).
  2:{ unfold self1. cbn. by rewrite lookup_insert_eq. }
  2:{ unfold self1. cbn. by rewrite lookup_insert_eq. }
  cbn [bind]. eexists. split; [reflexivity|]. unfold self1. cbn.
  rewrite !insert_insert_eq.
  split; [apply insert_id; rewrite Hq; f_equal; lia|].
  split; [done|]. split; [done|]. split; [done|]. split; [done|].
  split; [done|]. split; [by rewrite lookup_insert_eq|].
  intros ->. unfold fill_cost. cbn.
  rewrite PortfolioFacts.of_int_1, PortfolioFacts.of_int_m1. ring.
Qed.

(** X16.  An order sized by [generate_naive_order] and filled in full
    (whatever the price and the commission of the fill) always reverses
    a position: a long or short position [cur] becomes [- cur].  From a
    flat position it opens [floor (100 * strength)], long for a LONG
    signal and short for a SHORT one. *)
Theorem filled_order_reverses_position (self : NaivePortfolio)
    (signal : Signal) (cur : Z) (v : Qc) (o : Order) (fill : Fill) :
  current_positions self !! signal_market signal = Some cur →
  market_values (current_holdings self) !! signal_market signal = Some v →
  generate_naive_order self signal = Ok (Some (OrderEvent o)) →
  fill_market fill = order_market o →
  fill_direction fill = order_direction o →
  fill_quantity fill = order_quantity o →
  ∃ self',
    update_fill self (FillEvent fill) = Ok self' ∧
    current_positions self' !! signal_market signal
      = Some (if cur =? 0
              then if String.eqb (signal_type signal) "LONG"
                   then floor (of_int 100 * strength signal)
                   else - floor (of_int 100 * strength signal)
              else - cur).
Proof.
  intros Hq Hv Hgen Hm Hd Hn.
  rewrite (PortfolioFacts.generate_naive_order_eq _ _ _ Hq) in Hgen.
  assert (Hcase : fill_market fill = signal_market signal ∧
    fill_dir fill * fill_quantity fill
      = (if cur =? 0
         then if String.eqb (signal_type signal) "LONG"
              then floor (of_int 100 * strength signal)
              else - floor (of_int 100 * strength signal)
         else - cur) - cur).
  { destruct (PortfolioFacts.fill_dir_cases fill) as (Hbuy & Hsell & _).
    rewrite Hm, Hn. rewrite Hd in Hbuy, Hsell.
    destruct (String.eqb_spec (signal_type signal) "LONG") as [Hl|Hl];
      destruct (String.eqb_spec (signal_type signal) "SHORT") as [Hs|Hs];
      try congruence;
      destruct (Z.eqb_spec cur 0) as [H0|H0];
      destruct (Z.ltb_spec 0 cur) as [Hpos|Hpos];
      destruct (Z.ltb_spec cur 0) as [Hneg|Hneg];
      cbn in Hgen; try discriminate; try lia;
      injection Hgen as <-; cbn in *; split; try done;
      rewrite ?Hbuy, ?Hsell by done; lia. }
  destruct Hcase as [Hmarket Hdelta]. rewrite <- Hmarket in Hq, Hv.
  eexists. split; [exact (PortfolioFacts.update_fill_eq self fill cur v Hq Hv)|].
  cbn. rewrite <- Hmarket, lookup_insert_eq. f_equal. lia.
Qed.

(** *** What a run keeps *)

Lemma init_balanced (md : Data.PoloniexDataHandler) (start : option Z)
    (capital : Qc) (p0 : NaivePortfolio) :
  init md start capital = Ok p0 →
  balanced p0 ∧ keyed_by (Data.markets md) p0.
Proof.
  intros [d ->]%PortfolioFacts.init_eq. split; [|split]; cbn.
  - done.
  - done.
  - intros m. rewrite !const_dict_lookup.
    case_decide; split; split; try done; by intros [? ?].
Qed.

Lemma act_keeps (ms : list string) (self self' : NaivePortfolio) (a : action) :
  act self a = Ok self' →
  balanced self ∧ keyed_by ms self →
  balanced self' ∧ keyed_by ms self'.
Proof.
  intros Hact [Htc [Hms Hkeys]].
  destruct a as [md|fill]; cbn [act] in Hact.
  - apply PortfolioFacts.update_timeindex_histories in Hact
      as (_ & _ & Hm & Hcp & Hch).
    unfold balanced, keyed_by. rewrite Hm, Hcp, Hch. done.
  - unfold update_fill in Hact. cbn in Hact.
    unfold update_positions_from_fill, getitem in Hact.
    destruct (current_positions self !! fill_market fill) as [q|] eqn:Hq;
      [|discriminate].
    cbn in Hact. unfold update_holdings_from_fill, getitem in Hact.
    cbn in Hact.
    destruct (market_values (current_holdings self) !! fill_market fill)
      as [v|] eqn:Hv; [|discriminate].
    cbn in Hact. injection Hact as <-.
    split; [|split]; cbn.
    + unfold balanced in *. cbn. by rewrite Htc.
    + done.
    + intros m. destruct (Hkeys m) as [Hp Hh].
      rewrite !lookup_insert. case_decide as Heq; [subst m|done].
      rewrite <- Hp, Hq. split; split; by eauto.
Qed.

Lemma run_keeps (ms : list string) (actions : list action)
    (self self' : NaivePortfolio) :
  run self actions = Ok self' →
  balanced self ∧ keyed_by ms self →
  balanced self' ∧ keyed_by ms self'.
Proof.
  revert self. induction actions as [|a actions IH]; intros self Hrun Hinv.
  - by injection Hrun as <-.
  - unfold run in *. cbn [Data.for_each] in Hrun.
    destruct (act self a) as [self1|e] eqn:Hact; [|discriminate].
    cbn in Hrun. apply (IH self1 Hrun). by apply (act_keeps _ self _ a).
Qed.

(** X17.  The current total of the ledger is its current cash, always:
    after any per-step updates and fills on a ledger just built, the
    two entries are equal, since [__init__] sets both to the initial
    capital, a fill takes the same amount off both, and the per-step
    update marks the row it appends to the market but not the current
    total. *)
Theorem current_total_is_current_cash (md : Data.PoloniexDataHandler)
    (start : option Z) (capital : Qc) (p0 p : NaivePortfolio)
    (actions : list action) :
  init md start capital = Ok p0 →
  run p0 actions = Ok p →
  total (current_holdings p) = cash (current_holdings p).
Proof.
  intros Hinit Hrun.
  by destruct (run_keeps (Data.markets md) _ _ _ Hrun
                 (init_balanced _ _ _ _ Hinit)) as [Htc _].
Qed.

(** X18.  The markets given when the ledger is built are the markets it
    trades, for good: after any per-step updates and fills, a fill is
    applied exactly when its market is one of them and raises [KeyError]
    otherwise, and likewise a signal is sized exactly when its market is
    one of them and raises [KeyError], with nothing put on the queue,
    otherwise. *)
Theorem only_initial_markets_trade (md : Data.PoloniexDataHandler)
    (start : option Z) (capital : Qc) (p0 p : NaivePortfolio)
    (actions : list action) :
  init md start capital = Ok p0 →
  run p0 actions = Ok p →
  (∀ fill,
     (fill_market fill ∈ Data.markets md →
        ∃ p', update_fill p (FillEvent fill) = Ok p') ∧
     (fill_market fill ∉ Data.markets md →
        update_fill p (FillEvent fill) = Raise KeyError)) ∧
  (∀ signal events,
     (signal_market signal ∈ Data.markets md →
        ∃ item, update_signal p events (SignalEvent signal)
                  = Ok (events ++ [item])) ∧
     (signal_market signal ∉ Data.markets md →
        update_signal p events (SignalEvent signal) = Raise KeyError)).
Proof.
  intros Hinit Hrun.
  destruct (run_keeps (Data.markets md) _ _ _ Hrun
              (init_balanced _ _ _ _ Hinit)) as [_ [_ Hkeys]].
  split.
  - intros fill. destruct (Hkeys (fill_market fill)) as [Hp Hh]. split.
    + intros Hin. destruct (proj2 Hp Hin) as [q Hq].
      destruct (proj2 Hh Hin) as [v Hv].
      eexists. exact (PortfolioFacts.update_fill_eq p fill q v Hq Hv).
    + intros Hnin. unfold update_fill. cbn.
      unfold update_positions_from_fill, getitem.
      destruct (current_positions p !! fill_market fill) eqn:Hq; [|done].
      destruct Hnin. apply Hp. by eexists.
  - intros signal events. destruct (Hkeys (signal_market signal)) as [Hp _].
    split.
    + intros Hin. destruct (proj2 Hp Hin) as [q Hq].
      unfold update_signal. cbn.
      rewrite (PortfolioFacts.generate_naive_order_eq _ _ _ Hq).
      repeat (destruct (_ && _); [by eexists|]). by eexists.
    + intros Hnin. unfold update_signal. cbn.
      unfold generate_naive_order, getitem.
      destruct (current_positions p !! signal_market signal) eqn:Hq; [|done].
      destruct Hnin. apply Hp. by eexists.
Qed.

Lemma act_appends (self self' : NaivePortfolio) (a : action) :
  act self a = Ok self' →
  all_positions self `prefix_of` all_positions self' ∧
  all_holdings self `prefix_of` all_holdings self'.
Proof.
  destruct a as [md|fill]; cbn [act]; intros Hact.
  - unfold update_timeindex in Hact.
    destruct (Data.for_each _ _ _) as [rows|e]; [|discriminate].
    cbn in Hact. injection Hact as <-. cbn.
    split; by apply prefix_app_r.
  - by apply PortfolioFacts.update_fill_histories in Hact as [-> ->].
Qed.

(** X19.  The two histories are append-only: whatever per-step updates
    and fills follow, the rows a history already has stay as they are,
    at the same places, and new rows only come after them. *)
Theorem histories_are_append_only (self self' : NaivePortfolio)
    (actions : list action) :
  run self actions = Ok self' →
  all_positions self `prefix_of` all_positions self' ∧
  all_holdings self `prefix_of` all_holdings self' ∧
  (∀ i row, all_holdings self !! i = Some row →
            all_holdings self' !! i = Some row) ∧
  (∀ i row, all_positions self !! i = Some row →
            all_positions self' !! i = Some row).
Proof.
  intros Hrun.
  assert (Hpre : all_positions self `prefix_of` all_positions self' ∧
                 all_holdings self `prefix_of` all_holdings self').
  { revert self Hrun. induction actions as [|a actions IH]; intros self Hrun.
    - by injection Hrun as <-.
    - unfold run in *. cbn [Data.for_each] in Hrun.
      destruct (act self a) as [self1|e] eqn:Hact; [|discriminate].
      cbn in Hrun. destruct (IH self1 Hrun) as [Hp Hh].
      destruct (act_appends _ _ _ Hact) as [Hp1 Hh1].
      split; by etrans. }
  destruct Hpre as [Hp Hh]. split; [done|]. split; [done|].
  split; intros i row Hi.
  - by apply (prefix_lookup_Some _ _ _ _ Hi).
  - by apply (prefix_lookup_Some _ _ _ _ Hi).
Qed.

(** *** The equity curve *)

Local Abbreviation plus_one l := (map (option_map (fun x => (1 + x)%Qc)) l).

Lemma pct_change_from_lookup (l : list Qc) (prev : Qc) (i : nat) (x y : Qc) :
  (prev :: l) !! i = Some y → l !! i = Some x →
  pct_change_from prev l !! i = Some (Some (x / y - 1)%Qc).
Proof.
  revert prev i. induction l as [|z l IH]; intros prev i Hy Hx; [done|].
  destruct i as [|i]; cbn in *.
  - by injection Hy as <-; injection Hx as <-.
  - by apply IH.
Qed.

Lemma plus_one_lookup (l : list Qc) (prev : Qc) (i : nat) (x y : Qc) :
  (prev :: l) !! i = Some y → l !! i = Some x →
  plus_one (pct_change_from prev l) !! i = Some (Some (1 + (x / y - 1))%Qc).
Proof.
  intros Hy Hx. change (map ?f ?l) with (f <$> l). rewrite list_lookup_fmap.
  by rewrite (pct_change_from_lookup l prev i x y).
Qed.

Lemma cumprod_from_is_Some (l : list (option Qc)) (acc : Qc) (i : nat) (y : Qc) :
  l !! i = Some (Some y) → ∃ e, cumprod_from acc l !! i = Some (Some e).
Proof.
  revert acc i. induction l as [|o l IH]; intros acc i Hy; [done|].
  destruct i as [|i]; cbn in Hy.
  - injection Hy as ->. cbn. by eexists.
  - destruct o as [z|]; cbn; by apply IH.
Qed.

(** One step of the running product. *)
Lemma cumprod_from_succ (l : list (option Qc)) (acc : Qc) (i : nat) (e y : Qc) :
  cumprod_from acc l !! i = Some (Some e) →
  l !! S i = Some (Some y) →
  cumprod_from acc l !! S i = Some (Some (e * y)%Qc).
Proof.
  revert acc i. induction l as [|o l IH]; intros acc i He Hy; [done|].
  destruct i as [|i].
  - destruct o as [z|]; cbn in He; [|done]. injection He as <-.
    cbn in Hy. destruct l as [|o' l]; [done|]. cbn in Hy. injection Hy as ->.
    reflexivity.
  - destruct o as [z|]; cbn in He |- *; by apply IH.
Qed.

(** X20.  The columns of the equity curve.  The return of a row is its
    total over the total of the row before, less one.  The equity value
    of the second row is one plus its return, and the equity value of
    every later row is the equity value of the row before times one
    plus its own return: the running product of the growth factors, row
    by row.  This holds as long as no total before the row is zero.  The
    first row has neither a return nor an equity value, and both columns
    have one place for each row of the history. *)
Theorem equity_curve_compounds_returns (self : NaivePortfolio)
    (t : nat) (prev x : Qc) :
  let totals := map total (all_holdings self) in
  let curve := create_equity_curve_dataframe self in
  totals !! t = Some prev →
  totals !! S t = Some x →
  (∀ j y, (j ≤ t)%nat → totals !! j = Some y → y ≠ 0%Qc) →
  curve.1 !! S t = Some (Some (x / prev - 1)%Qc) ∧
  (t = 0%nat → curve.2 !! S t = Some (Some (1 + (x / prev - 1))%Qc)) ∧
  (t ≠ 0%nat →
   ∃ e, curve.2 !! t = Some (Some e) ∧
        curve.2 !! S t = Some (Some (e * (1 + (x / prev - 1)))%Qc)) ∧
  curve.1 !! 0%nat = Some None ∧ curve.2 !! 0%nat = Some None ∧
  length curve.1 = length (all_holdings self) ∧
  length curve.2 = length (all_holdings self).
Proof.
  intros totals curve Hprev Hx Hnz.
  assert (Hlen1 : ∀ l p, length (pct_change_from p l) = length l).
  { induction l as [|z l IH]; intros p; cbn; [done|]. by rewrite IH. }
  assert (Hlen2 : ∀ (l : list (option Qc)) a, length (cumprod_from a l) = length l).
  { induction l as [|[z|] l IH]; intros a; cbn; [done|by rewrite IH..]. }
  assert (Ht : length totals = length (all_holdings self)).
  { unfold totals. by rewrite length_map. }
  assert (Hcurve : curve = (pct_change totals, cumprod (plus_one (pct_change totals))))
    by reflexivity.
  rewrite Hcurve. cbn [fst snd]. clear Hcurve curve.
  destruct totals as [|first rest]; [done|].
  change ((first :: rest) !! S t) with (rest !! t) in Hx.
  pose proof (plus_one_lookup rest first t x prev Hprev Hx) as Hfactor.
  split; [|split; [|split; [|split; [done|split; [done|split]]]]].
  - change (pct_change_from first rest !! t = Some (Some (x / prev - 1)%Qc)).
    by apply pct_change_from_lookup.
  - intros ->.
    change (cumprod_from 1%Qc (plus_one (pct_change_from first rest)) !! 0%nat
            = Some (Some (1 + (x / prev - 1))%Qc)).
    destruct (plus_one (pct_change_from first rest)) as [|o l]; [done|].
    cbn in Hfactor. injection Hfactor as ->. cbn. do 2 f_equal. ring.
  - intros Hpos. destruct t as [|t]; [done|].
    change (∃ e,
      cumprod_from 1%Qc (plus_one (pct_change_from first rest)) !! t
        = Some (Some e) ∧
      cumprod_from 1%Qc (plus_one (pct_change_from first rest)) !! S t
        = Some (Some (e * (1 + (x / prev - 1)))%Qc)).
    assert (Hbefore : ∃ y, plus_one (pct_change_from first rest) !! t
                           = Some (Some y)).
    { destruct (rest !! t) as [x'|] eqn:Hx'.
      - destruct ((first :: rest) !! t) as [y'|] eqn:Hy'.
        + eexists. by apply (plus_one_lookup rest first t x' y').
        + apply lookup_ge_None in Hy'. apply lookup_lt_Some in Hx'. cbn in Hy'. lia.
      - apply lookup_ge_None in Hx'. apply lookup_lt_Some in Hx. lia. }
    destruct Hbefore as [y Hy].
    destruct (cumprod_from_is_Some _ 1%Qc _ _ Hy) as [e He].
    exists e. split; [exact He|]. by apply cumprod_from_succ.
  - change (S (length (pct_change_from first rest)) = length (all_holdings self)).
    rewrite Hlen1. by rewrite <- Ht.
  - change (S (length (cumprod_from 1%Qc (plus_one (pct_change_from first rest))))
            = length (all_holdings self)).
    rewrite Hlen2, length_map, Hlen1. by rewrite <- Ht.
Qed.

(** *** Building the ledger *)

(** X21.  Built without a start date, the ledger starts at the hour of
    the first bar fetched for the first market.  Over a data handler
    set up by [__init__] on at least one market, with a fetch that
    never returns an empty frame, this always succeeds; with no market
    at all it raises [IndexError]. *)
Theorem init_without_start_date (get_trades : string → result (list Bar))
    (m : string) (ms : list string) (md : Data.PoloniexDataHandler)
    (capital : Qc) :
  (∀ m' df, get_trades m' = Ok df → df ≠ []) →
  Data.init get_trades (m :: ms) = Ok md →
  (∃ b df p,
     get_trades m = Ok (b :: df) ∧
     init md None capital = Ok p ∧
     start_date p = name b ∧
     (∀ row, row ∈ all_positions p → positions_datetime row = Some (name b)) ∧
     (∀ row, row ∈ all_holdings p → datetime row = Some (name b))) ∧
  (∀ md', Data.markets md' = [] → init md' None capital = Raise IndexError).
Proof.
  intros Hne Hinit. split.
  - destruct (DataFacts.init_populated _ _ _ Hinit) as (_ & Hm & _ & _).
    unfold Data.init, Data.get_all_market_data in Hinit.
    cbn [Data.markets] in Hinit.
    destruct (ReplayFacts.fetch_loop_frames _ _ _ _ Hinit m) as [Hfr _].
    destruct Hfr as (df & Hget & _ & Hd); [left|].
    destruct df as [|b df]; [by destruct (Hne m [] Hget)|].
    exists b, df. eexists. split; [done|].
    unfold init, getitem. rewrite Hm, Hd. cbn.
    split; [reflexivity|]. cbn. split; [done|].
    split; intros row ->%list_elem_of_singleton; done.
  - intros md' Hnone. unfold init. by rewrite Hnone.
Qed.

(** *** Weak signals *)

Lemma this_scaled (s : Qc) : (this (of_int 100 * s)%Qc == 100 * this s)%Q.
Proof.
  cbn -[Qred Qmult of_int]. rewrite Qred_correct, this_of_int. reflexivity.
Qed.

(** X22.  From a flat position every LONG or SHORT signal gives an
    order, also a weak one: with a strength from 0 up to, but not
    reaching, 0.01 the order has the quantity 0, and with a negative
    strength a negative quantity. *)
Theorem flat_signal_always_orders (self : NaivePortfolio) (signal : Signal) :
  current_positions self !! signal_market signal = Some 0 →
  signal_type signal = "LONG" ∨ signal_type signal = "SHORT" →
  ∃ o,
    generate_naive_order self signal = Ok (Some (OrderEvent o)) ∧
    order_quantity o = floor (of_int 100 * strength signal) ∧
    ((0 <= this (strength signal))%Q ∧ (this (strength signal) < 1 # 100)%Q →
       order_quantity o = 0) ∧
    ((this (strength signal) < 0)%Q → order_quantity o < 0).
Proof.
  intros Hq Htype.
  assert (Hgen : ∃ d, generate_naive_order self signal
            = Ok (Some (OrderEvent (mkOrder (signal_market signal) d
                     (floor (of_int 100 * strength signal))
                     (s_mean (rate (stats (market_snapshot signal)))))))).
  { destruct Htype as [Ht|Ht].
    - exists "BUY". apply (PortfolioFacts.order_flat _ _ _ Hq); [done|by left].
    - exists "SELL". apply (PortfolioFacts.order_flat _ _ _ Hq); [done|by right]. }
  destruct Hgen as [d Hgen]. eexists. split; [exact Hgen|]. cbn.
  split; [done|].
  pose proof (Qfloor_le (this (of_int 100 * strength signal)%Qc)) as Hle.
  pose proof (Qlt_floor (this (of_int 100 * strength signal)%Qc)) as Hlt.
  pose proof (this_scaled (strength signal)) as Heq.
  unfold floor. set (X := this (of_int 100 * strength signal)%Qc) in *.
  set (n := Qfloor X) in *. rewrite inject_Z_plus in Hlt.
  change (inject_Z 1) with 1%Q in Hlt. split.
  - intros [H0 H1].
    assert (Hn1 : (inject_Z n < inject_Z 1)%Q).
    { change (inject_Z 1) with 1%Q. lra. }
    assert (Hn0 : (inject_Z (-1) < inject_Z n)%Q).
    { change (inject_Z (-1)) with (-1 # 1)%Q. lra. }
    rewrite <- Zlt_Qlt in Hn1, Hn0. lia.
  - intros Hneg.
    assert (Hn0 : (inject_Z n < inject_Z 0)%Q).
    { change (inject_Z 0) with 0%Q. lra. }
    rewrite <- Zlt_Qlt in Hn0. lia.
Qed.

End LedgerFacts.

(** ** The raw trade fetch of [market_data.py] *)

Module MarketDataFacts.
Import MarketData.

Section Fetch.

Variable poloniex_api : string → Z → Z → list Poloniex.RawTrade.
Variable strftime : Z → string.
Variable currency_pair : string.
Variable start end_ : Z.
Variable save_file : bool.

Local Abbreviation page r := (poloniex_api currency_pair (fst r) (snd r)).
Local Abbreviation loop := (fetch_loop poloniex_api).
Local Abbreviation fetched reqs := (concat (map (fun r => page r) reqs)).

(** The upper bound of the request that follows a page with trades: the
    date of the last trade of the page. *)
Lemma request_end_next (saved : bool) (trades0 p : list Poloniex.RawTrade)
    (t : Poloniex.RawTrade) :
  last p = Some t →
  request_end end_ (if saved then format_dtypes p else trades0 ++ format_dtypes p)
    = Poloniex.raw_date t.
Proof.
  intros Hlast. unfold request_end, format_dtypes.
  destruct saved; [|rewrite last_app]; by rewrite Hlast.
Qed.

Lemma raw_fetch_loop_walk (fuel : nat) (trades0 : list Poloniex.RawTrade)
    (total0 : Z) (file0 : list (list Poloniex.RawTrade))
    (t : list Poloniex.RawTrade) (n : Z) (f : list (list Poloniex.RawTrade))
    (reqs : list (Z * Z)) :
  loop fuel currency_pair start end_ save_file trades0 total0 file0
    = Some (t, n, f, reqs) →
  (reqs = [] → need_to_fetch trades0 = false ∧ t = trades0) ∧
  n = total0 + Z.of_nat (length (fetched reqs)) ∧
  (∀ r, r ∈ reqs → r.1 = start) ∧
  (∀ r, head reqs = Some r → r.2 = request_end end_ trades0) ∧
  (save_file = false → t = trades0 ++ fetched reqs ∧ f = file0) ∧
  (save_file = true →
     concat f = concat file0 ++ fetched reqs ∧
     (Forall (fun p => p ≠ []) file0 → Forall (fun p => p ≠ []) f)) ∧
  (∀ i r r', reqs !! i = Some r → reqs !! S i = Some r' →
     ∃ x, last (page r) = Some x ∧ r'.2 = Poloniex.raw_date x) ∧
  (∀ r, last reqs = Some r → page r = [] ∨ need_to_fetch t = false) ∧
  (length reqs ≤ fuel)%nat.
Proof.
  revert trades0 total0 file0 t n f reqs.
  induction fuel as [|fuel IH]; intros trades0 total0 file0 t n f reqs Hrun.
  - cbn in Hrun. destruct (need_to_fetch trades0) eqn:Hneed; [discriminate|].
    injection Hrun as <- <- <- <-. cbn.
    split; [done|]. split; [lia|]. split; [by intros r ?%elem_of_nil|].
    split; [done|]. split; [by rewrite app_nil_r|].
    split; [by rewrite app_nil_r|]. split; [done|]. split; [done|lia].
  - cbn [fetch_loop] in Hrun.
    destruct (need_to_fetch trades0) eqn:Hneed.
    2:{ injection Hrun as <- <- <- <-. cbn.
        split; [done|]. split; [lia|]. split; [by intros r ?%elem_of_nil|].
        split; [done|]. split; [by rewrite app_nil_r|].
        split; [by rewrite app_nil_r|]. split; [done|]. split; [done|lia]. }
    unfold Poloniex.unix_time in Hrun. cbn [fst snd] in Hrun.
    destruct (poloniex_api currency_pair start (request_end end_ trades0))
      as [|x xs] eqn:Hpage.
    + injection Hrun as <- <- <- <-. cbn. rewrite Hpage. cbn.
      split; [done|]. split; [lia|].
      split; [by intros r ->%list_elem_of_singleton|].
      split; [by intros r [= <-]|]. split; [by rewrite app_nil_r|].
      split; [by rewrite app_nil_r|].
      split; [intros i r r' _ Hnext; destruct i; discriminate|].
      split; [|lia]. intros r [= <-]. by left.
    + destruct (loop fuel _ _ _ _ _ _ _) as [[[[t' n'] f'] reqs']|] eqn:Hrest;
        [|discriminate].
      injection Hrun as <- <- <- <-.
      destruct (IH _ _ _ _ _ _ _ Hrest)
        as (Hnil & Hn & Hstart & Hhead & Hplain & Hsave & Hnext & Hlast & Hlen).
      assert (Hx : ∃ y, last (x :: xs) = Some y).
      { destruct (last (x :: xs)) as [y|] eqn:Hy; [by eexists|].
        by apply last_None in Hy. }
      destruct Hx as [y Hy].
      rewrite (request_end_next save_file trades0 (x :: xs) y Hy) in Hhead.
      unfold format_dtypes in *. cbn [map concat fst snd]. rewrite Hpage.
      split; [done|]. split; [rewrite Hn, !length_app; cbn; lia|].
      split.
      { intros r [->|Hr]%elem_of_cons; [done|by apply Hstart]. }
      split; [by intros r [= <-]|]. split; [|split; [|split; [|split]]].
      * intros Hs. rewrite Hs in *.
        destruct (Hplain eq_refl) as [-> ->]. by rewrite <- app_assoc.
      * intros Hs. rewrite Hs in *. destruct (Hsave eq_refl) as [Hc Hall].
        split.
        -- rewrite Hc, concat_app. cbn. by rewrite app_nil_r, <- app_assoc.
        -- intros Hfile. apply Hall. apply Forall_app. split; [done|].
           by repeat constructor.
      * intros [|i] r r' Hr Hr'; cbn in Hr, Hr'.
        -- injection Hr as <-. cbn [fst snd]. rewrite Hpage.
           exists y. split; [exact Hy|]. apply Hhead. by destruct reqs'.
        -- by apply (Hnext i).
      * intros r Hr. destruct reqs' as [|r0 rest].
        -- injection Hr as <-. right. by destruct (Hnil eq_refl) as [? ->].
        -- apply Hlast. exact Hr.
      * cbn. lia.
Qed.

(** The loop ends on a feed whose pages end with a trade dated strictly
    below the upper bound they were asked for, and not below [start]. *)
Lemma raw_fetch_loop_ends (fuel : nat) (trades0 : list Poloniex.RawTrade)
    (total0 : Z) (file0 : list (list Poloniex.RawTrade)) :
  (∀ e x, last (page (start, e)) = Some x → start ≤ Poloniex.raw_date x < e) →
  (Z.to_nat (request_end end_ trades0 - start) < fuel)%nat →
  ∃ res, loop fuel currency_pair start end_ save_file trades0 total0 file0
         = Some res.
Proof.
  intros Hfeed. revert trades0 total0 file0.
  induction fuel as [|fuel IH]; intros trades0 total0 file0 Hfuel; [lia|].
  cbn [fetch_loop]. destruct (need_to_fetch trades0); [|by eexists].
  unfold Poloniex.unix_time. cbn [fst snd].
  destruct (poloniex_api currency_pair start (request_end end_ trades0))
    as [|x xs] eqn:Hpage; [by eexists|].
  assert (Hx : ∃ y, last (x :: xs) = Some y).
  { destruct (last (x :: xs)) as [y|] eqn:Hy; [by eexists|].
    by apply last_None in Hy. }
  destruct Hx as [y Hy].
  pose proof (Hfeed (request_end end_ trades0) y) as Hdown.
  cbn [fst snd] in Hdown. rewrite Hpage in Hdown. specialize (Hdown Hy).
  edestruct (IH (if save_file then format_dtypes (x :: xs)
                 else trades0 ++ format_dtypes (x :: xs)))
    as [[[[t n] f] reqs] ->]; [|by eexists].
  rewrite (request_end_next save_file trades0 (x :: xs) y Hy). lia.
Qed.

(** X23.  Without [save_file], [get_trades] of [market_data.py] answers a
    window without trades with an empty table, after one request and
    without an exception.  On a feed whose pages end with a trade dated
    strictly below the upper bound asked for and not below [start], it
    returns within [end - start + 1] requests: the trades of all the
    pages it has fetched, in the order fetched; it prints their number
    and writes no file.  Its requests all start at [start], the first
    ends at [end] and each next one at the date of the last trade of the
    page before; it stops after a page without trades or when the number
    of trades held is not a multiple of 50000. *)
Theorem get_trades_returns_all_pages (fuel : nat) (file_path : string) :
  save_file = false →
  (poloniex_api currency_pair start end_ = [] →
   get_trades poloniex_api strftime (S fuel) currency_pair start end_ save_file
              file_path
     = Some (mkOutcome (inr []) 0 [] [(start, end_)])) ∧
  ((∀ e x, last (page (start, e)) = Some x → start ≤ Poloniex.raw_date x < e) →
   (Z.to_nat (end_ - start) < fuel)%nat →
   ∃ out,
     get_trades poloniex_api strftime fuel currency_pair start end_ save_file
                file_path = Some out ∧
     returned out = inr (fetched (requested out)) ∧
     printed_total out = Z.of_nat (length (fetched (requested out))) ∧
     appended out = [] ∧
     (∃ rest, requested out = (start, end_) :: rest) ∧
     (∀ r, r ∈ requested out → r.1 = start) ∧
     (∀ i r r', requested out !! i = Some r → requested out !! S i = Some r' →
        ∃ x, last (page r) = Some x ∧ r'.2 = Poloniex.raw_date x) ∧
     (∀ r, last (requested out) = Some r →
        page r = [] ∨
        Z.of_nat (length (fetched (requested out))) mod 50000 ≠ 0) ∧
     (length (requested out) ≤ fuel)%nat).
Proof.
  intros Hs. split.
  - intros Hempty. unfold get_trades. cbn [fetch_loop].
    change (need_to_fetch []) with true. cbn match.
    unfold Poloniex.unix_time. cbn [fst snd request_end last].
    rewrite Hempty. by rewrite Hs.
  - intros Hfeed Hfuel. unfold get_trades.
    destruct (raw_fetch_loop_ends fuel [] 0 [] Hfeed Hfuel)
      as [[[[t n] f] reqs] Hrun].
    rewrite Hrun. eexists. split; [reflexivity|].
    cbn [returned printed_total appended requested].
    destruct (raw_fetch_loop_walk _ _ _ _ _ _ _ _ Hrun)
      as (Hnil & Hn & Hstart & Hhead & Hplain & _ & Hnext & Hlast & Hlen).
    destruct (Hplain Hs) as [-> ->]. rewrite Hs. cbn [app] in *.
    assert (Hfirst : ∃ rest, reqs = (start, end_) :: rest).
    { destruct reqs as [|[s e] rest]; [by destruct (Hnil eq_refl)|].
      exists rest. pose proof (Hstart (s, e)) as Hs1. cbn in Hs1.
      rewrite Hs1 by left.
      specialize (Hhead _ eq_refl). cbn in Hhead. by subst e. }
    split; [done|]. split; [lia|]. split; [done|]. split; [done|].
    split; [done|]. split; [done|]. split; [|done].
    intros r Hr. destruct (Hlast r Hr) as [Hp|Hneed]; [by left|right].
    unfold need_to_fetch in Hneed. apply orb_false_iff in Hneed as [_ Hmod].
    by apply Z.eqb_neq.
Qed.

(** X24.  With [save_file], on a feed whose pages end with a trade dated
    strictly below the upper bound asked for and not below [start],
    [get_trades] of [market_data.py] returns within [end - start + 1]
    requests: the name of the file, made of the path, the currency pair
    and the two dates.  It appends to the file one table for each page
    that has trades, so that the file holds the trades of all the pages
    fetched, in the order fetched; and it prints their number.  Each
    request after the first ends at the date of the last trade of the
    page before. *)
Theorem get_trades_saves_all_pages (fuel : nat) (file_path : string) :
  save_file = true →
  (∀ e x, last (page (start, e)) = Some x → start ≤ Poloniex.raw_date x < e) →
  (Z.to_nat (end_ - start) < fuel)%nat →
  ∃ out,
    get_trades poloniex_api strftime fuel currency_pair start end_ save_file
               file_path = Some out ∧
    returned out
      = inl (file_path +:+ "Trades|" +:+ currency_pair +:+ "|"
             +:+ strftime start +:+ "|" +:+ strftime end_ +:+ ".csv") ∧
    concat (appended out) = fetched (requested out) ∧
    Forall (fun p => p ≠ []) (appended out) ∧
    printed_total out = Z.of_nat (length (concat (appended out))) ∧
    (∃ rest, requested out = (start, end_) :: rest) ∧
    (∀ r, r ∈ requested out → r.1 = start) ∧
    (∀ i r r', requested out !! i = Some r → requested out !! S i = Some r' →
       ∃ x, last (page r) = Some x ∧ r'.2 = Poloniex.raw_date x) ∧
    (length (requested out) ≤ fuel)%nat.
Proof.
  intros Hs Hfeed Hfuel. unfold get_trades.
  destruct (raw_fetch_loop_ends fuel [] 0 [] Hfeed Hfuel)
    as [[[[t n] f] reqs] Hrun].
  rewrite Hrun. eexists. split; [reflexivity|].
  cbn [returned printed_total appended requested].
  destruct (raw_fetch_loop_walk _ _ _ _ _ _ _ _ Hrun)
    as (Hnil & Hn & Hstart & Hhead & _ & Hsave & Hnext & _ & Hlen).
  destruct (Hsave Hs) as [Hc Hall]. cbn in Hc. rewrite Hs.
  assert (Hfirst : ∃ rest, reqs = (start, end_) :: rest).
  { destruct reqs as [|[s e] rest]; [by destruct (Hnil eq_refl)|].
    exists rest. pose proof (Hstart (s, e)) as Hs1. cbn in Hs1.
    rewrite Hs1 by left.
    specialize (Hhead _ eq_refl). cbn in Hhead. by subst e. }
  split; [done|]. split; [done|]. split; [by apply Hall|].
  split; [rewrite Hc; lia|]. split; [done|]. split; [done|]. split; done.
Qed.

End Fetch.

End MarketDataFacts.

(** * The further properties on the sample data *)

Module Runs.
Import Poloniex.

(** [Samples.describe] counts the values it is given. *)
Lemma sample_describe_counts :
  ∀ l, s_count (Samples.describe l) = of_int (Z.of_nat (length l)).
Proof. intros [|x l]; reflexivity. Defined.

Lemma hourly_counts_every_trade_witness :
  (∀ l, s_count (Samples.describe l) = of_int (Z.of_nat (length l))) ∧
  count_sum (map (fun hr => tradeID hr.2)
               (hourly Samples.describe [Samples2.one_formatted]))
    = of_int (Z.of_nat (length [Samples2.one_formatted])).
Proof.
  split; [exact sample_describe_counts|].
  destruct (AggregatorFacts.hourly_counts_every_trade Samples.describe
              sample_describe_counts [Samples2.one_formatted]) as [Hcount _].
  exact Hcount.
Defined.

Lemma get_trades_returns_sorted_bars_witness :
  get_trades Samples.feed_one Samples.describe 5 "BTC_ETH" 0 40000
    = Some (Ok Samples2.bars_one) ∧
  Samples2.bars_one ≠ [] ∧
  StronglySorted Z.le (name <$> Samples2.bars_one).
Proof.
  assert (Hrun : get_trades Samples.feed_one Samples.describe 5 "BTC_ETH" 0 40000
                 = Some (Ok Samples2.bars_one)) by (vm_compute; reflexivity).
  split; [exact Hrun|].
  destruct (AggregatorFacts.get_trades_returns_sorted_bars Samples.describe
              Samples.feed_one "BTC_ETH" 0 5 40000 Samples2.bars_one Hrun)
    as (Hne & Hsorted & _).
  split; [exact Hne|exact Hsorted].
Defined.

Lemma get_trades_fails_on_empty_window_witness :
  Samples.feed_none "BTC_ETH" (unix_time 0) (unix_time 40000) = [] ∧
  get_trades Samples.feed_none Samples.describe 1 "BTC_ETH" 0 40000
    = Some (Raise AttributeError) ∧
  Samples.feed_one "BTC_ETH" (unix_time 0) (unix_time 40000) ≠ [] ∧
  ∃ b bars,
    get_trades Samples.feed_one Samples.describe 5 "BTC_ETH" 0 40000
      = Some (Ok (b :: bars)).
Proof.
  split; [reflexivity|]. split.
  { destruct (AggregatorFacts.get_trades_fails_on_empty_window Samples.describe
                Samples.feed_none "BTC_ETH" 0 0 40000) as [Hraise _].
    exact (Hraise eq_refl). }
  split; [discriminate|].
  destruct (AggregatorFacts.get_trades_fails_on_empty_window Samples.describe
              Samples.feed_one "BTC_ETH" 0 5 40000) as (_ & Hbars & _).
  destruct (Hbars ltac:(discriminate) (Ok Samples2.bars_one))
    as (b & bars & Hok); [vm_compute; reflexivity|].
  exists b, bars. rewrite <- Hok. vm_compute. reflexivity.
Defined.

Lemma get_trades_single_short_page_witness :
  (∀ l, s_count (Samples.describe l) = of_int (Z.of_nat (length l))) ∧
  format_dtypes (Samples.feed_one "BTC_ETH" (unix_time 0) (unix_time 40000))
    = [Samples2.one_formatted] ∧
  Z.of_nat (length [Samples2.one_formatted]) mod 50000 ≠ 0 ∧
  fetch_loop Samples.feed_one Samples.describe 1 "BTC_ETH" 0 40000 []
    = Some (hourly Samples.describe [Samples2.one_formatted], [(0, 40000)]).
Proof.
  split; [exact sample_describe_counts|]. split; [reflexivity|].
  assert (Hshort : Z.of_nat (length [Samples2.one_formatted]) mod 50000 ≠ 0)
    by (vm_compute; discriminate).
  split; [exact Hshort|].
  destruct (AggregatorFacts.get_trades_single_short_page Samples.describe
              sample_describe_counts Samples.feed_one "BTC_ETH" 0 0 40000
              Samples2.one_formatted [] eq_refl Hshort) as [Hloop _].
  exact Hloop.
Defined.

Lemma account_for_overlap_keeps_count_witness :
  NoDup Samples.frame_a.*1 ∧ NoDup Samples.frame_b.*1 ∧
  count_sum (map (fun hr => tradeID hr.2)
     ((account_for_overlap Samples.frame_a Samples.frame_b).1
      ++ (account_for_overlap Samples.frame_a Samples.frame_b).2))
    = (count_sum (map (fun hr => tradeID hr.2) Samples.frame_a)
       + count_sum (map (fun hr => tradeID hr.2) Samples.frame_b))%Qc.
Proof.
  assert (Ha : NoDup Samples.frame_a.*1).
  { apply (bool_decide_unpack _). vm_compute. exact I. }
  assert (Hb : NoDup Samples.frame_b.*1).
  { apply (bool_decide_unpack _). vm_compute. exact I. }
  split; [exact Ha|]. split; [exact Hb|].
  exact (AggregatorFacts.account_for_overlap_keeps_count _ _ Ha Hb).
Defined.

(** The replay cursor. *)

Lemma sample_fetch_returns :
  ∀ m, m ∈ ["BTC_ETH"] → ∃ df, Samples2.fetch m = Ok df.
Proof.
  intros m Hin. apply list_elem_of_singleton in Hin. subst m.
  eexists. reflexivity.
Defined.

Lemma init_sets_up_the_cursor_witness :
  (∀ m, m ∈ ["BTC_ETH"] → ∃ df, Samples2.fetch m = Ok df) ∧
  ∃ dh, Data.init Samples2.fetch ["BTC_ETH"] = Ok dh.
Proof.
  split; [exact sample_fetch_returns|].
  destruct (ReplayFacts.init_sets_up_the_cursor Samples2.fetch ["BTC_ETH"])
    as (_ & _ & Hreturns).
  exact (Hreturns sample_fetch_returns).
Defined.

Lemma replay_reveals_bars_in_order_witness :
  Data.populated Samples.handler ∧
  ∃ dh', Data.update_market_data_n 2 Samples.handler []
           = Ok (dh', [] ++ replicate 2 (Some MarketEvent)).
Proof.
  split; [exact DataFacts.sample_handler_populated|].
  destruct (ReplayFacts.replay_reveals_bars_in_order 2 Samples.handler []
              DataFacts.sample_handler_populated) as (dh' & Hrun & _).
  exists dh'. exact Hrun.
Defined.

Lemma sample_markets_distinct : NoDup ["BTC_ETH"].
Proof. apply (bool_decide_unpack _). vm_compute. exact I. Defined.

Lemma replay_from_init_witness :
  Data.init Samples2.fetch ["BTC_ETH"] = Ok Samples2.handler0 ∧
  NoDup ["BTC_ETH"] ∧
  ∃ dh', Data.update_market_data_n 2 Samples2.handler0 []
           = Ok (dh', replicate 2 (Some MarketEvent)).
Proof.
  split; [reflexivity|]. split; [exact sample_markets_distinct|].
  destruct (ReplayFacts.replay_from_init Samples2.fetch ["BTC_ETH"]
              Samples2.handler0 2 eq_refl sample_markets_distinct)
    as (dh' & Hrun & _).
  exists dh'. exact Hrun.
Defined.

Lemma latest_after_update_witness :
  Data.populated Samples.handler ∧
  NoDup (Data.markets Samples.handler) ∧
  "BTC_ETH" ∈ Data.markets Samples.handler ∧
  Data.update_market_data Samples.handler []
    = Ok (Samples2.handler1, [Some MarketEvent]) ∧
  Data.get_latest_market_data Samples2.handler1 "BTC_ETH" 1
    = ([], Some Samples.bar3).
Proof.
  assert (Hin : "BTC_ETH" ∈ Data.markets Samples.handler) by left.
  split; [exact DataFacts.sample_handler_populated|].
  split; [exact sample_markets_distinct|]. split; [exact Hin|].
  split; [reflexivity|].
  destruct (ReplayFacts.latest_after_update Samples.handler Samples2.handler1
              [] [Some MarketEvent] "BTC_ETH"
              DataFacts.sample_handler_populated sample_markets_distinct
              Hin eq_refl) as [Hpulled _].
  exact (Hpulled Samples.bar3 [] eq_refl).
Defined.

Lemma get_latest_nonpositive_N_witness :
  0 ≤ 0 ∧
  Data.latest_market_data Samples.handler !! "BTC_ETH"
    = Some [Samples.bar1; Samples.bar2] ∧
  Data.get_latest_market_data Samples.handler "BTC_ETH" 0
    = ([], [Samples.bar1; Samples.bar2] !! Z.to_nat (- 0)).
Proof.
  split; [lia|]. split; [reflexivity|].
  destruct (ReplayFacts.get_latest_nonpositive_N Samples.handler "BTC_ETH" 0
              [Samples.bar1; Samples.bar2]) as [Hget _];
    [lia|reflexivity|].
  exact Hget.
Defined.

Lemma update_market_data_missing_market_witness :
  "BTC_ETH" ∈ Data.markets Samples2.handler_missing ∧
  Data.market_snapshots Samples2.handler_missing !! "BTC_ETH" = None ∧
  Data.update_market_data Samples2.handler_missing [] = Raise KeyError.
Proof.
  assert (Hin : "BTC_ETH" ∈ Data.markets Samples2.handler_missing) by left.
  split; [exact Hin|]. split; [reflexivity|].
  destruct (ReplayFacts.update_market_data_missing_market
              Samples2.handler_missing []) as [_ Hmissing].
  exact (Hmissing "BTC_ETH" Hin eq_refl).
Defined.

(** The ledger. *)

Lemma sample_portfolio_covers : Portfolio.covers_markets Samples.portfolio.
Proof.
  intros m Hin. apply list_elem_of_singleton in Hin. subst m.
  split; eexists; reflexivity.
Defined.

Lemma update_timeindex_marks_to_market_witness :
  Portfolio.covers_markets Samples.portfolio ∧
  ∃ positions holdings self',
    Portfolio.update_timeindex Samples.handler Samples.portfolio MarketEvent
      = Ok self' ∧
    Portfolio.all_holdings self'
      = Portfolio.all_holdings Samples.portfolio ++ [holdings] ∧
    Portfolio.all_positions self'
      = Portfolio.all_positions Samples.portfolio ++ [positions] ∧
    Portfolio.cash holdings
      = Portfolio.cash (Portfolio.current_holdings Samples.portfolio).
Proof.
  split; [exact sample_portfolio_covers|].
  destruct (LedgerFacts.update_timeindex_marks_to_market Samples.handler
              Samples.portfolio MarketEvent sample_portfolio_covers)
    as (positions & holdings & self' & Hrun & Hp & Hh & Hcash & _).
  exists positions, holdings, self'.
  split; [exact Hrun|]. split; [exact Hh|]. split; [exact Hp|exact Hcash].
Defined.

Lemma buy_then_sell_restores_position_witness :
  Portfolio.current_positions Samples.portfolio !! "BTC_ETH" = Some 0 ∧
  Portfolio.market_values (Portfolio.current_holdings Samples.portfolio)
    !! "BTC_ETH" = Some (of_int 0) ∧
  ∃ self',
    Portfolio.update_fills Samples.portfolio
      [mkFill "BTC_ETH" "BUY" 100 (of_int 10) (of_int 1);
       mkFill "BTC_ETH" "SELL" 100 (of_int 12) (of_int 2)] = Ok self' ∧
    Portfolio.current_positions self'
      = Portfolio.current_positions Samples.portfolio.
Proof.
  split; [reflexivity|]. split; [reflexivity|].
  destruct (LedgerFacts.buy_then_sell_restores_position Samples.portfolio
              "BTC_ETH" 100 (of_int 10) (of_int 12) (of_int 1) (of_int 2)
              0 (of_int 0) eq_refl eq_refl) as (self' & Hrun & Hpos & _).
  exists self'. split; [exact Hrun|exact Hpos].
Defined.

Lemma filled_order_reverses_position_witness :
  Portfolio.current_positions Samples.portfolio_long
    !! signal_market Samples.signal_short = Some 100 ∧
  Portfolio.generate_naive_order Samples.portfolio_long Samples.signal_short
    = Ok (Some (OrderEvent (mkOrder "BTC_ETH" "SELL" 200
                              (s_mean (rate (stats Samples.bar2)))))) ∧
  ∃ self',
    Portfolio.update_fill Samples.portfolio_long (FillEvent Samples2.fill_sell)
      = Ok self' ∧
    Portfolio.current_positions self' !! signal_market Samples.signal_short
      = Some (- 100).
Proof.
  split; [reflexivity|]. split; [reflexivity|].
  exact (LedgerFacts.filled_order_reverses_position Samples.portfolio_long
           Samples.signal_short 100 (of_int 0)
           (mkOrder "BTC_ETH" "SELL" 200 (s_mean (rate (stats Samples.bar2))))
           Samples2.fill_sell eq_refl eq_refl eq_refl eq_refl eq_refl eq_refl).
Defined.

Lemma sample_run :
  Portfolio.run Samples.portfolio Samples2.actions = Ok Samples2.portfolio_run.
Proof. vm_compute. reflexivity. Defined.

Lemma current_total_is_current_cash_witness :
  Portfolio.init Samples.handler (Some 0) (of_int 100000) = Ok Samples.portfolio ∧
  Portfolio.run Samples.portfolio Samples2.actions = Ok Samples2.portfolio_run ∧
  Portfolio.total (Portfolio.current_holdings Samples2.portfolio_run)
    = Portfolio.cash (Portfolio.current_holdings Samples2.portfolio_run).
Proof.
  split; [reflexivity|]. split; [exact sample_run|].
  exact (LedgerFacts.current_total_is_current_cash Samples.handler (Some 0)
           (of_int 100000) Samples.portfolio Samples2.portfolio_run
           Samples2.actions eq_refl sample_run).
Defined.

Lemma only_initial_markets_trade_witness :
  Portfolio.init Samples.handler (Some 0) (of_int 100000) = Ok Samples.portfolio ∧
  Portfolio.run Samples.portfolio Samples2.actions = Ok Samples2.portfolio_run ∧
  Portfolio.update_fill Samples2.portfolio_run
    (FillEvent (mkFill "BTC_XMR" "BUY" 1 (of_int 10) (of_int 0)))
    = Raise KeyError.
Proof.
  split; [reflexivity|]. split; [exact sample_run|].
  destruct (LedgerFacts.only_initial_markets_trade Samples.handler (Some 0)
              (of_int 100000) Samples.portfolio Samples2.portfolio_run
              Samples2.actions eq_refl sample_run) as [Hfills _].
  destruct (Hfills (mkFill "BTC_XMR" "BUY" 1 (of_int 10) (of_int 0)))
    as [_ Hunknown].
  apply Hunknown. cbn. intros Hin. apply list_elem_of_singleton in Hin.
  discriminate Hin.
Defined.

Lemma histories_are_append_only_witness :
  Portfolio.run Samples.portfolio Samples2.actions = Ok Samples2.portfolio_run ∧
  Portfolio.all_holdings Samples.portfolio
    `prefix_of` Portfolio.all_holdings Samples2.portfolio_run.
Proof.
  split; [exact sample_run|].
  destruct (LedgerFacts.histories_are_append_only Samples.portfolio
              Samples2.portfolio_run Samples2.actions sample_run)
    as (_ & Hh & _).
  exact Hh.
Defined.

Lemma sample_totals_nonzero :
  ∀ j y, (j ≤ 1)%nat →
    map Portfolio.total (Portfolio.all_holdings Samples2.portfolio_run) !! j
      = Some y →
    y ≠ 0%Qc.
Proof.
  intros j y Hj Hy.
  assert (j = 0%nat ∨ j = 1%nat) as [-> | ->] by lia;
    vm_compute in Hy; injection Hy as <-;
    intros Heq; apply (f_equal this) in Heq; vm_compute in Heq; discriminate.
Defined.

Lemma equity_curve_compounds_returns_witness :
  map Portfolio.total (Portfolio.all_holdings Samples2.portfolio_run) !! 1%nat
    = Some Samples2.second_total ∧
  map Portfolio.total (Portfolio.all_holdings Samples2.portfolio_run) !! 2%nat
    = Some Samples2.third_total ∧
  (Portfolio.create_equity_curve_dataframe Samples2.portfolio_run).1 !! 2%nat
    = Some (Some (Samples2.third_total / Samples2.second_total - 1)%Qc) ∧
  ∃ e,
    (Portfolio.create_equity_curve_dataframe Samples2.portfolio_run).2 !! 1%nat
      = Some (Some e) ∧
    (Portfolio.create_equity_curve_dataframe Samples2.portfolio_run).2 !! 2%nat
      = Some (Some (e * (1 + (Samples2.third_total / Samples2.second_total - 1)))%Qc).
Proof.
  assert (H1 : map Portfolio.total
                 (Portfolio.all_holdings Samples2.portfolio_run) !! 1%nat
               = Some Samples2.second_total) by (vm_compute; reflexivity).
  assert (H2 : map Portfolio.total
                 (Portfolio.all_holdings Samples2.portfolio_run) !! 2%nat
               = Some Samples2.third_total) by (vm_compute; reflexivity).
  split; [exact H1|]. split; [exact H2|].
  destruct (LedgerFacts.equity_curve_compounds_returns Samples2.portfolio_run
              1 Samples2.second_total Samples2.third_total
              H1 H2 sample_totals_nonzero) as (Hreturn & _ & Hstep & _).
  split; [exact Hreturn|]. apply Hstep. discriminate.
Defined.

Lemma sample_fetch_has_bars :
  ∀ m df, Samples2.fetch m = Ok df → df ≠ [].
Proof.
  intros m df. unfold Samples2.fetch. destruct (String.eqb m "BTC_ETH").
  - intros Heq. injection Heq as <-. discriminate.
  - discriminate.
Defined.

Lemma init_without_start_date_witness :
  (∀ m df, Samples2.fetch m = Ok df → df ≠ []) ∧
  Data.init Samples2.fetch ["BTC_ETH"] = Ok Samples2.handler0 ∧
  ∃ b df p,
    Samples2.fetch "BTC_ETH" = Ok (b :: df) ∧
    Portfolio.init Samples2.handler0 None (of_int 100000) = Ok p ∧
    Portfolio.start_date p = name b.
Proof.
  split; [exact sample_fetch_has_bars|]. split; [reflexivity|].
  destruct (LedgerFacts.init_without_start_date Samples2.fetch "BTC_ETH" []
              Samples2.handler0 (of_int 100000) sample_fetch_has_bars eq_refl)
    as [(b & df & p & Hget & Hinit & Hstart & _) _].
  exists b, df, p. split; [exact Hget|]. split; [exact Hinit|exact Hstart].
Defined.

Lemma flat_signal_always_orders_witness :
  Portfolio.current_positions Samples.portfolio
    !! signal_market Samples2.signal_weak = Some 0 ∧
  signal_type Samples2.signal_weak = "LONG" ∧
  ∃ o,
    Portfolio.generate_naive_order Samples.portfolio Samples2.signal_weak
      = Ok (Some (OrderEvent o)) ∧
    order_quantity o = 0.
Proof.
  split; [reflexivity|]. split; [reflexivity|].
  destruct (LedgerFacts.flat_signal_always_orders Samples.portfolio
              Samples2.signal_weak eq_refl (or_introl eq_refl))
    as (o & Hgen & _ & Hweak & _).
  exists o. split; [exact Hgen|]. apply Hweak.
  split; vm_compute; [discriminate|reflexivity].
Defined.

(** The raw trade fetch. *)

Lemma sample_feed_full_descends :
  ∀ e x, last (Samples2.feed_full "BTC_ETH" (0, e).1 (0, e).2) = Some x →
         0 ≤ Poloniex.raw_date x < e.
Proof.
  intros e x. unfold Samples2.feed_full. cbn [fst snd].
  destruct (Z.leb_spec 10 e) as [He|He]; [|discriminate].
  assert (Hlast : last Samples2.full_page = Some Samples2.early_trade)
    by (vm_compute; reflexivity).
  rewrite Hlast. intros [= <-]. cbn. lia.
Defined.

Lemma get_trades_returns_all_pages_witness :
  (Z.to_nat (10 - 0) < 11)%nat ∧
  MarketData.get_trades Samples2.feed_full Samples2.strftime 11 "BTC_ETH" 0 10
                        false "data/" = Some Samples2.outcome_plain ∧
  MarketData.requested Samples2.outcome_plain = [(0, 10); (0, 5)] ∧
  MarketData.printed_total Samples2.outcome_plain = 50000 ∧
  MarketData.returned Samples2.outcome_plain
    = inr (concat (map (fun r => Samples2.feed_full "BTC_ETH" r.1 r.2)
                       (MarketData.requested Samples2.outcome_plain))).
Proof.
  assert (Hfuel : (Z.to_nat (10 - 0) < 11)%nat) by (vm_compute; lia).
  destruct (MarketDataFacts.get_trades_returns_all_pages Samples2.feed_full
              Samples2.strftime "BTC_ETH" 0 10 false 11 "data/" eq_refl)
    as [_ Htotal].
  destruct (Htotal sample_feed_full_descends Hfuel) as (out & Hout & Hret & _).
  assert (Hsame : out = Samples2.outcome_plain).
  { unfold Samples2.outcome_plain. by rewrite Hout. }
  rewrite Hsame in Hout, Hret.
  split; [exact Hfuel|]. split; [exact Hout|].
  split; [vm_compute; reflexivity|]. split; [vm_compute; reflexivity|].
  exact Hret.
Defined.

Lemma get_trades_saves_all_pages_witness :
  (Z.to_nat (10 - 0) < 11)%nat ∧
  MarketData.get_trades Samples2.feed_full Samples2.strftime 11 "BTC_ETH" 0 10
                        true "data/" = Some Samples2.outcome_saved ∧
  MarketData.requested Samples2.outcome_saved = [(0, 10); (0, 5)] ∧
  MarketData.returned Samples2.outcome_saved
    = inl "data/Trades|BTC_ETH|day 0|day 0.csv" ∧
  concat (MarketData.appended Samples2.outcome_saved)
    = concat (map (fun r => Samples2.feed_full "BTC_ETH" r.1 r.2)
                  (MarketData.requested Samples2.outcome_saved)).
Proof.
  assert (Hfuel : (Z.to_nat (10 - 0) < 11)%nat) by (vm_compute; lia).
  destruct (MarketDataFacts.get_trades_saves_all_pages Samples2.feed_full
              Samples2.strftime "BTC_ETH" 0 10 true 11 "data/" eq_refl
              sample_feed_full_descends Hfuel)
    as (out & Hout & _ & Hfile & _).
  assert (Hsame : out = Samples2.outcome_saved).
  { unfold Samples2.outcome_saved. by rewrite Hout. }
  rewrite Hsame in Hout, Hfile.
  split; [exact Hfuel|]. split; [exact Hout|].
  split; [vm_compute; reflexivity|]. split; [vm_compute; reflexivity|].
  exact Hfile.
Defined.

End Runs.
